(** * LasHeR-tool: normalize_lasher.py

    A shallow embedding of [normalize_lasher.py] and the properties of its two
    passes over a directory tree.

    Conventions of the embedding.
    - A Python [str] is a [ustring]: a sequence of code points, whatever
      their value.  The class [\d] of a [str] pattern and [int] take the
      decimal digits of every script, not those of ASCII alone.
    - A Python [int] is a [Z]; [int(s)] refuses a text of more than 4300
      digits, as CPython does unless told otherwise.
    - A [Path] is the list of the components of an absolute path; the file
      system is a finite map from paths to nodes, with the system calls of
      POSIX.  The order in which a walk yields the entries is a parameter
      of the program, any rearrangement of them.
    - A raising operation returns a [result]; the passes thread the file
      system and the printed lines explicitly. *)

From Stdlib Require Import Ascii String ZArith Lia.
From stdpp Require Import gmap strings list fin_maps.

Local Open Scope Z_scope.

(** ** Strings *)

(** A text is the sequence of the code points of its characters. *)
Inductive ustring : Type :=
| UEmpty
| UString (c : N) (r : ustring).

(** A text between double quotes stands for the text of its bytes, which are
    to be ASCII, so that a byte is a character. *)
Fixpoint ustring_of_bytes (l : list Byte.byte) : option ustring :=
  match l with
  | [] => Some UEmpty
  | b :: r =>
      if (Byte.to_N b <? 128)%N
      then option_map (UString (Byte.to_N b)) (ustring_of_bytes r)
      else None
  end.

Fixpoint ustring_to_bytes (s : ustring) : option (list Byte.byte) :=
  match s with
  | UEmpty => Some []
  | UString c r =>
      match Byte.of_N c, ustring_to_bytes r with
      | Some b, Some l => if (c <? 128)%N then Some (b :: l) else None
      | _, _ => None
      end
  end.

Declare Scope ustring_scope.
Delimit Scope ustring_scope with ustring.
Bind Scope ustring_scope with ustring.
String Notation ustring ustring_of_bytes ustring_to_bytes : ustring_scope.
Local Open Scope ustring_scope.

Module Str.

(** [[ord(c) for c in s]] and back *)
Fixpoint to_list (s : ustring) : list N :=
  match s with
  | UEmpty => []
  | UString c r => c :: to_list r
  end.

Fixpoint of_list (l : list N) : ustring :=
  match l with
  | [] => UEmpty
  | c :: r => UString c (of_list r)
  end.

Fixpoint of_to_list (s : ustring) : of_list (to_list s) = s :=
  match s with
  | UEmpty => eq_refl
  | UString c r => f_equal (UString c) (of_to_list r)
  end.

(** [len(s)] *)
Fixpoint length (s : ustring) : nat :=
  match s with
  | UEmpty => O
  | UString _ r => S (length r)
  end.

(** [s + r] *)
Fixpoint app (s r : ustring) : ustring :=
  match s with
  | UEmpty => r
  | UString c s' => UString c (app s' r)
  end.

(** [s == r] *)
Fixpoint eqb (s r : ustring) : bool :=
  match s, r with
  | UEmpty, UEmpty => true
  | UString c s', UString d r' => (c =? d)%N && eqb s' r'
  | _, _ => false
  end.

(** The decimal digits of Unicode: the characters with a decimal value, which
    are those of category [Nd].  They come in blocks of ten, a ['0'] followed
    by its ['1'] to ['9']; this is the list of the ['0']s in the database of
    CPython 3.11 (Unicode 14.0), the digits of ASCII first.  Other versions
    have other blocks; nothing below depends on which but the examples. *)
Definition digit_zeros : list N :=
  [48; 1632; 1776; 1984; 2406; 2534; 2662; 2790; 2918; 3046; 3174; 3302;
   3430; 3558; 3664; 3792; 3872; 4160; 4240; 6112; 6160; 6470; 6608; 6784;
   6800; 6992; 7088; 7232; 7248; 42528; 43216; 43264; 43472; 43504; 43600;
   44016; 65296; 66720; 68912; 69734; 69872; 69942; 70096; 70384; 70736;
   70864; 71248; 71360; 71472; 71904; 72016; 72784; 73040; 73120; 92768;
   92864; 93008; 120782; 120792; 120802; 120812; 120822; 123200; 123632;
   125264; 130032]%N.

(** The block of a digit: its ['0']. *)
Definition digit_block (c : N) : option N :=
  List.find (λ z, (z <=? c)%N && (c <? z + 10)%N) digit_zeros.

(** The class [\d] of a [str] pattern, and what [int] takes for a digit. *)
Definition is_digit (c : N) : bool :=
  match digit_block c with
  | Some _ => true
  | None => false
  end.

(** The decimal value of a digit. *)
Definition digit_val (c : N) : Z :=
  match digit_block c with
  | Some z => Z.of_N (c - z)
  | None => 0
  end.

(** The digits ['0'] to ['9'], the only ones Python writes. *)
Definition is_ascii_digit (c : N) : bool := (48 <=? c)%N && (c <=? 57)%N.

Definition digit_char (d : Z) : N := Z.to_N (48 + d).

Fixpoint all_digits (s : ustring) : bool :=
  match s with
  | UEmpty => true
  | UString c r => is_digit c && all_digits r
  end.

Fixpoint all_ascii_digits (s : ustring) : bool :=
  match s with
  | UEmpty => true
  | UString c r => is_ascii_digit c && all_ascii_digits r
  end.

Fixpoint has_digit (s : ustring) : bool :=
  match s with
  | UEmpty => false
  | UString c r => is_digit c || has_digit r
  end.

(** [''.join(l)] *)
Fixpoint join (l : list ustring) : ustring :=
  match l with
  | [] => UEmpty
  | s :: r => app s (join r)
  end.

(** ['0' * k] *)
Fixpoint zeros (k : nat) : ustring :=
  match k with
  | O => UEmpty
  | S k' => UString 48 (zeros k')
  end.

(** [s.lower()], character by character, on the letters of ASCII and of
    Latin-1: the capital letters (the multiplication sign, 215, is not one)
    move up by 32.  The mapping of the other scripts is not reproduced: the
    program lowers the suffix of a name only, and the names it meets end in
    [.jpg]. *)
Definition lower_char (c : N) : N :=
  if ((65 <=? c) && (c <=? 90) || (192 <=? c) && (c <=? 222) && negb (c =? 215))%N
  then (c + 32)%N else c.

Fixpoint lower (s : ustring) : ustring :=
  match s with
  | UEmpty => UEmpty
  | UString c r => UString (lower_char c) (lower r)
  end.

(** [s.endswith(suf)]: some tail of [s] is [suf]. *)
Fixpoint endswith (s suf : ustring) : bool :=
  eqb s suf
  || match s with
     | UEmpty => false
     | UString _ r => endswith r suf
     end.

(** [s.rfind(c)]: the index of the last occurrence of [c]. *)
Fixpoint rfind (c : N) (s : ustring) : option nat :=
  match s with
  | UEmpty => None
  | UString d r =>
      match rfind c r with
      | Some i => Some (S i)
      | None => if (c =? d)%N then Some O else None
      end
  end.

(** [s[i:]] *)
Fixpoint drop (i : nat) (s : ustring) : ustring :=
  match i, s with
  | O, _ => s
  | S i', UString _ r => drop i' r
  | S _, UEmpty => UEmpty
  end.

End Str.

Infix "+:+" := Str.app (at level 60, right associativity) : ustring_scope.

#[global] Arguments Str.digit_block : simpl never.
#[global] Arguments Str.is_digit : simpl never.
#[global] Arguments Str.digit_val : simpl never.

#[global] Instance ustring_eq_dec : EqDecision ustring.
Proof. solve_decision. Defined.

#[global] Instance ustring_countable : Countable ustring :=
  inj_countable' Str.to_list Str.of_list Str.of_to_list.

(** ** The regular expression [DIGITS = re.compile(r'(\d+)')] *)

Module Re.

(** The greedy match of [\d+] tried at the head of [s]: the longest prefix of
    digits and what follows it. *)
Fixpoint span_digits (s : ustring) : ustring * ustring :=
  match s with
  | UString c r =>
      if Str.is_digit c
      then let '(m, rest) := span_digits r in (UString c m, rest)
      else (UEmpty, s)
  | UEmpty => (UEmpty, UEmpty)
  end.

(** The scan of [findall]: at each position try the pattern; on a match keep
    its text and go on after it, otherwise move one character forward.  The
    fuel bounds the number of positions tried. *)
Fixpoint scan (fuel : nat) (s : ustring) : list ustring :=
  match fuel with
  | O => []
  | S fuel' =>
      match s with
      | UEmpty => []
      | UString c r =>
          if Str.is_digit c
          then let '(m, rest) := span_digits s in m :: scan fuel' rest
          else scan fuel' r
      end
  end.

(** [DIGITS.findall(name)] *)
Definition findall (name : ustring) : list ustring :=
  scan (Str.length name) name.

End Re.

(** ** Python built-ins used by [extract_num6] *)

Inductive exn : Type :=
| ValueError
| OSError (errno : string)
| SystemExit (code : Z).

Inductive result (A : Type) : Type :=
| Ok (a : A)
| Raise (e : exn).
Arguments Ok {A} a.
Arguments Raise {A} e.


Module Py.

(** [sys.int_info.default_max_str_digits]: the most digits [int] reads and
    [str] writes. *)
Definition int_max_str_digits : Z := 4300.

Fixpoint int_digits (acc : Z) (s : ustring) : result Z :=
  match s with
  | UEmpty => Ok acc
  | UString c r =>
      if Str.is_digit c then int_digits (10 * acc + Str.digit_val c) r
      else Raise ValueError
  end.

(** [int(s)] on a text of digits, of whatever script: [ValueError] when there
    are more of them than the limit.  Every other text raises [ValueError]
    here; Python accepts a few more (a sign, blanks around, underscores
    between digits), none of which is a text of digits. *)
Definition int (s : ustring) : result Z :=
  match s with
  | UEmpty => Raise ValueError
  | _ =>
      if int_max_str_digits <? Z.of_nat (Str.length s) then Raise ValueError
      else int_digits 0 s
  end.

(** The decimal digits of [n >= 0], most significant first, by repeated
    division. *)
Fixpoint digits_of (fuel : nat) (n : Z) (acc : ustring) : ustring :=
  match fuel with
  | O => acc
  | S fuel' =>
      let acc' := UString (Str.digit_char (n mod 10)) acc in
      if n <? 10 then acc' else digits_of fuel' (n / 10) acc'
  end.

(** [str(n)] for [n >= 0].  The limit on the digits holds for [str] too; a
    number that [int] has returned is below it ([int_below_limit]). *)
Definition str (n : Z) : ustring :=
  digits_of (S (Z.to_nat (Z.log2 n))) n UEmpty.

(** [s.zfill(w)] for a text without sign. *)
Definition zfill (w : nat) (s : ustring) : ustring :=
  Str.zeros (w - Str.length s) +:+ s.

(** [f"{n:06d}"]: sign first, then zeros up to width 6. *)
Definition format_06d (n : Z) : ustring :=
  if n <? 0 then UString 45 (zfill 5 (str (- n))) else zfill 6 (str n).

End Py.

(** ** [extract_num6] *)

(** [int] raises nothing but [ValueError], the exception the handler names. *)
Definition extract_num6 (name : ustring) : option ustring :=
  let nums := Re.findall name in
  match nums with
  | [] => None
  | _ =>
      let s := Str.join nums in
      match Py.int s with
      | Raise _ => None
      | Ok n => Some (Py.format_06d n)
      end
  end.

(** ** Paths and the file system *)

Module Fs.

(** What [lstat] can find at a path.  A directory carries whether entries may
    be created, removed or renamed in it. *)
Inductive node : Type :=
| File (data : string)
| Symlink (target : ustring)
| Dir (writable : bool)
| Special.

Abbreviation path := (list ustring) (only parsing).
Abbreviation fs := (gmap (list ustring) node) (only parsing).

(** [p.name] and [p.parent] *)
Definition name (p : path) : ustring := List.last p UEmpty.
Definition parent (p : path) : path := removelast p.

Fixpoint has_slash (s : ustring) : bool :=
  match s with
  | UEmpty => false
  | UString c r => (c =? 47)%N || has_slash r
  end.

(** [p.with_name(n)]: [ValueError] when [p] has no name or [n] is not one. *)
Definition with_name (p : path) (n : ustring) : result path :=
  if Str.eqb (name p) UEmpty then Raise ValueError
  else if Str.eqb n UEmpty || has_slash n || Str.eqb n "." then Raise ValueError
  else Ok (parent p ++ [n]).

(** [p.suffix]: from the last dot of the name, unless that dot is first or
    last. *)
Definition suffix (p : path) : ustring :=
  let n := name p in
  match Str.rfind 46 n with
  | Some i =>
      if (0 <? i)%nat && (i <? Str.length n - 1)%nat then Str.drop i n
      else UEmpty
  | None => UEmpty
  end.

(** The components of a link target: the text between the slashes. *)
Fixpoint split_slash (cur : ustring) (s : ustring) : list ustring :=
  match s with
  | UEmpty => [cur]
  | UString c r =>
      if (c =? 47)%N then cur :: split_slash UEmpty r
      else split_slash (cur +:+ UString c UEmpty) r
  end.

Definition is_absolute (s : ustring) : bool :=
  match s with
  | UString c _ => (c =? 47)%N
  | UEmpty => false
  end.

(** Path resolution from the resolved directory [cur] along [todo], following
    every link met on the way, at most [hops] of them (ELOOP beyond).  [None]
    is a missing entry, a loop, or a non-directory used as one. *)
Fixpoint follow (hops : nat) (t : fs) (cur : path) (todo : list ustring)
  : option path :=
  (fix walk (cur : path) (todo : list ustring) {struct todo} : option path :=
     match todo with
     | [] => Some cur
     | c :: rest =>
         if Str.eqb c UEmpty || Str.eqb c "." then walk cur rest
         else if Str.eqb c ".." then walk (parent cur) rest
         else
           let p := cur ++ [c] in
           match t !! p with
           | None => None
           | Some (Symlink tgt) =>
               match hops with
               | O => None
               | S hops' =>
                   follow hops' t
                     (if is_absolute tgt then [] else cur)
                     (split_slash UEmpty tgt ++ rest)
               end
           | Some (Dir _) => walk p rest
           | Some _ => match rest with [] => Some p | _ => None end
           end
     end) cur todo.

Definition lstat (t : fs) (p : path) : option node := t !! p.

(** [stat]: as [lstat], but a link is followed to what it names.  The paths
    the program handles lie under the resolved root and are reached through
    directories only, so only the last component can be a link. *)
Definition stat (t : fs) (p : path) : option node :=
  match t !! p with
  | Some (Symlink tgt) =>
      match follow 40 t (if is_absolute tgt then [] else parent p)
                   (split_slash UEmpty tgt) with
      | Some q => t !! q
      | None => None
      end
  | o => o
  end.

(** [p.is_symlink()], [p.exists()], [p.is_file()] *)
Definition is_symlink (t : fs) (p : path) : bool :=
  match lstat t p with Some (Symlink _) => true | _ => false end.

Definition exists_ (t : fs) (p : path) : bool :=
  match stat t p with Some _ => true | None => false end.

Definition is_file (t : fs) (p : path) : bool :=
  match stat t p with Some (File _) => true | _ => false end.

(** [os.readlink(p)] *)
Definition readlink (t : fs) (p : path) : result ustring :=
  match t !! p with
  | Some (Symlink tgt) => Ok tgt
  | Some _ => Raise (OSError "EINVAL")
  | None => Raise (OSError "ENOENT")
  end.

(** Creating, removing or renaming an entry needs its directory writable. *)
Definition check_writable (t : fs) (dir : path) : result unit :=
  match t !! dir with
  | Some (Dir true) => Ok tt
  | Some (Dir false) => Raise (OSError "EACCES")
  | Some _ => Raise (OSError "ENOTDIR")
  | None => Raise (OSError "ENOENT")
  end.

(** [p.unlink()] *)
Definition unlink (t : fs) (p : path) : result fs :=
  match t !! p with
  | None => Raise (OSError "ENOENT")
  | Some (Dir _) => Raise (OSError "EISDIR")
  | Some _ =>
      match check_writable t (parent p) with
      | Raise e => Raise e
      | Ok _ => Ok (delete p t)
      end
  end.

(** [os.symlink(target, p)] *)
Definition symlink (t : fs) (target : ustring) (p : path) : result fs :=
  match t !! p with
  | Some _ => Raise (OSError "EEXIST")
  | None =>
      match check_writable t (parent p) with
      | Raise e => Raise e
      | Ok _ => Ok (<[p := Symlink target]> t)
      end
  end.

(** [old.rename(new)] (POSIX [rename]) for a source that is not a directory,
    the only kind the program renames: an entry at [new] is replaced, unless
    it is a directory.  Moving a directory is outside the model, and so are
    hard links: a file has one name here, where POSIX leaves both names when
    [old] and [new] are names of one file. *)
Definition rename (t : fs) (old new : path) : result fs :=
  match t !! old with
  | None => Raise (OSError "ENOENT")
  | Some (Dir _) => Raise (OSError "ENOSYS")
  | Some n =>
      match check_writable t (parent old), check_writable t (parent new) with
      | Raise e, _ => Raise e
      | _, Raise e => Raise e
      | Ok _, Ok _ =>
          match t !! new with
          | Some (Dir _) => Raise (OSError "EISDIR")
          | _ => if decide (old = new) then Ok t
                 else Ok (<[new := n]> (delete old t))
          end
      end
  end.

(** [os.path.relpath(p, start)] on absolute paths: drop the common prefix,
    climb out of what is left of [start]. *)
Fixpoint join_sep (l : list ustring) : ustring :=
  match l with
  | [] => UEmpty
  | [s] => s
  | s :: r => s +:+ UString 47 (join_sep r)
  end.

(** [len(commonprefix([a, b]))] *)
Fixpoint common_len (a b : path) : nat :=
  match a, b with
  | x :: a', y :: b' => if Str.eqb x y then S (common_len a' b') else O
  | _, _ => O
  end.

Definition relpath (p start : path) : ustring :=
  let i := common_len start p in
  match app (replicate (length start - i) ".."%ustring) (drop i p) with
  | [] => "."%ustring
  | rel => join_sep rel
  end.

(** The pattern [*.jpg] on an entry name; matching is case-sensitive. *)
Definition match_jpg (n : ustring) : bool := Str.endswith n ".jpg".

(** [p] relative to [root], when [root] is a prefix of it. *)
Fixpoint relative_to (root p : path) : option (list ustring) :=
  match root, p with
  | [], _ => Some p
  | r :: root', c :: p' => if Str.eqb r c then relative_to root' p' else None
  | _ :: _, [] => None
  end.

(** The walk reaches [dir ++ rel] from [dir] when every component but the
    last is a directory; links to directories are not entered. *)
Fixpoint descends (t : fs) (dir : path) (rel : list ustring) : bool :=
  match rel with
  | [] => false
  | [_] => true
  | d :: rest =>
      match t !! (dir ++ [d]) with
      | Some (Dir _) => descends t (dir ++ [d]) rest
      | _ => false
      end
  end.

(** Whether an entry is a directory. *)
Definition is_dir (t : fs) (q : path) : bool :=
  match t !! q with Some (Dir _) => true | _ => false end.

Definition walked (t : fs) (root p : path) : bool :=
  match t !! root, relative_to root p with
  | Some (Dir _), Some rel => descends t root rel
  | _, _ => false
  end.

(** Two trees that differ at most in where their links point. *)
Definition same_but_links (t t' : fs) : Prop :=
  ∀ q, match t !! q, t' !! q with
       | Some (Symlink _), Some (Symlink _) => True
       | a, b => a = b
       end.

(** The entries below [root] whose name matches [*.jpg], of whatever kind, as
    the map lists them. *)
Definition matches (t : fs) (root : path) : list path :=
  List.filter (λ p, walked t root p && match_jpg (name p)) (map_to_list t).*1.

(** The order in which a walk yields the entries is the file system's own:
    some rearrangement of them. *)
Definition walk_order : Type := fs → list path → list path.

Definition lawful (o : walk_order) : Prop := ∀ t l, o t l ≡ₚ l.

Definition as_listed : walk_order := λ _ l, l.

(** [root.rglob("*.jpg")] *)
Definition rglob (o : walk_order) (t : fs) (root : path) : list path :=
  o t (matches t root).

End Fs.

(** ** Statements that raise: a state monad with exceptions

    A computation reads and updates a state and either returns a value or
    raises; what it did to the state before raising stays done. *)

Definition M (S A : Type) : Type := S → result A * S.

Definition ret {S A} (a : A) : M S A := λ s, (Ok a, s).

Definition bind {S A B} (m : M S A) (k : A → M S B) : M S B :=
  λ s, match m s with
       | (Ok a, s') => k a s'
       | (Raise e, s') => (Raise e, s')
       end.

Definition raise {S A} (e : exn) : M S A := λ s, (Raise e, s).
Definition gets {S A} (f : S → A) : M S A := λ s, (Ok (f s), s).
Definition modify {S} (f : S → S) : M S unit := λ s, (Ok tt, f s).
Definition lift {S A} (r : result A) : M S A := λ s, (r, s).

Declare Scope monad_scope.
Delimit Scope monad_scope with monad.
Notation "'do' x <- m ; k" := (bind m (λ x, k))
  (at level 10, x name, m at level 100, k at level 200) : monad_scope.
Local Open Scope monad_scope.

(** The classes named in the [except] clauses of the program. *)
Definition is_Exception (e : exn) : bool :=
  match e with SystemExit _ => false | _ => true end.

Definition is_OSError (e : exn) : bool :=
  match e with OSError _ => true | _ => false end.

(** [try: body  except <class> as e: handler(e)] *)
Definition try_except {S A} (body : M S A) (catches : exn → bool)
    (handler : exn → M S A) : M S A :=
  λ s, match body s with
       | (Raise e, s') => if catches e then handler e s' else (Raise e, s')
       | r => r
       end.

(** [for x in l: body(x)] *)
Fixpoint for_each {S A} (l : list A) (body : A → M S unit) : M S unit :=
  match l with
  | [] => ret tt
  | x :: r => do _ <- body x ; for_each r body
  end.

(** ** What the program prints

    One constructor per [print] of the source, with the values it
    interpolates. *)

Inductive line : Type :=
| WarnReal (p : Fs.path)
| ConflictReal (p newp : Fs.path)
| ErrorReal (p : Fs.path) (e : exn)
| RenameReal (old new : Fs.path)
| WarnLink (p : Fs.path)
| RetargetLink (p : Fs.path) (rel : ustring)
| BrokenLink (p : Fs.path) (current_target : option ustring) (target_canonical : Fs.path)
| ErrorLink (p : Fs.path) (e : exn)
| RootNotFound (root : Fs.path)
| Step1 (root : Fs.path) (dry : bool)
| Step2 (dry : bool)
| SummaryHeader
| Count (label : string) (n : nat)
| BrokenHeader
| BrokenExample (i : nat) (link : Fs.path) (cur : option ustring) (want : Fs.path).

(** The process as the program sees it: the file system and standard output. *)
Record world : Type := World { w_fs : Fs.fs; w_out : list line }.

(** ** Step 1: [normalize_real_files] *)

Record real_state : Type := RealState {
  rs_fs : Fs.fs;
  rs_out : list line;
  rs_changes : list (Fs.path * Fs.path);
  rs_conflicts : list (Fs.path * Fs.path)
}.

Module Real.

Definition print (l : line) : M real_state unit :=
  modify (λ s, RealState (rs_fs s) (rs_out s ++ [l]) (rs_changes s) (rs_conflicts s)).

Definition changes_append (c : Fs.path * Fs.path) : M real_state unit :=
  modify (λ s, RealState (rs_fs s) (rs_out s) (rs_changes s ++ [c]) (rs_conflicts s)).

Definition conflicts_append (c : Fs.path * Fs.path) : M real_state unit :=
  modify (λ s, RealState (rs_fs s) (rs_out s) (rs_changes s) (rs_conflicts s ++ [c])).

Definition rename (old new : Fs.path) : M real_state unit :=
  λ s, match Fs.rename (rs_fs s) old new with
       | Ok t' => (Ok tt, RealState t' (rs_out s) (rs_changes s) (rs_conflicts s))
       | Raise e => (Raise e, s)
       end.

(** The body of the [try] of the scan loop, lines 32-49. *)
Definition scan_body (p : Fs.path) : M real_state unit :=
  do is_link <- gets (λ s, Fs.is_symlink (rs_fs s) p) ;
  if is_link : bool then ret tt else
  do is_reg <- gets (λ s, Fs.is_file (rs_fs s) p) ;
  if negb is_reg then ret tt else
  match extract_num6 (Fs.name p) with
  | None => print (WarnReal p)
  | Some num6 =>
      do newp <- lift (Fs.with_name p (num6 +:+ Str.lower (Fs.suffix p))) ;
      if Str.eqb (Fs.name p) (Fs.name newp) then ret tt else
      do taken <- gets (λ s, Fs.exists_ (rs_fs s) newp) ;
      if taken : bool then
        do _ <- conflicts_append (p, newp) ;
        print (ConflictReal p newp)
      else changes_append (p, newp)
  end.

(** One turn of the scan loop, lines 31-51. *)
Definition scan_entry (p : Fs.path) : M real_state unit :=
  try_except (scan_body p) is_Exception (λ e, print (ErrorReal p e)).

(** One turn of the rename loop, lines 56-58. *)
Definition apply_entry (dry_run : bool) (c : Fs.path * Fs.path) : M real_state unit :=
  do _ <- print (RenameReal c.1 c.2) ;
  if negb dry_run then rename c.1 c.2 else ret tt.

(** The two loops over the entries [entries] that the walk yields. *)
Definition passes (entries : list Fs.path) (dry_run : bool) : M real_state unit :=
  do _ <- for_each entries scan_entry ;
  do changes <- gets rs_changes ;
  for_each changes (apply_entry dry_run).

End Real.

Definition normalize_real_files (o : Fs.walk_order) (root : Fs.path)
    (dry_run : bool)
  : M world (list (Fs.path * Fs.path) * list (Fs.path * Fs.path)) :=
  λ w,
    let s0 := RealState (w_fs w) (w_out w) [] [] in
    match Real.passes (Fs.rglob o (w_fs w) root) dry_run s0 with
    | (Ok _, s) => (Ok (rs_changes s, rs_conflicts s), World (rs_fs s) (rs_out s))
    | (Raise e, s) => (Raise e, World (rs_fs s) (rs_out s))
    end.

(** ** Step 2: [fix_symlinks] *)

Record link_state : Type := LinkState {
  ls_fs : Fs.fs;
  ls_out : list line;
  ls_fixed : list Fs.path;
  ls_retargeted : list (Fs.path * ustring);
  ls_broken : list (Fs.path * option ustring * Fs.path)
}.

Module Link.

Definition print (l : line) : M link_state unit :=
  modify (λ s, LinkState (ls_fs s) (ls_out s ++ [l]) (ls_fixed s) (ls_retargeted s) (ls_broken s)).

Definition fixed_append (p : Fs.path) : M link_state unit :=
  modify (λ s, LinkState (ls_fs s) (ls_out s) (ls_fixed s ++ [p]) (ls_retargeted s) (ls_broken s)).

Definition retargeted_append (r : Fs.path * ustring) : M link_state unit :=
  modify (λ s, LinkState (ls_fs s) (ls_out s) (ls_fixed s) (ls_retargeted s ++ [r]) (ls_broken s)).

Definition broken_append (b : Fs.path * option ustring * Fs.path) : M link_state unit :=
  modify (λ s, LinkState (ls_fs s) (ls_out s) (ls_fixed s) (ls_retargeted s) (ls_broken s ++ [b])).

(** A system call that changes the file system or raises. *)
Definition syscall (f : Fs.fs → result Fs.fs) : M link_state unit :=
  λ s, match f (ls_fs s) with
       | Ok t' => (Ok tt, LinkState t' (ls_out s) (ls_fixed s) (ls_retargeted s) (ls_broken s))
       | Raise e => (Raise e, s)
       end.

Definition unlink (p : Fs.path) : M link_state unit := syscall (λ t, Fs.unlink t p).
Definition symlink (target : ustring) (p : Fs.path) : M link_state unit :=
  syscall (λ t, Fs.symlink t target p).

Definition readlink (p : Fs.path) : M link_state ustring :=
  λ s, (Fs.readlink (ls_fs s) p, s).

(** Lines 96-98, the [ln -snf rel p] of the source. *)
Definition relink (rel : ustring) (p : Fs.path) : M link_state unit :=
  do there <- gets (λ s, Fs.exists_ (ls_fs s) p || Fs.is_symlink (ls_fs s) p) ;
  do _ <- (if there : bool then unlink p else ret tt) ;
  symlink rel p.

(** The body of the [try] of the loop, lines 70-106. *)
Definition body (dry_run : bool) (p : Fs.path) : M link_state unit :=
  do is_link <- gets (λ s, Fs.is_symlink (ls_fs s) p) ;
  if negb is_link then ret tt else
  match extract_num6 (Fs.name p) with
  | None => print (WarnLink p)
  | Some num6 =>
      do target_canonical <- lift (Fs.with_name p (num6 +:+ Str.lower (Fs.suffix p))) ;
      do current_target <-
        try_except (do tgt <- readlink p ; ret (Some tgt)) is_OSError (λ _, ret None) ;
      do plain <- gets (λ s, Fs.exists_ (ls_fs s) target_canonical
                             && Fs.is_file (ls_fs s) target_canonical
                             && negb (Fs.is_symlink (ls_fs s) target_canonical)) ;
      if plain : bool then
        let rel := Fs.relpath target_canonical (Fs.parent p) in
        if decide (current_target ≠ Some rel) then
          do _ <- print (RetargetLink p rel) ;
          do _ <- (if negb dry_run then relink rel p else ret tt) ;
          retargeted_append (p, rel)
        else fixed_append p
      else
        do _ <- print (BrokenLink p current_target target_canonical) ;
        broken_append (p, current_target, target_canonical)
  end.

(** One turn of the loop, lines 69-108. *)
Definition entry (dry_run : bool) (p : Fs.path) : M link_state unit :=
  try_except (body dry_run p) is_Exception (λ e, print (ErrorLink p e)).

Definition pass (entries : list Fs.path) (dry_run : bool) : M link_state unit :=
  for_each entries (entry dry_run).

End Link.

(** The walk is a generator that lists a directory when it comes to it.  The
    pass replaces links by links and so changes no listing; the entries are
    those of the tree as the pass finds it. *)
Definition fix_symlinks (o : Fs.walk_order) (root : Fs.path) (dry_run : bool)
  : M world (list Fs.path * list (Fs.path * ustring)
             * list (Fs.path * option ustring * Fs.path)) :=
  λ w,
    let s0 := LinkState (w_fs w) (w_out w) [] [] [] in
    match Link.pass (Fs.rglob o (w_fs w) root) dry_run s0 with
    | (Ok _, s) =>
        (Ok (ls_fixed s, ls_retargeted s, ls_broken s), World (ls_fs s) (ls_out s))
    | (Raise e, s) => (Raise e, World (ls_fs s) (ls_out s))
    end.

(** ** [main] *)

Definition print (l : line) : M world unit :=
  modify (λ w, World (w_fs w) (w_out w ++ [l])).

(** [enumerate(l, i)] *)
Fixpoint enumerate {A} (i : nat) (l : list A) : list (nat * A) :=
  match l with
  | [] => []
  | x :: r => (i, x) :: enumerate (S i) r
  end.

(** Lines 130-139. *)
Definition summary (real_changes real_conflicts : list (Fs.path * Fs.path))
    (fixed : list Fs.path) (retargeted : list (Fs.path * ustring))
    (broken : list (Fs.path * option ustring * Fs.path)) : M world unit :=
  do _ <- print SummaryHeader ;
  do _ <- print (Count "Real file renames" (length real_changes)) ;
  do _ <- print (Count "Real file conflicts (skipped)" (length real_conflicts)) ;
  do _ <- print (Count "Symlinks already correct" (length fixed)) ;
  do _ <- print (Count "Symlinks retargeted" (length retargeted)) ;
  do _ <- print (Count "Broken symlinks (missing targets)" (length broken)) ;
  match broken with
  | [] => ret tt
  | _ =>
      do _ <- print BrokenHeader ;
      for_each (enumerate 1 (take 20 broken))
        (λ '(i, (link, cur, want)), print (BrokenExample i link cur want))
  end.

(** What the two steps return: [(real_changes, real_conflicts)] and
    [(fixed, retargeted, broken)]. *)
Definition records : Type :=
  (list (Fs.path * Fs.path) * list (Fs.path * Fs.path))
  * (list Fs.path * list (Fs.path * ustring)
     * list (Fs.path * option ustring * Fs.path)).

(** Lines 124-128: the two steps, one after the other on the same tree. *)
Definition steps (o : Fs.walk_order) (root : Fs.path) (dry : bool)
  : M world records :=
  do _ <- print (Step1 root dry) ;
  do r1 <- normalize_real_files o root dry ;
  do _ <- print (Step2 dry) ;
  do r2 <- fix_symlinks o root dry ;
  ret (r1, r2).

(** [main], for a command line already parsed: [root] is the resolved root and
    [apply] the flag [--apply]; [o] is the order of the walks. *)
Definition main (o : Fs.walk_order) (root : Fs.path) (apply : bool)
  : M world unit :=
  do found <- gets (λ w, Fs.exists_ (w_fs w) root) ;
  if negb found then
    do _ <- print (RootNotFound root) ;
    raise (SystemExit 1)
  else
    let dry := negb apply in
    do r <- steps o root dry ;
    summary r.1.1 r.1.2 r.2.1.1 r.2.1.2 r.2.2.


(** ** The canonical name in the words of the specification *)

Module Spec.

(** A run is closed by the first character that is not a digit; an empty one
    is no run. *)
Definition close (cur : ustring) : list ustring :=
  match cur with
  | UEmpty => []
  | _ => [cur]
  end.

(** The maximal runs of decimal digits of [s], in order of appearance, read
    off from left to right; [cur] is the run being read. *)
Fixpoint runs_from (cur : ustring) (s : ustring) : list ustring :=
  match s with
  | UEmpty => close cur
  | UString c r =>
      if Str.is_digit c then runs_from (cur +:+ UString c UEmpty) r
      else close cur ++ runs_from UEmpty r
  end.

Definition digit_runs (s : ustring) : list ustring := runs_from UEmpty s.

Definition starts_with_digit (s : ustring) : bool :=
  match s with
  | UEmpty => false
  | UString c _ => Str.is_digit c
  end.

(** [maximal_runs s l]: [l] lists the maximal runs of decimal digits of [s] in
    order of appearance.  Either [s] has no digit and there is no run; or [s]
    is a text without digits, then a run, non-empty and of digits only, that
    ends where [s] ends or before a character that is not a digit, and the
    rest holds the other runs. *)
Inductive maximal_runs : ustring → list ustring → Prop :=
| runs_none (junk : ustring) :
    Str.has_digit junk = false → maximal_runs junk []
| runs_more (junk run rest : ustring) (l : list ustring) :
    Str.has_digit junk = false →
    run ≠ UEmpty → Str.all_digits run = true →
    starts_with_digit rest = false →
    maximal_runs rest l →
    maximal_runs (junk +:+ run +:+ rest) (run :: l).

(** The unsigned integer a text of digits denotes. *)
Fixpoint value (s : ustring) : Z :=
  match s with
  | UEmpty => 0
  | UString c r => Str.digit_val c * 10 ^ Z.of_nat (Str.length r) + value r
  end.

(** [d] is the decimal representation of [n]: digits ['0'] to ['9'] only, denoting [n], and
    no leading zero but for ["0"] itself. *)
Definition is_decimal (n : Z) (d : ustring) : bool :=
  Str.all_ascii_digits d && (value d =? n)
  && match d with
     | UEmpty => false
     | UString c r => Str.eqb d "0" || negb (c =? 48)%N
     end.

(** [r] is [n] formatted with leading zeros to width 6: the representation
    of [n] behind as many zeros as it is short of 6 characters. *)
Definition is_padded6 (n : Z) (r : ustring) : Prop :=
  ∃ d, is_decimal n d = true ∧ r = Str.zeros (6 - Str.length d) +:+ d.

End Spec.

(** ** One turn of each loop as a verdict and its record

    The turn of a loop first decides what the entry is, from the file system
    alone, and then records the decision.  These two functions are the turn
    written that way; [scan_entry_eq] and [entry_eq] below
    show that they are the turn of the program. *)

Module RealEntry.

Inductive verdict : Type :=
| Skip
| Warn
| Error (e : exn)
| Conflict (newp : Fs.path)
| Change (newp : Fs.path).

Definition classify (t : Fs.fs) (p : Fs.path) : verdict :=
  if Fs.is_symlink t p then Skip
  else if negb (Fs.is_file t p) then Skip
  else match extract_num6 (Fs.name p) with
       | None => Warn
       | Some num6 =>
           match Fs.with_name p (num6 +:+ Str.lower (Fs.suffix p)) with
           | Raise e => Error e
           | Ok newp =>
               if Str.eqb (Fs.name p) (Fs.name newp) then Skip
               else if Fs.exists_ t newp then Conflict newp
               else Change newp
           end
       end.

Definition record (p : Fs.path) (v : verdict) (s : real_state) : real_state :=
  match v with
  | Skip => s
  | Warn =>
      RealState (rs_fs s) (rs_out s ++ [WarnReal p]) (rs_changes s) (rs_conflicts s)
  | Error e =>
      RealState (rs_fs s) (rs_out s ++ [ErrorReal p e]) (rs_changes s) (rs_conflicts s)
  | Conflict newp =>
      RealState (rs_fs s) (rs_out s ++ [ConflictReal p newp]) (rs_changes s)
                (rs_conflicts s ++ [(p, newp)])
  | Change newp =>
      RealState (rs_fs s) (rs_out s) (rs_changes s ++ [(p, newp)]) (rs_conflicts s)
  end.

(** The scan loop: the turns one after the other. *)
Definition scan_fold (entries : list Fs.path) (s : real_state) : real_state :=
  foldl (λ s p, record p (classify (rs_fs s) p) s) s entries.

(** What a turn appends to [changes], and to [conflicts]. *)
Definition change_of (t : Fs.fs) (p : Fs.path) : option (Fs.path * Fs.path) :=
  match classify t p with
  | Change newp => Some (p, newp)
  | _ => None
  end.

Definition conflict_of (t : Fs.fs) (p : Fs.path) : option (Fs.path * Fs.path) :=
  match classify t p with
  | Conflict newp => Some (p, newp)
  | _ => None
  end.

(** An entry that bears its canonical name: the name step 1 would give it is
    the name it has. *)
Definition canonical_entry (p : Fs.path) : Prop :=
  ∀ num6 newp,
    extract_num6 (Fs.name p) = Some num6 →
    Fs.with_name p (num6 +:+ Str.lower (Fs.suffix p)) = Ok newp →
    Fs.name p = Fs.name newp.

(** A queue the rename loop can meet: no entry is renamed to itself, and a
    source is a regular file unless an earlier rename took it away. *)
Definition sources_ok (t : Fs.fs) (l : list (Fs.path * Fs.path)) : Prop :=
  ∀ c, c ∈ l → c.1 ≠ c.2 ∧ (t !! c.1 = None ∨ ∃ data, t !! c.1 = Some (Fs.File data)).

(** The renames of the queue, in order, stopping at the first that raises. *)
Fixpoint renames (t : Fs.fs) (changes : list (Fs.path * Fs.path)) : result Fs.fs :=
  match changes with
  | [] => Ok t
  | c :: r =>
      match Fs.rename t c.1 c.2 with
      | Ok t' => renames t' r
      | Raise e => Raise e
      end
  end.

End RealEntry.

Module LinkEntry.

Inductive verdict : Type :=
| Skip
| Warn
| Error (e : exn)
| Fixed
| Retarget (rel : ustring)
| Broken (current_target : option ustring) (target_canonical : Fs.path).

(** The three tests of line 88. *)
Definition plain (t : Fs.fs) (q : Fs.path) : bool :=
  Fs.exists_ t q && Fs.is_file t q && negb (Fs.is_symlink t q).

Definition classify (t : Fs.fs) (p : Fs.path) : verdict :=
  if negb (Fs.is_symlink t p) then Skip
  else match extract_num6 (Fs.name p) with
       | None => Warn
       | Some num6 =>
           match Fs.with_name p (num6 +:+ Str.lower (Fs.suffix p)) with
           | Raise e => Error e
           | Ok target_canonical =>
               let current_target :=
                 match Fs.readlink t p with
                 | Ok tgt => Some tgt
                 | Raise _ => None
                 end in
               if plain t target_canonical then
                 let rel := Fs.relpath target_canonical (Fs.parent p) in
                 if decide (current_target ≠ Some rel) then Retarget rel else Fixed
               else Broken current_target target_canonical
           end
       end.

(** Remove then recreate, or the error of the call that failed. *)
Definition replace_link (t : Fs.fs) (rel : ustring) (p : Fs.path) : result Fs.fs :=
  match Fs.unlink t p with
  | Ok t1 => Fs.symlink t1 rel p
  | Raise e => Raise e
  end.

Definition record (dry_run : bool) (p : Fs.path) (v : verdict) (s : link_state)
  : link_state :=
  match v with
  | Skip => s
  | Warn =>
      LinkState (ls_fs s) (ls_out s ++ [WarnLink p]) (ls_fixed s) (ls_retargeted s)
                (ls_broken s)
  | Error e =>
      LinkState (ls_fs s) (ls_out s ++ [ErrorLink p e]) (ls_fixed s) (ls_retargeted s)
                (ls_broken s)
  | Fixed =>
      LinkState (ls_fs s) (ls_out s) (ls_fixed s ++ [p]) (ls_retargeted s) (ls_broken s)
  | Retarget rel =>
      if dry_run then
        LinkState (ls_fs s) (ls_out s ++ [RetargetLink p rel]) (ls_fixed s)
                  (ls_retargeted s ++ [(p, rel)]) (ls_broken s)
      else
        match replace_link (ls_fs s) rel p with
        | Ok t' =>
            LinkState t' (ls_out s ++ [RetargetLink p rel]) (ls_fixed s)
                      (ls_retargeted s ++ [(p, rel)]) (ls_broken s)
        | Raise e =>
            LinkState (ls_fs s) (ls_out s ++ [RetargetLink p rel; ErrorLink p e])
                      (ls_fixed s) (ls_retargeted s) (ls_broken s)
        end
  | Broken cur target_canonical =>
      LinkState (ls_fs s) (ls_out s ++ [BrokenLink p cur target_canonical])
                (ls_fixed s) (ls_retargeted s)
                (ls_broken s ++ [(p, cur, target_canonical)])
  end.


(** The loop: the turns one after the other. *)
Definition fold (dry_run : bool) (entries : list Fs.path) (s : link_state) : link_state :=
  foldl (λ s p, record dry_run p (classify (ls_fs s) p) s) s entries.

End LinkEntry.

(** ** Vocabulary of the statements *)


(** The shape of a canonical stem: digits ['0'] to ['9'] only, at least six of them, and
    more than six only for a number above 999999. *)
Definition canonical_stem (r : ustring) : Prop :=
  Str.all_ascii_digits r = true ∧ (6 ≤ Str.length r)%nat ∧
  ((6 < Str.length r)%nat → 999999 < Spec.value r).

(** [q] is the canonical path of [p]: in the directory of [p], the canonical
    stem of the name of [p] followed by its suffix in lower case. *)
Definition canonical_for (p q : Fs.path) : Prop :=
  ∃ num6, extract_num6 (Fs.name p) = Some num6 ∧ canonical_stem num6 ∧
          q = Fs.parent p ++ [num6 +:+ Str.lower (Fs.suffix p)].

(** The lines of the summary for the records [r]: the five counts, then the
    examples, one per broken link among the first 20, numbered from 1. *)
Definition count_lines (r : records) : list line :=
  [ Count "Real file renames" (length r.1.1);
    Count "Real file conflicts (skipped)" (length r.1.2);
    Count "Symlinks already correct" (length r.2.1.1);
    Count "Symlinks retargeted" (length r.2.1.2);
    Count "Broken symlinks (missing targets)" (length r.2.2) ].

Definition example_lines (r : records) : list line :=
  imap (λ i b, BrokenExample (S i) b.1.1 b.1.2 b.2) (take 20 r.2.2).

Definition summary_lines (r : records) : list line :=
  SummaryHeader :: count_lines r
  ++ match r.2.2 with
     | [] => []
     | _ => BrokenHeader :: example_lines r
     end.

(** The digits of a text, in order of appearance. *)
Fixpoint only_digits (s : ustring) : ustring :=
  match s with
  | UEmpty => UEmpty
  | UString c r => if Str.is_digit c then UString c (only_digits r) else only_digits r
  end.

(** The link [p], which named something else in [t0], names [rel] in [t]:
    the canonical name of [p], borne by a regular file beside it. *)
Definition retargeted_to (t0 t : Fs.fs) (p : Fs.path) (rel : ustring) : Prop :=
  t !! p = Some (Fs.Symlink rel) ∧
  (∃ tgt, t0 !! p = Some (Fs.Symlink tgt) ∧ tgt ≠ rel) ∧
  ∃ num6 q data,
    extract_num6 (Fs.name p) = Some num6 ∧
    Fs.with_name p (num6 +:+ Str.lower (Fs.suffix p)) = Ok q ∧
    rel = Fs.relpath q (Fs.parent p) ∧ t !! q = Some (Fs.File data).

(** What step 2 records for an entry of a tree it has nothing to change in. *)
Definition fixed_of (t : Fs.fs) (p : Fs.path) : option Fs.path :=
  match LinkEntry.classify t p with
  | LinkEntry.Fixed => Some p
  | _ => None
  end.

Definition broken_of (t : Fs.fs) (p : Fs.path)
  : option (Fs.path * option ustring * Fs.path) :=
  match LinkEntry.classify t p with
  | LinkEntry.Broken cur target_canonical => Some (p, cur, target_canonical)
  | _ => None
  end.

(** The links step 2 has put in one of its three lists. *)
Definition recorded_links (s : link_state) : list Fs.path :=
  ls_fixed s ++ (fst <$> ls_retargeted s) ++ ((λ b, b.1.1) <$> ls_broken s).

(** ** Example trees *)

Module Examples.


(** A directory with a regular file and a link whose target is missing, at
    the canonical path of the file. *)
Definition dangling : Fs.fs :=
  list_to_map [ ([], Fs.Dir true); (["d"], Fs.Dir true);
                (["d"; "a1.jpg"], Fs.File "A");
                (["d"; "000001.jpg"], Fs.Symlink "missing") ].

(** Two regular files with the same digits. *)
Definition twins : Fs.fs :=
  list_to_map [ ([], Fs.Dir true); (["d"], Fs.Dir true);
                (["d"; "a1.jpg"], Fs.File "A");
                (["d"; "b1.jpg"], Fs.File "B") ].

(** A directory in which nothing can be renamed. *)
Definition readonly : Fs.fs :=
  list_to_map [ ([], Fs.Dir true); (["d"], Fs.Dir false);
                (["d"; "a1.jpg"], Fs.File "A");
                (["d"; "v2.jpg"], Fs.Symlink "a1.jpg") ].

(** A file to rename and a link that wants the renamed file. *)
Definition linked : Fs.fs :=
  list_to_map [ ([], Fs.Dir true); (["d"], Fs.Dir true);
                (["d"; "a1.jpg"], Fs.File "A");
                (["d"; "v1.jpg"], Fs.Symlink "a1.jpg");
                (["d"; "photo.jpg"], Fs.File "P") ].

(** A link named after a file that a rename of step 1 replaces. *)
Definition shadowed : Fs.fs :=
  list_to_map [ ([], Fs.Dir true); (["set"], Fs.Dir true);
                (["set"; "x7.jpg"], Fs.File "X");
                (["set"; "000007.jpg"], Fs.Symlink "gone/000007.jpg") ].

(** Twenty-one links without a file to point at. *)
Definition many_broken : Fs.fs :=
  list_to_map (([], Fs.Dir true) :: (["d"], Fs.Dir true)
               :: map (λ i : nat, (["d"; "n" +:+ Py.str (Z.of_nat i) +:+ ".jpg"],
                                   Fs.Symlink "nowhere"))
                      (seq 0 21)).

End Examples.

(** * Properties *)
(** * Texts *)

Section strings.
Implicit Types (s r m : ustring) (c : N).

Lemma str_app_cons c s r : UString c s +:+ r = UString c (s +:+ r).
Proof. reflexivity. Qed.

Lemma str_app_nil_l s : UEmpty +:+ s = s.
Proof. reflexivity. Qed.

Lemma str_app_nil_r s : s +:+ UEmpty = s.
Proof. induction s as [|c s IH]; [done|]. by rewrite str_app_cons, IH. Qed.

Lemma str_app_assoc s r m : (s +:+ r) +:+ m = s +:+ (r +:+ m).
Proof. induction s as [|c s IH]; [done|]. by rewrite !str_app_cons, IH. Qed.

Lemma str_length_app s r :
  Str.length (s +:+ r) = (Str.length s + Str.length r)%nat.
Proof. induction s as [|c s IH]; [done|]. rewrite str_app_cons. simpl. by rewrite IH. Qed.

Lemma str_eqb_spec s r : reflect (s = r) (Str.eqb s r).
Proof.
  revert r. induction s as [|c s IH]; intros [|d r]; simpl; try (by constructor).
  destruct (N.eqb_spec c d) as [->|Hne]; simpl;
    [|constructor; by intros [= ? _]].
  destruct (IH r) as [->|Hne]; constructor; [done|]. by intros [= ?].
Qed.

Lemma str_eqb_eq s r : Str.eqb s r = true ↔ s = r.
Proof. by destruct (str_eqb_spec s r). Qed.

Lemma str_eqb_refl s : Str.eqb s s = true.
Proof. by apply str_eqb_eq. Qed.

Lemma str_eqb_neq s r : Str.eqb s r = false ↔ s ≠ r.
Proof. by destruct (str_eqb_spec s r). Qed.

Lemma length_zeros k : Str.length (Str.zeros k) = k.
Proof. induction k as [|k IH]; simpl; congruence. Qed.

Lemma all_digits_app s r :
  Str.all_digits (s +:+ r) = Str.all_digits s && Str.all_digits r.
Proof.
  induction s as [|c s IH]; [done|].
  rewrite str_app_cons. simpl. rewrite IH. by destruct (Str.is_digit c).
Qed.

Lemma all_ascii_digits_app s r :
  Str.all_ascii_digits (s +:+ r) = Str.all_ascii_digits s && Str.all_ascii_digits r.
Proof.
  induction s as [|c s IH]; [done|].
  rewrite str_app_cons. simpl. rewrite IH. by destruct (Str.is_ascii_digit c).
Qed.

Lemma has_digit_app s r :
  Str.has_digit (s +:+ r) = Str.has_digit s || Str.has_digit r.
Proof.
  induction s as [|c s IH]; [done|].
  rewrite str_app_cons. simpl. rewrite IH. by destruct (Str.is_digit c).
Qed.

(** A digit lies in its block, whatever the blocks are. *)
Lemma digit_block_spec c z : Str.digit_block c = Some z → (z ≤ c < z + 10)%N.
Proof.
  unfold Str.digit_block. intros [_ H]%find_some.
  apply andb_prop in H as [H1%N.leb_le H2%N.ltb_lt]. lia.
Qed.

Lemma digit_val_range c : Str.is_digit c = true → 0 ≤ Str.digit_val c ≤ 9.
Proof.
  unfold Str.is_digit, Str.digit_val.
  destruct (Str.digit_block c) as [z|] eqn:Hz; [|done].
  apply digit_block_spec in Hz. lia.
Qed.

(** The digits of ASCII are digits, with the value of their place in the
    block. *)
Lemma ascii_digit c :
  Str.is_ascii_digit c = true →
  Str.is_digit c = true ∧ Str.digit_val c = Z.of_N c - 48.
Proof.
  unfold Str.is_ascii_digit. intros [H1%N.leb_le H2%N.leb_le]%andb_prop.
  assert (Str.digit_block c = Some 48%N) as Hz.
  { unfold Str.digit_block, Str.digit_zeros. cbn [List.find].
    replace (48 <=? c)%N with true by (symmetry; apply N.leb_le; lia).
    by replace (c <? 48 + 10)%N with true by (symmetry; apply N.ltb_lt; lia). }
  unfold Str.is_digit, Str.digit_val. rewrite Hz. split; [done|lia].
Qed.

Lemma all_ascii_all_digits s :
  Str.all_ascii_digits s = true → Str.all_digits s = true.
Proof.
  induction s as [|c s IH]; [done|]. simpl.
  intros [Hc Hs]%andb_prop. by rewrite (proj1 (ascii_digit c Hc)), IH.
Qed.

Lemma all_ascii_digits_zeros k : Str.all_ascii_digits (Str.zeros k) = true.
Proof. induction k as [|k IH]; simpl; [done|]. by rewrite IH. Qed.

Lemma all_digits_zeros k : Str.all_digits (Str.zeros k) = true.
Proof. apply all_ascii_all_digits, all_ascii_digits_zeros. Qed.

Lemma digit_char_digit d :
  0 ≤ d ≤ 9 →
  Str.is_ascii_digit (Str.digit_char d) = true ∧ Str.digit_val (Str.digit_char d) = d.
Proof.
  intros Hd.
  assert (Str.is_ascii_digit (Str.digit_char d) = true) as H.
  { unfold Str.is_ascii_digit, Str.digit_char.
    apply andb_true_iff. split; apply N.leb_le; lia. }
  split; [done|]. rewrite (proj2 (ascii_digit _ H)). unfold Str.digit_char. lia.
Qed.

Lemma digit_val_zero_char c :
  Str.is_ascii_digit c = true → Str.digit_val c = 0 → c = 48%N.
Proof. intros H. rewrite (proj2 (ascii_digit c H)). lia. Qed.

Lemma has_digit_ascii s :
  Str.all_ascii_digits s = true → s ≠ UEmpty → Str.has_digit s = true.
Proof.
  destruct s as [|c s]; [done|]. simpl. intros [Hc _]%andb_prop _.
  by rewrite (proj1 (ascii_digit c Hc)).
Qed.

End strings.

(** * The value of a text of digits *)

Section value.
Implicit Types (s r d : ustring) (c : N) (n : Z).

Lemma value_app s r :
  Spec.value (s +:+ r) = Spec.value s * 10 ^ Z.of_nat (Str.length r) + Spec.value r.
Proof.
  induction s as [|c s IH]; [rewrite str_app_nil_l; simpl; lia|].
  rewrite str_app_cons. simpl.
  rewrite IH, str_length_app, Nat2Z.inj_add, Z.pow_add_r by lia. lia.
Qed.

Lemma value_bounds s :
  Str.all_digits s = true → 0 ≤ Spec.value s < 10 ^ Z.of_nat (Str.length s).
Proof.
  induction s as [|c s IH]; simpl; [lia|].
  intros [Hc Hs]%andb_true_iff. specialize (IH Hs).
  pose proof (digit_val_range c Hc).
  rewrite Nat2Z.inj_succ, Z.pow_succ_r by lia. nia.
Qed.

Lemma value_zeros k : Spec.value (Str.zeros k) = 0.
Proof.
  induction k as [|k IH]; simpl; [done|]. rewrite IH.
  change (Str.digit_val 48) with 0. lia.
Qed.

Lemma value_leading c s :
  Str.all_ascii_digits (UString c s) = true → c ≠ 48%N →
  10 ^ Z.of_nat (Str.length s) ≤ Spec.value (UString c s).
Proof.
  simpl. intros [Hc Hs]%andb_true_iff Hne.
  pose proof (digit_val_range c (proj1 (ascii_digit c Hc))).
  pose proof (value_bounds s (all_ascii_all_digits s Hs)).
  assert (Str.digit_val c ≠ 0) by (intros E; by apply Hne, digit_val_zero_char).
  nia.
Qed.

Lemma is_decimal_inv n d :
  Spec.is_decimal n d = true →
  Str.all_ascii_digits d = true ∧ Spec.value d = n ∧ d ≠ UEmpty ∧
  0 ≤ n < 10 ^ Z.of_nat (Str.length d) ∧
  (n = 0 ∨ 10 ^ (Z.of_nat (Str.length d) - 1) ≤ n).
Proof.
  unfold Spec.is_decimal.
  intros [[Hd Hv%Z.eqb_eq]%andb_true_iff Hl]%andb_true_iff.
  pose proof (value_bounds d (all_ascii_all_digits d Hd)) as Hb. subst n.
  destruct d as [|c r]; [done|].
  repeat split; try done; try lia.
  apply orb_true_iff in Hl as [->%str_eqb_eq|Hc%negb_true_iff%N.eqb_neq].
  - by left.
  - right. pose proof (value_leading c r Hd Hc).
    simpl Str.length.
    replace (Z.of_nat (S (Str.length r)) - 1) with (Z.of_nat (Str.length r)) by lia.
    done.
Qed.

(** The decimal representation of a number is unique. *)
Lemma value_inj s r :
  Str.all_ascii_digits s = true → Str.all_ascii_digits r = true →
  Str.length s = Str.length r → Spec.value s = Spec.value r → s = r.
Proof.
  revert r. induction s as [|c s IH]; intros [|c' r]; simpl; try done.
  intros [Hc Hs]%andb_true_iff [Hc' Hr]%andb_true_iff [= Hlen] Hv.
  pose proof (value_bounds s (all_ascii_all_digits s Hs)).
  pose proof (value_bounds r (all_ascii_all_digits r Hr)).
  pose proof (digit_val_range c (proj1 (ascii_digit c Hc))).
  pose proof (digit_val_range c' (proj1 (ascii_digit c' Hc'))).
  rewrite Hlen in *.
  set (P := 10 ^ Z.of_nat (Str.length r)) in *.
  assert (Str.digit_val c = Str.digit_val c') as Hd
    by (destruct (Z.lt_trichotomy (Str.digit_val c) (Str.digit_val c')) as [|[|]]; nia).
  assert (Spec.value s = Spec.value r) as Hv' by (rewrite Hd in Hv; lia).
  f_equal; [|by apply IH].
  rewrite (proj2 (ascii_digit c Hc)), (proj2 (ascii_digit c' Hc')) in Hd. lia.
Qed.

Lemma is_decimal_unique n d d' :
  Spec.is_decimal n d = true → Spec.is_decimal n d' = true → d = d'.
Proof.
  intros H H'.
  destruct (is_decimal_inv _ _ H) as (Hd & Hv & Hne & Hb & Hlo).
  destruct (is_decimal_inv _ _ H') as (Hd' & Hv' & Hne' & Hb' & Hlo').
  apply value_inj; try done; [|congruence].
  assert (Str.length d ≠ 0%nat) by (by destruct d).
  assert (Str.length d' ≠ 0%nat) by (by destruct d').
  destruct (decide (n = 0)) as [->|Hn].
  - (* both are "0" *)
    unfold Spec.is_decimal in H, H'.
    apply andb_true_iff in H as [_ H]. apply andb_true_iff in H' as [_ H'].
    destruct d as [|c r]; [done|]. destruct d' as [|c' r']; [done|].
    apply orb_true_iff in H as [->%str_eqb_eq|Hc%negb_true_iff%N.eqb_neq];
    apply orb_true_iff in H' as [->%str_eqb_eq|Hc'%negb_true_iff%N.eqb_neq]; try done.
    + pose proof (value_leading c' r' Hd' Hc'). rewrite Hv' in *.
      assert (0 < 10 ^ Z.of_nat (Str.length r')) by (apply Z.pow_pos_nonneg; lia). lia.
    + pose proof (value_leading c r Hd Hc). rewrite Hv in *.
      assert (0 < 10 ^ Z.of_nat (Str.length r)) by (apply Z.pow_pos_nonneg; lia). lia.
    + pose proof (value_leading c r Hd Hc). rewrite Hv in *.
      assert (0 < 10 ^ Z.of_nat (Str.length r)) by (apply Z.pow_pos_nonneg; lia). lia.
  - destruct Hlo as [|Hlo]; [done|]. destruct Hlo' as [|Hlo']; [done|].
    destruct (decide (Str.length d < Str.length d')%nat).
    { assert (10 ^ Z.of_nat (Str.length d) ≤ 10 ^ (Z.of_nat (Str.length d') - 1))
        by (apply Z.pow_le_mono_r; lia). lia. }
    destruct (decide (Str.length d' < Str.length d)%nat).
    { assert (10 ^ Z.of_nat (Str.length d') ≤ 10 ^ (Z.of_nat (Str.length d) - 1))
        by (apply Z.pow_le_mono_r; lia). lia. }
    lia.
Qed.

End value.

(** * The digit runs *)

Section runs.
Implicit Types (s r m cur : ustring) (c : N).

Lemma span_digits_app s :
  let '(m, rest) := Re.span_digits s in s = m +:+ rest.
Proof.
  induction s as [|c s IH]; simpl; [done|].
  destruct (Str.is_digit c); [|done].
  destruct (Re.span_digits s) as [m rest]. by rewrite str_app_cons, <- IH.
Qed.

Lemma span_digits_digits s : Str.all_digits (Re.span_digits s).1 = true.
Proof.
  induction s as [|c s IH]; simpl; [done|].
  destruct (Str.is_digit c) eqn:Hc; [|done].
  destruct (Re.span_digits s) as [m rest]. simpl in *. by rewrite Hc, IH.
Qed.

Lemma span_digits_length s :
  (Str.length (Re.span_digits s).2 ≤ Str.length s)%nat.
Proof.
  induction s as [|c s IH]; simpl; [done|].
  destruct (Str.is_digit c); [|done].
  destruct (Re.span_digits s) as [m rest]. simpl in *. lia.
Qed.

(** The match stops at the end of the text or before a character that is not
    a digit. *)
Lemma span_digits_stop s :
  match (Re.span_digits s).2 with
  | UEmpty => True
  | UString c _ => Str.is_digit c = false
  end.
Proof.
  induction s as [|c s IH]; simpl; [done|].
  destruct (Str.is_digit c) eqn:Hc; [|done].
  by destruct (Re.span_digits s) as [m rest].
Qed.

Lemma runs_from_span cur s :
  Spec.runs_from cur s =
  Spec.runs_from (cur +:+ (Re.span_digits s).1) (Re.span_digits s).2.
Proof.
  revert cur. induction s as [|c s IH]; intros cur; simpl.
  - by rewrite str_app_nil_r.
  - destruct (Str.is_digit c) eqn:Hc.
    + rewrite IH. destruct (Re.span_digits s) as [m rest]. simpl.
      by rewrite str_app_assoc.
    + simpl. by rewrite str_app_nil_r, Hc.
Qed.

Lemma scan_runs fuel s :
  (Str.length s ≤ fuel)%nat → Re.scan fuel s = Spec.digit_runs s.
Proof.
  unfold Spec.digit_runs.
  revert s. induction fuel as [|fuel IH]; intros s Hlen.
  - destruct s; [done|simpl in Hlen; lia].
  - destruct s as [|c r]; [done|]. simpl in Hlen.
    cbn [Re.scan]. destruct (Str.is_digit c) eqn:Hc.
    + rewrite (runs_from_span UEmpty (UString c r)), str_app_nil_l.
      pose proof (span_digits_stop (UString c r)) as Hstop.
      pose proof (span_digits_length (UString c r)) as Hl.
      pose proof (span_digits_app (UString c r)) as Happ.
      destruct (Re.span_digits (UString c r)) as [m rest] eqn:Hspan.
      simpl in Hstop, Hl |- *.
      assert (m ≠ UEmpty) as Hm.
      { simpl in Hspan. rewrite Hc in Hspan.
        destruct (Re.span_digits r). by injection Hspan as <- _. }
      assert (Str.length rest ≤ fuel)%nat as Hfuel.
      { assert (Str.length (UString c r) = Str.length m + Str.length rest)%nat
          as Hsum by (by rewrite Happ at 1; rewrite str_length_app).
        simpl in Hsum. destruct m; [done|]. simpl in Hsum. lia. }
      rewrite (IH rest Hfuel).
      destruct rest as [|c' r']; simpl.
      * by destruct m.
      * rewrite Hstop. by destruct m.
    + simpl. rewrite Hc. simpl. apply IH. lia.
Qed.

Lemma findall_runs name : Re.findall name = Spec.digit_runs name.
Proof. by apply scan_runs. Qed.

(** What the runs are made of. *)
Lemma join_close cur : Str.join (Spec.close cur) = cur.
Proof. destruct cur; [done|]. simpl. by rewrite str_app_nil_r. Qed.

Lemma join_app (l k : list ustring) : Str.join (l ++ k) = Str.join l +:+ Str.join k.
Proof. induction l as [|x l IH]; simpl; [done|]. by rewrite IH, str_app_assoc. Qed.

Lemma runs_from_digits cur s :
  Str.all_digits cur = true → Str.all_digits (Str.join (Spec.runs_from cur s)) = true.
Proof.
  revert cur. induction s as [|c s IH]; intros cur Hcur; simpl.
  - by rewrite join_close.
  - destruct (Str.is_digit c) eqn:Hc.
    + apply IH. rewrite all_digits_app, Hcur. simpl. by rewrite Hc.
    + rewrite join_app, join_close, all_digits_app, Hcur. by apply IH.
Qed.

Lemma runs_from_nil cur s :
  Spec.runs_from cur s = [] ↔ cur = UEmpty ∧ Str.has_digit s = false.
Proof.
  revert cur. induction s as [|c s IH]; intros cur; simpl.
  - destruct cur; split; try done. by intros [? _].
  - destruct (Str.is_digit c) eqn:Hc; simpl.
    + rewrite IH. split; [|by intros [_ ?]]. intros [H _]. by destruct cur.
    + rewrite app_nil, IH. destruct cur; simpl; split; try done.
      * by intros [_ ?].
      * by intros [? _].
      * by intros [? _].
Qed.

Lemma runs_from_nonempty cur s :
  Spec.runs_from cur s ≠ [] → Str.join (Spec.runs_from cur s) ≠ UEmpty.
Proof.
  revert cur. induction s as [|c s IH]; intros cur; simpl.
  - rewrite join_close. by destruct cur.
  - destruct (Str.is_digit c) eqn:Hc; [apply IH|].
    rewrite join_app, join_close. destruct cur; simpl; [apply IH|done].
Qed.

(** The runs read off from left to right are the maximal runs, and these are
    unique. *)
Lemma maximal_runs_junk c s l :
  Str.is_digit c = false → Spec.maximal_runs s l → Spec.maximal_runs (UString c s) l.
Proof.
  intros Hc H. destruct H as [junk Hj|junk run rest l Hj Hne Hd Hstop Hrest].
  - apply Spec.runs_none. simpl. by rewrite Hc.
  - rewrite <- str_app_cons. apply Spec.runs_more; try done.
    simpl. by rewrite Hc.
Qed.

Lemma runs_from_maximal s cur :
  Str.all_digits cur = true →
  match cur with
  | UEmpty => Spec.maximal_runs s (Spec.runs_from UEmpty s)
  | _ => Spec.maximal_runs (cur +:+ s) (Spec.runs_from cur s)
  end.
Proof.
  revert cur. induction s as [|c s IH]; intros cur Hcur.
  - destruct cur as [|d cur]; [by apply Spec.runs_none|].
    apply (Spec.runs_more UEmpty (UString d cur) UEmpty []); try done.
    by apply Spec.runs_none.
  - simpl. destruct (Str.is_digit c) eqn:Hc.
    + assert (Str.all_digits (cur +:+ UString c UEmpty) = true) as Hcur'
        by (rewrite all_digits_app, Hcur; simpl; by rewrite Hc).
      destruct cur as [|d cur]; [exact (IH (UString c UEmpty) Hcur')|].
      assert (Spec.maximal_runs ((UString d cur +:+ UString c UEmpty) +:+ s)
                (Spec.runs_from (UString d cur +:+ UString c UEmpty) s)) as IH'
        by exact (IH (UString d cur +:+ UString c UEmpty) Hcur').
      rewrite str_app_assoc in IH'. exact IH'.
    + pose proof (IH UEmpty eq_refl) as IH0. simpl in IH0.
      destruct cur as [|d cur]; [by apply maximal_runs_junk|].
      apply (Spec.runs_more UEmpty (UString d cur) (UString c s)); try done.
      by apply maximal_runs_junk.
Qed.

Lemma digit_runs_maximal s : Spec.maximal_runs s (Spec.digit_runs s).
Proof. apply (runs_from_maximal s UEmpty eq_refl). Qed.

Lemma runs_from_junk junk s :
  Str.has_digit junk = false →
  Spec.runs_from UEmpty (junk +:+ s) = Spec.runs_from UEmpty s.
Proof.
  induction junk as [|c junk IH]; [done|]. simpl.
  intros [Hc Hj]%orb_false_iff. rewrite Hc. by apply IH.
Qed.

Lemma runs_from_all_digits cur r s :
  Str.all_digits r = true →
  Spec.runs_from cur (r +:+ s) = Spec.runs_from (cur +:+ r) s.
Proof.
  revert cur. induction r as [|c r IH]; intros cur Hr.
  - by rewrite str_app_nil_l, str_app_nil_r.
  - simpl in Hr. apply andb_true_iff in Hr as [Hc Hr].
    rewrite str_app_cons. simpl. rewrite Hc, (IH _ Hr). by rewrite str_app_assoc.
Qed.

Lemma maximal_runs_unique s l : Spec.maximal_runs s l → l = Spec.digit_runs s.
Proof.
  unfold Spec.digit_runs.
  induction 1 as [junk Hj|junk run rest l Hj Hne Hd Hstop Hrest IH].
  - symmetry. by apply runs_from_nil.
  - rewrite runs_from_junk, runs_from_all_digits, str_app_nil_l, IH by done.
    destruct rest as [|c rest]; simpl in Hstop |- *.
    + by destruct run.
    + rewrite Hstop. by destruct run.
Qed.

End runs.

(** * [int], [str] and the format *)

Section builtins.
Implicit Types (s r d acc : ustring) (c : N) (n : Z).

Lemma int_digits_value s a :
  Str.all_digits s = true →
  Py.int_digits a s = Ok (a * 10 ^ Z.of_nat (Str.length s) + Spec.value s).
Proof.
  revert a. induction s as [|c s IH]; intros a; simpl.
  - intros _. f_equal. lia.
  - intros [Hc Hs]%andb_true_iff. rewrite Hc, (IH _ Hs). f_equal.
    rewrite Nat2Z.inj_succ, Z.pow_succ_r by lia. lia.
Qed.

(** On a non-empty text of digits within the limit [int] returns, and
    returns its value. *)
Lemma int_value s :
  s ≠ UEmpty → Str.all_digits s = true →
  Z.of_nat (Str.length s) ≤ Py.int_max_str_digits →
  Py.int s = Ok (Spec.value s).
Proof.
  intros Hne Hs Hlen. unfold Py.int. destruct s as [|c r]; [done|].
  replace (Py.int_max_str_digits <? _) with false by (symmetry; apply Z.ltb_ge; lia).
  rewrite (int_digits_value _ _ Hs). f_equal.
Qed.

(** Beyond the limit [int] raises [ValueError]. *)
Lemma int_refused s :
  Py.int_max_str_digits < Z.of_nat (Str.length s) → Py.int s = Raise ValueError.
Proof.
  intros Hlen. unfold Py.int. destruct s as [|c r]; [done|].
  by replace (Py.int_max_str_digits <? _) with true by (symmetry; apply Z.ltb_lt; lia).
Qed.

Lemma int_digits_Ok s a n : Py.int_digits a s = Ok n → Str.all_digits s = true.
Proof.
  revert a. induction s as [|c s IH]; intros a; simpl; [done|].
  destruct (Str.is_digit c); [|done]. apply IH.
Qed.

(** What [int] returns has no more digits than the limit, so that [str]
    writes it. *)
Lemma int_below_limit s n :
  Py.int s = Ok n → 0 ≤ n < 10 ^ Py.int_max_str_digits.
Proof.
  unfold Py.int. destruct s as [|c r]; [done|].
  destruct (Py.int_max_str_digits <? _) eqn:Hlen; [done|]. apply Z.ltb_ge in Hlen.
  intros H. pose proof (int_digits_Ok _ _ _ H) as Hd.
  rewrite (int_digits_value _ _ Hd) in H. injection H as <-.
  pose proof (value_bounds _ Hd) as Hb.
  assert (10 ^ Z.of_nat (Str.length (UString c r)) ≤ 10 ^ Py.int_max_str_digits)
    as Hpow by (apply Z.pow_le_mono_r; lia).
  rewrite Z.mul_0_l, Z.add_0_l.
  split; [apply Hb|]. eapply Z.lt_le_trans; [apply Hb|exact Hpow].
Qed.

Lemma decimal_digit n :
  0 ≤ n ≤ 9 → Spec.is_decimal n (UString (Str.digit_char n) UEmpty) = true.
Proof.
  intros Hn. destruct (digit_char_digit _ Hn) as [Hdig Hval].
  unfold Spec.is_decimal. cbn [Str.all_ascii_digits Spec.value Str.length].
  rewrite Hdig, Hval.
  apply andb_true_iff; split; [apply andb_true_iff; split; [done|]|].
  - apply Z.eqb_eq. simpl. lia.
  - simpl. by destruct (Str.digit_char n =? 48)%N.
Qed.

Lemma decimal_snoc q k d :
  Spec.is_decimal q d = true → 1 ≤ q → 0 ≤ k ≤ 9 →
  Spec.is_decimal (q * 10 + k) (d +:+ UString (Str.digit_char k) UEmpty) = true.
Proof.
  intros Hdec Hq Hk. destruct (digit_char_digit _ Hk) as [Hdig Hval].
  destruct (is_decimal_inv _ _ Hdec) as (Hall & Hv & Hne & _ & _).
  unfold Spec.is_decimal in Hdec |- *.
  rewrite all_ascii_digits_app, Hall, value_app, Hv.
  cbn [Str.all_ascii_digits Spec.value Str.length]. rewrite Hdig, Hval.
  apply andb_true_iff; split; [apply andb_true_iff; split; [done|]|].
  - apply Z.eqb_eq. simpl. lia.
  - destruct d as [|c d']; [done|]. rewrite str_app_cons.
    apply andb_true_iff in Hdec as [_ Hl].
    apply orb_true_iff in Hl as [E%str_eqb_eq|Hl].
    + rewrite E in Hv. vm_compute in Hv. lia.
    + apply orb_true_iff. by right.
Qed.

Lemma digits_of_S fuel n acc :
  Py.digits_of (S fuel) n acc =
  if n <? 10 then UString (Str.digit_char (n mod 10)) acc
  else Py.digits_of fuel (n / 10) (UString (Str.digit_char (n mod 10)) acc).
Proof. reflexivity. Qed.

(** Enough fuel gives the decimal representation. *)
Lemma digits_of_decimal fuel n acc :
  0 ≤ n < 10 ^ Z.of_nat (S fuel) →
  ∃ d, Py.digits_of (S fuel) n acc = d +:+ acc ∧ Spec.is_decimal n d = true.
Proof.
  revert n acc. induction fuel as [|fuel IH]; intros n acc Hn;
    rewrite digits_of_S; destruct (n <? 10) eqn:Hlt.
  - apply Z.ltb_lt in Hlt. rewrite Z.mod_small by lia.
    exists (UString (Str.digit_char n) UEmpty).
    split; [reflexivity|]. apply decimal_digit. lia.
  - apply Z.ltb_ge in Hlt. simpl in Hn. lia.
  - apply Z.ltb_lt in Hlt. rewrite Z.mod_small by lia.
    exists (UString (Str.digit_char n) UEmpty).
    split; [reflexivity|]. apply decimal_digit. lia.
  - apply Z.ltb_ge in Hlt.
    assert (0 ≤ n / 10 < 10 ^ Z.of_nat (S fuel)) as Hdiv.
    { rewrite (Nat2Z.inj_succ (S fuel)), Z.pow_succ_r in Hn by lia.
      split; [apply Z.div_pos; lia|apply Z.div_lt_upper_bound; lia]. }
    destruct (IH (n / 10) (UString (Str.digit_char (n mod 10)) acc) Hdiv)
      as (d & Hd & Hdec).
    exists (d +:+ UString (Str.digit_char (n mod 10)) UEmpty). split.
    { rewrite Hd. by rewrite str_app_assoc. }
    replace n with (n / 10 * 10 + n mod 10) at 1
      by (pose proof (Z.div_mod n 10); lia).
    apply decimal_snoc; [done| |].
    + apply Z.div_le_lower_bound; lia.
    + pose proof (Z.mod_pos_bound n 10). lia.
Qed.

Lemma str_decimal n : 0 ≤ n → Spec.is_decimal n (Py.str n) = true.
Proof.
  intros Hn. unfold Py.str.
  assert (0 ≤ n < 10 ^ Z.of_nat (S (Z.to_nat (Z.log2 n)))) as Hb.
  { split; [done|]. rewrite Nat2Z.inj_succ, Z2Nat.id by apply Z.log2_nonneg.
    destruct (decide (n = 0)) as [->|Hn0]; [done|].
    pose proof (Z.log2_spec n ltac:(lia)) as [_ Hhi].
    eapply Z.lt_le_trans; [exact Hhi|].
    apply Z.pow_le_mono_l. pose proof (Z.log2_nonneg n). lia. }
  destruct (digits_of_decimal _ n UEmpty Hb) as (d & Hd' & Hd).
  by rewrite Hd', str_app_nil_r.
Qed.

Lemma format_06d_padded n : 0 ≤ n → Spec.is_padded6 n (Py.format_06d n).
Proof.
  intros Hn. exists (Py.str n). split; [by apply str_decimal|].
  unfold Py.format_06d. by replace (n <? 0) with false by (symmetry; apply Z.ltb_ge; lia).
Qed.

(** What a text padded to width 6 looks like. *)
Lemma padded6_inv n r :
  Spec.is_padded6 n r →
  Str.all_ascii_digits r = true ∧ Spec.value r = n ∧ (6 ≤ Str.length r)%nat ∧
  (999999 < n ↔ (6 < Str.length r)%nat) ∧
  (999999 < n → Spec.is_decimal n r = true).
Proof.
  intros (d & Hdec & ->).
  destruct (is_decimal_inv _ _ Hdec) as (Hall & Hv & Hne & Hb & Hlo).
  rewrite all_ascii_digits_app, all_ascii_digits_zeros, Hall, value_app, value_zeros, Hv,
    str_length_app, length_zeros.
  assert (999999 < n ↔ (6 < Str.length d)%nat) as Hwide.
  { split; intros H.
    - destruct (decide (6 < Str.length d)%nat); [done|].
      assert (10 ^ Z.of_nat (Str.length d) ≤ 10 ^ 6) by (apply Z.pow_le_mono_r; lia). lia.
    - destruct Hlo as [->|Hlo].
      + unfold Spec.is_decimal in Hdec. destruct d as [|c d]; [done|].
        apply andb_true_iff in Hdec as [[Hd _]%andb_true_iff Hl].
        apply orb_true_iff in Hl as [E%str_eqb_eq|Hc%negb_true_iff%N.eqb_neq];
          [rewrite E in H; simpl in H; lia|].
        pose proof (value_leading c d Hd Hc).
        assert (0 < 10 ^ Z.of_nat (Str.length d)) by (apply Z.pow_pos_nonneg; lia). lia.
      + assert (10 ^ 6 ≤ 10 ^ (Z.of_nat (Str.length d) - 1)) by (apply Z.pow_le_mono_r; lia).
        lia. }
  split; [done|]. split; [lia|]. split; [lia|]. split; [split|].
  - intros H. apply Hwide in H. lia.
  - intros H. apply Hwide. lia.
  - intros H. apply Hwide in H.
    replace (6 - Str.length d)%nat with 0%nat by lia. done.
Qed.

(** A number below [10 ^ k] padded to width 6 takes at most [k] characters,
    or 6. *)
Lemma padded6_length n r k :
  Spec.is_padded6 n r → n < 10 ^ k → 6 ≤ k → Z.of_nat (Str.length r) ≤ k.
Proof.
  intros (d & Hdec & ->) Hn Hk.
  destruct (is_decimal_inv _ _ Hdec) as (_ & _ & Hne & Hb & Hlo).
  rewrite str_length_app, length_zeros.
  assert (Z.of_nat (Str.length d) ≤ k) as Hd.
  { destruct Hlo as [->|Hlo].
    - rewrite (is_decimal_unique 0 d "0" Hdec eq_refl). simpl. lia.
    - destruct (decide (Z.of_nat (Str.length d) ≤ k)) as [|Hgt]; [done|].
      assert (10 ^ k ≤ 10 ^ (Z.of_nat (Str.length d) - 1))
        by (apply Z.pow_le_mono_r; lia).
      lia. }
  lia.
Qed.

End builtins.
(** * [extract_num6] *)

Section extract.
Implicit Types (name r s cur : ustring) (n : Z).

Lemma digit_runs_nil name :
  Spec.digit_runs name = [] ↔ Str.has_digit name = false.
Proof.
  unfold Spec.digit_runs. rewrite runs_from_nil. split; [by intros [_ ?]|done].
Qed.

Lemma join_runs_digits name :
  Str.all_digits (Str.join (Spec.digit_runs name)) = true.
Proof. by apply runs_from_digits. Qed.

(** The runs hold no more characters than the text. *)
Lemma runs_from_length cur s :
  (Str.length (Str.join (Spec.runs_from cur s)) ≤ Str.length cur + Str.length s)%nat.
Proof.
  revert cur. induction s as [|c s IH]; intros cur; simpl.
  - rewrite join_close. lia.
  - destruct (Str.is_digit c).
    + specialize (IH (cur +:+ UString c UEmpty)).
      rewrite str_length_app in IH. simpl in IH. lia.
    + rewrite join_app, join_close, str_length_app.
      specialize (IH UEmpty). simpl in IH. lia.
Qed.

Lemma join_runs_length name :
  (Str.length (Str.join (Spec.digit_runs name)) ≤ Str.length name)%nat.
Proof. apply (runs_from_length UEmpty name). Qed.

(** The runs, concatenated, are the digits of the text in order. *)
Lemma join_runs_from cur s :
  Str.join (Spec.runs_from cur s) = cur +:+ only_digits s.
Proof.
  revert cur. induction s as [|c s IH]; intros cur; simpl.
  - by rewrite join_close, str_app_nil_r.
  - destruct (Str.is_digit c).
    + rewrite IH. by rewrite str_app_assoc.
    + rewrite join_app, join_close, IH. done.
Qed.

Lemma join_digit_runs s : Str.join (Spec.digit_runs s) = only_digits s.
Proof. apply join_runs_from. Qed.

Lemma runs_from_no_digit cur s :
  Str.has_digit s = false → Spec.runs_from cur s = Spec.close cur.
Proof.
  revert cur. induction s as [|c s IH]; intros cur; simpl; [done|].
  intros [-> Hs]%orb_false_elim. rewrite (IH UEmpty Hs). simpl. apply app_nil_r.
Qed.

(** The three ways out of [extract_num6]. *)
Lemma extract_num6_eq name :
  extract_num6 name =
  if Str.has_digit name
  then if Py.int_max_str_digits <? Z.of_nat (Str.length (Str.join (Spec.digit_runs name)))
       then None
       else Some (Py.format_06d (Spec.value (Str.join (Spec.digit_runs name))))
  else None.
Proof.
  unfold extract_num6. rewrite findall_runs.
  destruct (Str.has_digit name) eqn:Hd.
  - assert (Spec.digit_runs name ≠ []) as Hne
      by (rewrite digit_runs_nil; congruence).
    destruct (Py.int_max_str_digits <? _) eqn:Hlen.
    + apply Z.ltb_lt in Hlen. rewrite (int_refused _ Hlen).
      by destruct (Spec.digit_runs name).
    + apply Z.ltb_ge in Hlen. rewrite int_value;
        [|by apply runs_from_nonempty|by apply join_runs_digits|done].
      by destruct (Spec.digit_runs name).
  - apply digit_runs_nil in Hd. by rewrite Hd.
Qed.

Lemma extract_num6_Some name r :
  extract_num6 name = Some r →
  Str.has_digit name = true ∧
  Spec.is_padded6 (Spec.value (Str.join (Spec.digit_runs name))) r.
Proof.
  rewrite extract_num6_eq. destruct (Str.has_digit name); [|done].
  destruct (Py.int_max_str_digits <? _); [done|].
  intros [= <-]. split; [done|]. apply format_06d_padded.
  apply value_bounds, join_runs_digits.
Qed.

(** A canonical name is within the limit of [int]. *)
Lemma extract_num6_within name r :
  extract_num6 name = Some r →
  Z.of_nat (Str.length (Str.join (Spec.digit_runs name))) ≤ Py.int_max_str_digits ∧
  Z.of_nat (Str.length r) ≤ Py.int_max_str_digits.
Proof.
  intros H. pose proof (extract_num6_Some _ _ H) as [_ Hpad].
  rewrite extract_num6_eq in H. destruct (Str.has_digit name); [|done].
  destruct (Py.int_max_str_digits <? _) eqn:Hlen; [done|]. apply Z.ltb_ge in Hlen.
  split; [done|]. apply (padded6_length _ _ _ Hpad); [|done].
  pose proof (value_bounds _ (join_runs_digits name)) as [_ Hb].
  eapply Z.lt_le_trans; [exact Hb|]. apply Z.pow_le_mono_r; lia.
Qed.

(** A canonical name is its own canonical name. *)
Lemma extract_num6_fixed name r :
  extract_num6 name = Some r → extract_num6 (r +:+ ".jpg") = Some r.
Proof.
  intros H. destruct (extract_num6_within _ _ H) as [_ Hlim].
  apply extract_num6_Some in H as [_ Hpad].
  pose proof Hpad as (d & Hdec & Hr).
  destruct (padded6_inv _ _ Hpad) as (Hall & Hv & Hlen & _ & _).
  destruct (is_decimal_inv _ _ Hdec) as (_ & _ & _ & Hn & _).
  assert (r ≠ UEmpty) as Hne by (intros ->; simpl in Hlen; lia).
  assert (Spec.digit_runs (r +:+ ".jpg") = [r]) as Hruns.
  { unfold Spec.digit_runs.
    rewrite runs_from_all_digits, str_app_nil_l by (by apply all_ascii_all_digits).
    rewrite runs_from_no_digit by (by vm_compute). by destruct r. }
  rewrite extract_num6_eq, has_digit_app, (has_digit_ascii r Hall Hne), Hruns.
  simpl. rewrite str_app_nil_r, Hv.
  replace (Py.int_max_str_digits <? _) with false by (symmetry; apply Z.ltb_ge; lia).
  f_equal.
  set (m := Spec.value (Str.join (Spec.digit_runs name))) in *.
  unfold Py.format_06d. replace (m <? 0) with false by (symmetry; apply Z.ltb_ge; lia).
  unfold Py.zfill.
  rewrite (is_decimal_unique m (Py.str m) d); [done| |done].
  apply str_decimal. lia.
Qed.

End extract.

(** C1.  The canonical name of a file name: none when the name has no digit;
    otherwise the maximal runs of digits of the name, concatenated in order of
    appearance, read as an unsigned integer and written with leading zeros to
    width 6, as long as the runs hold no more digits than [int] reads, and
    none when they hold more.  A number above 999999 is written in full,
    wider than 6 characters; any other takes exactly 6.  The concatenation
    of the runs is the digits of the name in order, no longer than the name,
    so that a name within the limit has a canonical name if it has a
    digit. *)
Theorem extract_num6_canonical (name : ustring) :
  if Str.has_digit name
  then ∃ runs,
         Spec.maximal_runs name runs ∧
         Str.join runs = only_digits name ∧
         (Str.length (Str.join runs) ≤ Str.length name)%nat ∧
         if Py.int_max_str_digits <? Z.of_nat (Str.length (Str.join runs))
         then extract_num6 name = None
         else ∃ r,
           extract_num6 name = Some r ∧
           let n := Spec.value (Str.join runs) in
           Spec.is_padded6 n r ∧
           (if 999999 <? n
            then Spec.is_decimal n r = true ∧ (6 < Str.length r)%nat
            else Str.length r = 6%nat)
  else extract_num6 name = None.
Proof.
  destruct (Str.has_digit name) eqn:Hd; [|by rewrite extract_num6_eq, Hd].
  exists (Spec.digit_runs name).
  split; [apply digit_runs_maximal|]. split; [apply join_digit_runs|].
  split; [apply join_runs_length|].
  destruct (Py.int_max_str_digits <? _) eqn:Hlim;
    [by rewrite extract_num6_eq, Hd, Hlim|].
  destruct (extract_num6 name) as [r|] eqn:Hr;
    [|by rewrite extract_num6_eq, Hd, Hlim in Hr].
  exists r. split; [done|]. intros n.
  destruct (extract_num6_Some _ _ Hr) as [_ Hpad].
  split; [done|].
  destruct (padded6_inv _ _ Hpad) as (_ & _ & Hlen & Hwide & Hdec).
  fold n in Hwide, Hdec.
  destruct (999999 <? n) eqn:Hn.
  - apply Z.ltb_lt in Hn. split; [by apply Hdec|by apply Hwide].
  - apply Z.ltb_ge in Hn.
    destruct (decide (6 < Str.length r)%nat) as [Hl|Hl]; [apply Hwide in Hl|]; lia.
Qed.

(** C9.  The handler of [ValueError] around [int(s)] is entered only beyond
    the limit of [int]: when the search finds a run, the concatenation [s] is
    a non-empty text of digits, no longer than the name; if it holds no more
    digits than the limit, [int(s)] returns and [extract_num6] returns the
    formatted number, not [None]; if it holds more, [int(s)] raises
    [ValueError] and [extract_num6] returns [None] by the handler. *)
Theorem int_raises_beyond_limit_only (name : ustring) :
  Re.findall name ≠ [] →
  let s := Str.join (Re.findall name) in
  s ≠ UEmpty ∧ Str.all_digits s = true ∧ (Str.length s ≤ Str.length name)%nat ∧
  if Py.int_max_str_digits <? Z.of_nat (Str.length s)
  then Py.int s = Raise ValueError ∧ extract_num6 name = None
  else ∃ n, Py.int s = Ok n ∧ extract_num6 name = Some (Py.format_06d n).
Proof.
  intros Hne s.
  assert (s ≠ UEmpty) as Hs.
  { unfold s. rewrite findall_runs in Hne |- *. by apply runs_from_nonempty. }
  assert (Str.all_digits s = true) as Hd
    by (unfold s; rewrite findall_runs; apply join_runs_digits).
  split; [done|]. split; [done|].
  split; [unfold s; rewrite findall_runs; apply join_runs_length|].
  destruct (Py.int_max_str_digits <? _) eqn:Hlim.
  - apply Z.ltb_lt in Hlim. split; [by apply int_refused|].
    unfold extract_num6. fold s. rewrite (int_refused s Hlim).
    by destruct (Re.findall name).
  - apply Z.ltb_ge in Hlim. exists (Spec.value s). split; [by apply int_value|].
    unfold extract_num6. fold s. rewrite (int_value s Hs Hd Hlim).
    by destruct (Re.findall name).
Qed.

Lemma int_raises_beyond_limit_only_witness :
  Re.findall "v0_63.jpg" ≠ [] ∧
  ∃ n, Py.int (Str.join (Re.findall "v0_63.jpg")) = Ok n ∧
       extract_num6 "v0_63.jpg" = Some (Py.format_06d n).
Proof.
  assert (Re.findall "v0_63.jpg" ≠ []) as H by (vm_compute; discriminate).
  split; [exact H|].
  exact (proj2 (proj2 (proj2 (int_raises_beyond_limit_only "v0_63.jpg" H)))).
Defined.

(** * Paths *)

Section paths.
Implicit Types (p d : list ustring) (n s r : ustring).

Lemma name_snoc d n : Fs.name (d ++ [n]) = n.
Proof. unfold Fs.name. apply last_last. Qed.

Lemma parent_snoc d n : Fs.parent (d ++ [n]) = d.
Proof. unfold Fs.parent. apply removelast_last. Qed.

Lemma path_split p : p ≠ [] → p = Fs.parent p ++ [Fs.name p].
Proof. intros Hp. by apply app_removelast_last. Qed.

Lemma name_nonempty p : Fs.name p ≠ UEmpty → p ≠ [].
Proof. by intros H ->. Qed.

Lemma endswith_app s suf :
  Str.endswith s suf = true ↔ ∃ pre, s = pre +:+ suf.
Proof.
  split.
  - induction s as [|c s IH]; cbn [Str.endswith].
    + rewrite orb_false_r. intros ->%str_eqb_eq. by exists UEmpty.
    + intros [->%str_eqb_eq|H]%orb_true_iff; [by exists UEmpty|].
      destruct (IH H) as [pre ->]. by exists (UString c pre).
  - intros [pre ->]. induction pre as [|c pre IH].
    + rewrite str_app_nil_l. destruct suf; cbn [Str.endswith]; by rewrite str_eqb_refl.
    + rewrite str_app_cons. cbn [Str.endswith]. rewrite IH. apply orb_true_r.
Qed.

Lemma rfind_app c pre s i :
  Str.rfind c s = Some i →
  Str.rfind c (pre +:+ s) = Some (Str.length pre + i)%nat.
Proof.
  intros Hs. induction pre as [|c' pre IH]; [done|].
  rewrite str_app_cons. simpl. by rewrite IH.
Qed.

Lemma drop_app pre s : Str.drop (Str.length pre) (pre +:+ s) = s.
Proof. induction pre as [|c pre IH]; [by destruct s|]. by rewrite str_app_cons. Qed.

(** An entry that matches [*.jpg] and has a digit in its name has the suffix
    [.jpg]. *)
Lemma suffix_jpg p :
  Fs.match_jpg (Fs.name p) = true → Str.has_digit (Fs.name p) = true →
  Fs.suffix p = ".jpg"%ustring.
Proof.
  unfold Fs.match_jpg, Fs.suffix. intros [pre Hn]%endswith_app Hd.
  rewrite Hn in Hd |- *. rewrite has_digit_app in Hd.
  assert (pre ≠ UEmpty) as Hpre by (by intros ->).
  rewrite (rfind_app _ pre ".jpg" 0) by done.
  rewrite Nat.add_0_r, str_length_app.
  assert (0 < Str.length pre)%nat as Hlen by (destruct pre; [done|simpl; lia]).
  replace (0 <? Str.length pre)%nat with true by (symmetry; apply Nat.ltb_lt; lia).
  replace (Str.length pre <? Str.length pre + Str.length ".jpg" - 1)%nat
    with true by (symmetry; apply Nat.ltb_lt; simpl; lia).
  simpl. apply drop_app.
Qed.

Lemma has_slash_app s r : Fs.has_slash (s +:+ r) = Fs.has_slash s || Fs.has_slash r.
Proof.
  induction s as [|c s IH]; [done|]. rewrite str_app_cons. simpl.
  rewrite IH. by destruct ((c =? 47)%N).
Qed.

Lemma digits_no_slash s : Str.all_digits s = true → Fs.has_slash s = false.
Proof.
  induction s as [|c s IH]; [done|]. simpl.
  intros [Hc Hs]%andb_true_iff. rewrite (IH Hs), orb_false_r.
  apply N.eqb_neq. intros ->. by compute in Hc.
Qed.

(** The canonical path of an entry: same directory, canonical name. *)
Lemma with_name_canonical p num6 :
  extract_num6 (Fs.name p) = Some num6 →
  Fs.with_name p (num6 +:+ ".jpg") = Ok (Fs.parent p ++ [num6 +:+ ".jpg"]).
Proof.
  intros H. unfold Fs.with_name.
  pose proof (extract_num6_Some _ _ H) as [Hd Hpad].
  destruct (padded6_inv _ _ Hpad) as (Hall & _ & Hlen & _ & _).
  assert (Fs.name p ≠ UEmpty) as Hn by (intros E; by rewrite E in Hd).
  apply str_eqb_neq in Hn. rewrite Hn.
  destruct num6 as [|c r]; [simpl in Hlen; lia|].
  rewrite str_app_cons.
  replace (Str.eqb (UString c (r +:+ ".jpg")) "") with false by done.
  rewrite <- str_app_cons, has_slash_app, (digits_no_slash _ (all_ascii_all_digits _ Hall)).
  replace (Fs.has_slash ".jpg") with false by done.
  destruct r as [|c' r']; [simpl in Hlen; lia|].
  replace (Str.eqb (UString c (UString c' r') +:+ ".jpg") ".") with false; [done|].
  symmetry. apply str_eqb_neq. rewrite !str_app_cons. congruence.
Qed.

Lemma common_len_snoc (d : list ustring) n : Fs.common_len d (d ++ [n]) = length d.
Proof.
  induction d as [|x d IH]; [done|]. simpl. by rewrite str_eqb_refl, IH.
Qed.

(** From a directory to an entry of it, the relative path is the name. *)
Lemma relpath_sibling d n : Fs.relpath (d ++ [n]) d = n.
Proof.
  unfold Fs.relpath. rewrite common_len_snoc, Nat.sub_diag, drop_app_length. done.
Qed.

End paths.

(** * The file system *)

Section fs.
Implicit Types (t : gmap (list ustring) Fs.node) (p q : list ustring).

(** The three tests of line 88 hold of a regular file and of nothing else. *)
Lemma plain_file t q :
  LinkEntry.plain t q = true ↔ ∃ data, t !! q = Some (Fs.File data).
Proof.
  unfold LinkEntry.plain, Fs.exists_, Fs.is_file, Fs.is_symlink, Fs.stat, Fs.lstat.
  destruct (t !! q) as [[data|tgt|w|]|] eqn:Hq; simpl.
  - split; [by exists data|done].
  - rewrite andb_false_r. split; [done|by intros [? ?]].
  - split; [done|by intros [? ?]].
  - split; [done|by intros [? ?]].
  - split; [done|by intros [? ?]].
Qed.

Lemma plain_file_b t t' q :
  (∀ data, t !! q = Some (Fs.File data) ↔ t' !! q = Some (Fs.File data)) →
  LinkEntry.plain t q = LinkEntry.plain t' q.
Proof.
  intros H. destruct (LinkEntry.plain t q) eqn:E; symmetry.
  - apply plain_file in E as [data E]. apply plain_file. exists data. by apply H.
  - apply not_true_iff_false. intros [data E']%plain_file.
    apply not_true_iff_false in E. apply E, plain_file. exists data. by apply H.
Qed.

(** What is not a link is what [stat] finds. *)
Lemma stat_not_link t p :
  Fs.is_symlink t p = false → Fs.stat t p = t !! p.
Proof.
  unfold Fs.is_symlink, Fs.stat, Fs.lstat. by destruct (t !! p) as [[]|].
Qed.

Lemma real_file t p :
  Fs.is_symlink t p = false → Fs.is_file t p = true →
  ∃ data, t !! p = Some (Fs.File data).
Proof.
  intros Hl. unfold Fs.is_file. rewrite (stat_not_link _ _ Hl).
  destruct (t !! p) as [[data| | |]|]; try done. by exists data.
Qed.

Lemma with_name_ValueError p n e : Fs.with_name p n = Raise e → e = ValueError.
Proof.
  unfold Fs.with_name.
  destruct (Str.eqb (Fs.name p) ""); [by intros [= <-]|].
  destruct (_ || _); [by intros [= <-]|done].
Qed.

Lemma with_name_inv p n q :
  Fs.with_name p n = Ok q → q = Fs.parent p ++ [n] ∧ Fs.name p ≠ UEmpty.
Proof.
  unfold Fs.with_name.
  destruct (Str.eqb (Fs.name p) "") eqn:E; [done|].
  destruct (_ || _); [done|]. intros [= <-]. split; [done|]. by apply str_eqb_neq.
Qed.

End fs.

(** * One turn of the scan loop of step 1 *)

Lemma scan_entry_eq (p : list ustring) (s : real_state) :
  Real.scan_entry p s = (Ok tt, RealEntry.record p (RealEntry.classify (rs_fs s) p) s).
Proof.
  unfold Real.scan_entry, Real.scan_body, RealEntry.classify, try_except, bind, gets, lift, ret.
  destruct (Fs.is_symlink (rs_fs s) p); [done|].
  destruct (Fs.is_file (rs_fs s) p); [|done]. simpl.
  destruct (extract_num6 (Fs.name p)) as [num6|]; [|done].
  destruct (Fs.with_name p _) as [newp|e] eqn:Hw.
  - destruct (Str.eqb (Fs.name p) (Fs.name newp)); [done|]. simpl.
    by destruct (Fs.exists_ (rs_fs s) newp).
  - by rewrite (with_name_ValueError _ _ _ Hw).
Qed.

(** * One turn of the loop of step 2 *)

Lemma replace_link_eq (t : gmap (list ustring) Fs.node) rel p tgt :
  t !! p = Some (Fs.Symlink tgt) → p ≠ [] →
  LinkEntry.replace_link t rel p =
  match Fs.check_writable t (Fs.parent p) with
  | Ok _ => Ok (<[p := Fs.Symlink rel]> (delete p t))
  | Raise e => Raise e
  end.
Proof.
  intros Hp Hne. unfold LinkEntry.replace_link, Fs.unlink. rewrite Hp.
  destruct (Fs.check_writable t (Fs.parent p)) as [[]|e] eqn:Hw; [|done].
  unfold Fs.symlink. rewrite lookup_delete_eq.
  assert (Fs.parent p ≠ p) as Hpar.
  { intros E. apply (f_equal length) in E. rewrite (path_split p Hne) in E at 2.
    rewrite length_app in E. simpl in E. lia. }
  unfold Fs.check_writable in *. rewrite lookup_delete_ne by done.
  by destruct (t !! Fs.parent p) as [[| |[]|]|].
Qed.

Lemma replace_link_OSError (t : gmap (list ustring) Fs.node) rel p e :
  LinkEntry.replace_link t rel p = Raise e → is_Exception e = true.
Proof.
  unfold LinkEntry.replace_link, Fs.unlink, Fs.symlink, Fs.check_writable.
  repeat case_match; simplify_eq; try done; try (by intros [= <-]).
Qed.

Lemma relink_eq rel p (s : link_state) tgt :
  ls_fs s !! p = Some (Fs.Symlink tgt) → p ≠ [] →
  Link.relink rel p s =
  match LinkEntry.replace_link (ls_fs s) rel p with
  | Ok t' => (Ok tt, LinkState t' (ls_out s) (ls_fixed s) (ls_retargeted s) (ls_broken s))
  | Raise e => (Raise e, s)
  end.
Proof.
  intros Hp Hne. rewrite (replace_link_eq _ _ _ _ Hp Hne).
  unfold Link.relink, bind, gets, Link.unlink, Link.symlink, Link.syscall.
  assert (Fs.is_symlink (ls_fs s) p = true) as ->
    by (unfold Fs.is_symlink, Fs.lstat; by rewrite Hp).
  rewrite orb_true_r.
  pose proof (replace_link_eq _ rel _ _ Hp Hne) as Hr.
  unfold LinkEntry.replace_link in Hr.
  assert (Fs.unlink (ls_fs s) p =
          match Fs.check_writable (ls_fs s) (Fs.parent p) with
          | Ok _ => Ok (delete p (ls_fs s))
          | Raise e => Raise e
          end) as Hu by (unfold Fs.unlink; by rewrite Hp).
  rewrite Hu in Hr |- *.
  destruct (Fs.check_writable (ls_fs s) (Fs.parent p)); simpl; [|done].
  by rewrite Hr.
Qed.

Lemma readlink_link (t : gmap (list ustring) Fs.node) p :
  Fs.is_symlink t p = true → ∃ tgt, t !! p = Some (Fs.Symlink tgt) ∧ Fs.readlink t p = Ok tgt.
Proof.
  unfold Fs.is_symlink, Fs.lstat, Fs.readlink.
  destruct (t !! p) as [[|tgt| |]|]; try done. by exists tgt.
Qed.

Lemma entry_eq (dry : bool) (p : list ustring) (s : link_state) :
  Link.entry dry p s =
  (Ok tt, LinkEntry.record dry p (LinkEntry.classify (ls_fs s) p) s).
Proof.
  unfold Link.entry, Link.body, LinkEntry.classify.
  unfold try_except at 1. unfold bind at 1. unfold gets at 1.
  destruct (Fs.is_symlink (ls_fs s) p) eqn:Hl; [|done]. simpl.
  destruct (readlink_link _ _ Hl) as (tgt & Hp & Hrd).
  destruct (extract_num6 (Fs.name p)) as [num6|] eqn:Hnum; [|done].
  assert (p ≠ []) as Hne.
  { apply name_nonempty. intros E. rewrite E in Hnum. by compute in Hnum. }
  unfold bind at 1. unfold lift at 1.
  destruct (Fs.with_name p _) as [tc|e] eqn:Hw;
    [|by rewrite (with_name_ValueError _ _ _ Hw)].
  unfold bind at 1. unfold try_except at 1. unfold bind at 1.
  unfold Link.readlink at 1. rewrite Hrd. unfold ret at 1.
  unfold bind at 1. unfold gets at 1.
  fold (LinkEntry.plain (ls_fs s) tc).
  destruct (LinkEntry.plain (ls_fs s) tc); [|done].
  destruct (decide (Some tgt ≠ Some (Fs.relpath tc (Fs.parent p)))); [|done].
  unfold bind at 1. unfold Link.print at 1. unfold modify at 1.
  destruct dry; simpl; [done|].
  unfold bind at 1.
  rewrite (relink_eq _ _ _ tgt) by done. simpl.
  destruct (LinkEntry.replace_link (ls_fs s) _ p) as [t'|e] eqn:Hr; [done|].
  rewrite (replace_link_OSError _ _ _ _ Hr).
  unfold Link.print, modify. simpl. by rewrite <- app_assoc.
Qed.

(** * Loops *)

Lemma for_each_fold {S A} (body : A → M S unit) (f : A → S → S) (l : list A) (s : S) :
  (∀ x s, body x s = (Ok tt, f x s)) →
  for_each l body s = (Ok tt, foldl (λ s x, f x s) s l).
Proof.
  intros Hbody. revert s. induction l as [|x l IH]; intros s; [done|].
  simpl. unfold bind. by rewrite Hbody, IH.
Qed.

(** * The walk

    From here on [o] is the order of the walks, any lawful one. *)

Section any_order.
Context (o : Fs.walk_order) (Hlawful : Fs.lawful o).

Section walk.
Implicit Types (t : gmap (list ustring) Fs.node) (root p q : list ustring).

Lemma elem_of_rglob t root p :
  p ∈ Fs.rglob o t root ↔
  is_Some (t !! p) ∧ Fs.walked t root p = true ∧ Fs.match_jpg (Fs.name p) = true.
Proof.
  unfold Fs.rglob, Fs.matches. rewrite (Hlawful _ _).
  rewrite list_elem_of_In, filter_In, <- list_elem_of_In.
  rewrite andb_true_iff, list_elem_of_fmap. split.
  - intros [([q x] & -> & Hq%elem_of_map_to_list) [? ?]]. by eauto.
  - intros ([x Hx] & ? & ?). split; [|done].
    exists (p, x). split; [done|]. by apply elem_of_map_to_list.
Qed.

Lemma NoDup_rglob t root : NoDup (Fs.rglob o t root).
Proof.
  unfold Fs.rglob, Fs.matches. rewrite (Hlawful _ _).
  apply NoDup_ListNoDup, List.NoDup_filter, NoDup_ListNoDup.
  apply NoDup_fst_map_to_list.
Qed.



End walk.

(** * Step 1 as a whole *)

Section real.
Implicit Types (t : gmap (list ustring) Fs.node) (p q : list ustring)
  (s : real_state) (entries : list (list ustring)).

Lemma scan_loop entries s :
  for_each entries Real.scan_entry s = (Ok tt, RealEntry.scan_fold entries s).
Proof. apply for_each_fold. intros. apply scan_entry_eq. Qed.

Lemma scan_fold_cons p entries s :
  RealEntry.scan_fold (p :: entries) s =
  RealEntry.scan_fold entries (RealEntry.record p (RealEntry.classify (rs_fs s) p) s).
Proof. reflexivity. Qed.

Lemma record_fs p v s : rs_fs (RealEntry.record p v s) = rs_fs s.
Proof. by destruct v. Qed.

Lemma scan_fold_fs entries s : rs_fs (RealEntry.scan_fold entries s) = rs_fs s.
Proof.
  revert s. induction entries as [|p l IH]; intros s; [done|].
  by rewrite scan_fold_cons, IH, record_fs.
Qed.

Lemma scan_fold_changes entries s :
  rs_changes (RealEntry.scan_fold entries s) = rs_changes s ++ omap (RealEntry.change_of (rs_fs s)) entries.
Proof.
  revert s. induction entries as [|p l IH]; intros s.
  - simpl. by rewrite app_nil_r.
  - rewrite scan_fold_cons, IH, record_fs. simpl. unfold RealEntry.change_of at 2.
    destruct (RealEntry.classify (rs_fs s) p); simpl; try done.
    by rewrite <- app_assoc.
Qed.

Lemma scan_fold_conflicts entries s :
  rs_conflicts (RealEntry.scan_fold entries s) =
  rs_conflicts s ++ omap (RealEntry.conflict_of (rs_fs s)) entries.
Proof.
  revert s. induction entries as [|p l IH]; intros s.
  - simpl. by rewrite app_nil_r.
  - rewrite scan_fold_cons, IH, record_fs. simpl. unfold RealEntry.conflict_of at 2.
    destruct (RealEntry.classify (rs_fs s) p); simpl; try done.
    by rewrite <- app_assoc.
Qed.

(** The rename loop in preview mode prints and does nothing else. *)
Lemma apply_loop_dry changes s :
  for_each changes (Real.apply_entry true) s =
  (Ok tt, RealState (rs_fs s) (rs_out s ++ map (λ c, RenameReal c.1 c.2) changes)
                    (rs_changes s) (rs_conflicts s)).
Proof.
  revert s. induction changes as [|c l IH]; intros s; simpl.
  - rewrite app_nil_r. by destruct s.
  - unfold bind at 1. unfold Real.apply_entry at 1. unfold bind, Real.print, modify, ret.
    simpl. rewrite IH. simpl. by rewrite <- app_assoc.
Qed.

(** The rename loop when applying: the renames of the queue, in order; the
    first that raises ends the loop and the function. *)
Lemma apply_loop changes s :
  ∃ s',
    for_each changes (Real.apply_entry false) s =
      (match RealEntry.renames (rs_fs s) changes with
       | Ok _ => Ok tt
       | Raise e => Raise e
       end, s') ∧
    rs_changes s' = rs_changes s ∧ rs_conflicts s' = rs_conflicts s ∧
    ∀ t', RealEntry.renames (rs_fs s) changes = Ok t' → rs_fs s' = t'.
Proof.
  revert s. induction changes as [|c l IH]; intros s; simpl.
  - exists s. repeat split; try done. by intros t' [= <-].
  - unfold bind at 1. unfold Real.apply_entry at 1.
    unfold bind at 1. unfold Real.print at 1. unfold modify at 1. simpl.
    unfold Real.rename at 1. simpl.
    destruct (Fs.rename (rs_fs s) c.1 c.2) as [t'|e]; simpl.
    + destruct (IH (RealState t' (rs_out s ++ [RenameReal c.1 c.2]) (rs_changes s)
                   (rs_conflicts s))) as (s' & Hs' & ? & ? & ?).
      by exists s'.
    + eexists. repeat split; try done.
Qed.

End real.

Section real_whole.
Implicit Types (t : gmap (list ustring) Fs.node) (root p q : list ustring) (w : world).

(** Step 1 in preview mode: the records of the scan, the tree as it was. *)
Lemma normalize_real_files_dry root w :
  ∃ out', normalize_real_files o root true w =
    (Ok (omap (RealEntry.change_of (w_fs w)) (Fs.rglob o (w_fs w) root),
         omap (RealEntry.conflict_of (w_fs w)) (Fs.rglob o (w_fs w) root)),
     World (w_fs w) out').
Proof.
  unfold normalize_real_files, Real.passes.
  unfold bind at 1. rewrite scan_loop. unfold bind at 1. unfold gets at 1.
  rewrite apply_loop_dry. simpl.
  rewrite scan_fold_fs, scan_fold_changes, scan_fold_conflicts. simpl.
  by eexists.
Qed.

(** Step 1 when applying: the same records, if every rename of the queue
    goes through; otherwise the exception of the first that does not. *)
Lemma normalize_real_files_apply root w :
  let changes := omap (RealEntry.change_of (w_fs w)) (Fs.rglob o (w_fs w) root) in
  let conflicts := omap (RealEntry.conflict_of (w_fs w)) (Fs.rglob o (w_fs w) root) in
  ∃ w', normalize_real_files o root false w =
    (match RealEntry.renames (w_fs w) changes with
     | Ok _ => Ok (changes, conflicts)
     | Raise e => Raise e
     end, w') ∧
    ∀ t', RealEntry.renames (w_fs w) changes = Ok t' → w_fs w' = t'.
Proof.
  intros changes conflicts.
  unfold normalize_real_files, Real.passes.
  unfold bind at 1. rewrite scan_loop. unfold bind at 1. unfold gets at 1.
  set (s1 := RealEntry.scan_fold _ _).
  destruct (apply_loop (rs_changes s1) s1) as (s' & Hs' & Hc & Hf & Ht).
  rewrite Hs'.
  assert (rs_fs s1 = w_fs w) as Hfs by (unfold s1; by rewrite scan_fold_fs).
  assert (rs_changes s1 = changes) as Hch
    by (unfold s1; by rewrite scan_fold_changes).
  assert (rs_conflicts s1 = conflicts) as Hcf
    by (unfold s1; by rewrite scan_fold_conflicts).
  rewrite Hfs, Hch in *.
  exists (World (rs_fs s') (rs_out s')).
  destruct (RealEntry.renames (w_fs w) changes) as [t'|e] eqn:Hr.
  - split; [by rewrite Hc, Hf, Hcf|]. intros t'' [= <-]. simpl. by apply Ht.
  - split; [done|]. done.
Qed.

End real_whole.

(** * Step 2 as a whole *)

Section link.
Implicit Types (t : gmap (list ustring) Fs.node) (root p q : list ustring)
  (s : link_state) (w : world) (entries : list (list ustring)).

Lemma pass_loop dry entries s :
  Link.pass entries dry s = (Ok tt, LinkEntry.fold dry entries s).
Proof. apply for_each_fold. intros. apply entry_eq. Qed.

(** Step 2 never raises. *)
Lemma fix_symlinks_eq root dry w :
  let s := LinkEntry.fold dry (Fs.rglob o (w_fs w) root)
             (LinkState (w_fs w) (w_out w) [] [] []) in
  fix_symlinks o root dry w =
  (Ok (ls_fixed s, ls_retargeted s, ls_broken s), World (ls_fs s) (ls_out s)).
Proof. unfold fix_symlinks. by rewrite pass_loop. Qed.

Lemma same_but_links_refl t : Fs.same_but_links t t.
Proof. intros q. by destruct (t !! q) as [[]|]. Qed.

Lemma same_but_links_trans t1 t2 t3 :
  Fs.same_but_links t1 t2 → Fs.same_but_links t2 t3 → Fs.same_but_links t1 t3.
Proof.
  intros H12 H23 q. specialize (H12 q). specialize (H23 q).
  destruct (t1 !! q) as [[]|], (t2 !! q) as [[]|], (t3 !! q) as [[]|]; congruence.
Qed.

Lemma same_but_links_file t t' q data :
  Fs.same_but_links t t' →
  t !! q = Some (Fs.File data) ↔ t' !! q = Some (Fs.File data).
Proof.
  intros H. specialize (H q).
  destruct (t !! q) as [[]|], (t' !! q) as [[]|]; split; congruence.
Qed.


Lemma same_but_links_is_symlink t t' q :
  Fs.same_but_links t t' → Fs.is_symlink t q = Fs.is_symlink t' q.
Proof.
  intros H. specialize (H q). unfold Fs.is_symlink, Fs.lstat.
  destruct (t !! q) as [[]|], (t' !! q) as [[]|]; congruence.
Qed.



Lemma same_but_links_plain t t' q :
  Fs.same_but_links t t' → LinkEntry.plain t q = LinkEntry.plain t' q.
Proof. intros H. apply plain_file_b. intros. by apply same_but_links_file. Qed.


(** A turn of step 2 leaves everything but the entry itself as it was, and
    the entry, if touched, a link before and after. *)
Lemma record_frame dry p s :
  let s' := LinkEntry.record dry p (LinkEntry.classify (ls_fs s) p) s in
  (∀ q, q ≠ p → ls_fs s' !! q = ls_fs s !! q) ∧ Fs.same_but_links (ls_fs s) (ls_fs s').
Proof.
  unfold LinkEntry.classify.
  destruct (Fs.is_symlink (ls_fs s) p) eqn:Hl; simpl;
    [|split; [done|apply same_but_links_refl]].
  destruct (readlink_link _ _ Hl) as (tgt & Hp & Hrd). rewrite Hrd.
  destruct (extract_num6 (Fs.name p)) as [num6|] eqn:Hnum; simpl;
    [|split; [done|apply same_but_links_refl]].
  assert (p ≠ []) as Hne.
  { apply name_nonempty. intros E. rewrite E in Hnum. by compute in Hnum. }
  destruct (Fs.with_name p _) as [tc|e]; simpl;
    [|split; [done|apply same_but_links_refl]].
  destruct (LinkEntry.plain (ls_fs s) tc); simpl;
    [|split; [done|apply same_but_links_refl]].
  destruct (decide _); simpl; [|split; [done|apply same_but_links_refl]].
  destruct dry; simpl; [split; [done|apply same_but_links_refl]|].
  rewrite (replace_link_eq _ _ _ _ Hp Hne).
  destruct (Fs.check_writable (ls_fs s) (Fs.parent p)); simpl;
    [|split; [done|apply same_but_links_refl]].
  split.
  - intros q Hq. by rewrite lookup_insert_ne, lookup_delete_ne.
  - intros q. destruct (decide (q = p)) as [->|Hq].
    + by rewrite lookup_insert_eq, Hp.
    + rewrite lookup_insert_ne, lookup_delete_ne by done. by destruct (ls_fs s !! q) as [[]|].
Qed.

Lemma fold_cons dry p entries s :
  LinkEntry.fold dry (p :: entries) s =
  LinkEntry.fold dry entries (LinkEntry.record dry p (LinkEntry.classify (ls_fs s) p) s).
Proof. reflexivity. Qed.

Lemma fold_frame dry entries s :
  Fs.same_but_links (ls_fs s) (ls_fs (LinkEntry.fold dry entries s)) ∧
  ∀ q, q ∉ entries → ls_fs (LinkEntry.fold dry entries s) !! q = ls_fs s !! q.
Proof.
  revert s. induction entries as [|p l IH]; intros s.
  - split; [apply same_but_links_refl|done].
  - rewrite fold_cons. destruct (record_frame dry p s) as [Hne Hsame].
    destruct (IH (LinkEntry.record dry p (LinkEntry.classify (ls_fs s) p) s)) as [IH1 IH2].
    split; [by eapply same_but_links_trans|].
    intros q Hq. apply not_elem_of_cons in Hq as [Hqp Hql].
    rewrite IH2 by done. by apply Hne.
Qed.

(** In preview mode step 2 changes nothing. *)
Lemma fold_dry_fs entries s : ls_fs (LinkEntry.fold true entries s) = ls_fs s.
Proof.
  revert s. induction entries as [|p l IH]; intros s; [done|].
  rewrite fold_cons, IH. by destruct (LinkEntry.classify (ls_fs s) p).
Qed.

End link.

(** * The renames of step 1 *)

Section renames.
Implicit Types (t : gmap (list ustring) Fs.node) (p q old new : list ustring)
  (l : list (list ustring * list ustring)).

Lemma rename_inv t old new t' :
  Fs.rename t old new = Ok t' →
  ∃ n, t !! old = Some n ∧ Fs.is_dir t old = false ∧ Fs.is_dir t new = false ∧
       t' = if decide (old = new) then t else <[new := n]> (delete old t).
Proof.
  unfold Fs.rename, Fs.is_dir.
  destruct (t !! old) as [n|] eqn:Ho; [|done].
  destruct (Fs.check_writable t (Fs.parent old)), (Fs.check_writable t (Fs.parent new));
    destruct n; try done;
    destruct (t !! new) as [[]|]; try done;
    destruct (decide (old = new)); intros [= <-]; by eexists.
Qed.

Lemma renames_inv l t t1 :
  RealEntry.renames t l = Ok t1 → RealEntry.sources_ok t l →
  (∀ q, Fs.is_dir t q = Fs.is_dir t1 q) ∧
  (∀ q x, t1 !! q = Some (Fs.Symlink x) → t !! q = Some (Fs.Symlink x)) ∧
  (∀ q data, t1 !! q = Some (Fs.File data) →
     q ∈ (snd <$> l) ∨ ((q ∉ (fst <$> l)) ∧ t !! q = Some (Fs.File data))).
Proof.
  revert t. induction l as [|[old new] l IH]; intros t Hr Hok.
  - injection Hr as <-. split; [done|]. split; [done|].
    intros q data Hq. right. split; [|done]. apply not_elem_of_nil.
  - simpl in Hr. destruct (Fs.rename t old new) as [t'|e] eqn:Hren; [|done].
    destruct (rename_inv _ _ _ _ Hren) as (n & Hold & Hdo & Hdn & Ht').
    destruct (Hok (old, new)) as [Hne Hsrc]; [by left|]. simpl in Hne, Hsrc.
    rewrite decide_False in Ht' by done.
    destruct Hsrc as [Hsrc|[data Hsrc]]; [congruence|].
    assert (n = Fs.File data) as -> by congruence.
    assert (∀ q, q ≠ new → q ≠ old → t' !! q = t !! q) as Hframe.
    { intros q ? ?. subst t'. by rewrite lookup_insert_ne, lookup_delete_ne. }
    assert (t' !! new = Some (Fs.File data)) as Hnew
      by (subst t'; by rewrite lookup_insert_eq).
    assert (t' !! old = None) as Hgone
      by (subst t'; by rewrite lookup_insert_ne, lookup_delete_eq).
    assert (RealEntry.sources_ok t' l) as Hok'.
    { intros c Hc. destruct (Hok c) as [? Hc']; [by right|]. split; [done|].
      destruct (decide (c.1 = new)) as [->|?]; [right; by exists data|].
      destruct (decide (c.1 = old)) as [->|?]; [by left|].
      by rewrite Hframe. }
    destruct (IH t' Hr Hok') as (Hdir & Hlink & Hfile).
    split; [|split].
    + intros q. rewrite <- Hdir. unfold Fs.is_dir in *.
      destruct (decide (q = new)) as [->|?]; [by rewrite Hnew, Hdn|].
      destruct (decide (q = old)) as [->|?]; [by rewrite Hgone, Hold|].
      by rewrite Hframe.
    + intros q x Hq. apply Hlink in Hq.
      destruct (decide (q = new)) as [->|?]; [congruence|].
      destruct (decide (q = old)) as [->|?]; [congruence|].
      by rewrite <- Hframe.
    + intros q d Hq. simpl.
      destruct (Hfile q d Hq) as [Hin|[Hnin Hq']]; [left; by right|].
      destruct (decide (q = new)) as [->|?]; [left; by left|].
      destruct (decide (q = old)) as [->|?]; [congruence|].
      right. split; [|by rewrite <- Hframe].
      by apply not_elem_of_cons.
Qed.

End renames.

(** * Canonical entries *)

Section canonical.
Implicit Types (t : gmap (list ustring) Fs.node) (p q newp : list ustring).

Lemma change_of_inv t p c :
  RealEntry.change_of t p = Some c →
  c.1 = p ∧ c.1 ≠ c.2 ∧ (∃ data, t !! p = Some (Fs.File data)) ∧
  ∃ num6, extract_num6 (Fs.name p) = Some num6 ∧
          Fs.with_name p (num6 +:+ Str.lower (Fs.suffix p)) = Ok c.2.
Proof.
  unfold RealEntry.change_of, RealEntry.classify.
  destruct (Fs.is_symlink t p) eqn:Hl; [done|].
  destruct (Fs.is_file t p) eqn:Hf; [|done]. simpl.
  destruct (extract_num6 (Fs.name p)) as [num6|]; [|done].
  destruct (Fs.with_name p _) as [newp|] eqn:Hw; [|done].
  destruct (Str.eqb (Fs.name p) (Fs.name newp)) eqn:Hn; [done|].
  destruct (Fs.exists_ t newp); [done|]. intros [= <-]. simpl.
  split; [done|]. split; [|split; [by apply real_file|by exists num6]].
  intros ->. by rewrite str_eqb_refl in Hn.
Qed.

Lemma conflict_of_inv t p c :
  RealEntry.conflict_of t p = Some c →
  c.1 = p ∧ c.1 ≠ c.2 ∧ (∃ data, t !! p = Some (Fs.File data)) ∧
  Fs.exists_ t c.2 = true ∧
  ∃ num6, extract_num6 (Fs.name p) = Some num6 ∧
          Fs.with_name p (num6 +:+ Str.lower (Fs.suffix p)) = Ok c.2.
Proof.
  unfold RealEntry.conflict_of, RealEntry.classify.
  destruct (Fs.is_symlink t p) eqn:Hl; [done|].
  destruct (Fs.is_file t p) eqn:Hf; [|done]. simpl.
  destruct (extract_num6 (Fs.name p)) as [num6|]; [|done].
  destruct (Fs.with_name p _) as [newp|] eqn:Hw; [|done].
  destruct (Str.eqb (Fs.name p) (Fs.name newp)) eqn:Hn; [done|].
  destruct (Fs.exists_ t newp) eqn:He; [|done]. intros [= <-]. simpl.
  split; [done|]. split; [|split; [by apply real_file|split; [done|by exists num6]]].
  intros ->. by rewrite str_eqb_refl in Hn.
Qed.

(** A canonical entry is never queued. *)
Lemma canonical_no_change t p :
  RealEntry.canonical_entry p → RealEntry.change_of t p = None.
Proof.
  intros Hc. destruct (RealEntry.change_of t p) as [c|] eqn:E; [|done].
  destruct (change_of_inv _ _ _ E) as (<- & Hne & _ & num6 & Hn & Hw).
  specialize (Hc _ _ Hn Hw).
  destruct (with_name_inv _ _ _ Hw) as [Hc2 Hname].
  exfalso. apply Hne.
  rewrite Hc2, (path_split c.1) at 1 by (by apply name_nonempty).
  by rewrite Hc, Hc2, name_snoc.
Qed.


Lemma match_jpg_canonical num6 : Fs.match_jpg (num6 +:+ ".jpg") = true.
Proof. apply endswith_app. by exists num6. Qed.

(** The target of a queued rename is canonical. *)
Lemma target_canonical t p c :
  RealEntry.change_of t p = Some c → Fs.match_jpg (Fs.name p) = true →
  RealEntry.canonical_entry c.2.
Proof.
  intros Hch Hjpg.
  destruct (change_of_inv _ _ _ Hch) as (_ & _ & _ & num6 & Hn & Hw).
  destruct (extract_num6_Some _ _ Hn) as [Hd Hpad].
  rewrite (suffix_jpg p Hjpg Hd) in Hw.
  change (Str.lower ".jpg") with ".jpg"%ustring in Hw.
  destruct (with_name_inv _ _ _ Hw) as [Hc2 _].
  intros num6' newp' Hn' Hw'.
  rewrite Hc2 in Hn', Hw' |- *. rewrite name_snoc in Hn' |- *.
  rewrite (extract_num6_fixed _ _ Hn) in Hn'. injection Hn' as <-.
  assert (Str.has_digit (num6 +:+ ".jpg") = true) as Hd'.
  { pose proof (extract_num6_fixed _ _ Hn) as Hfix.
    by apply extract_num6_Some in Hfix as [? _]. }
  assert (Fs.suffix (Fs.parent p ++ [num6 +:+ ".jpg"]) = ".jpg"%ustring) as Hsfx.
  { apply suffix_jpg; rewrite name_snoc; [apply match_jpg_canonical|done]. }
  rewrite Hsfx in Hw'. change (Str.lower ".jpg") with ".jpg"%ustring in Hw'.
  destruct (with_name_inv _ _ _ Hw') as [-> _]. by rewrite parent_snoc, name_snoc.
Qed.

End canonical.

(** * Links with nothing left to do *)

Section settled.
Implicit Types (t : gmap (list ustring) Fs.node) (p q : list ustring)
  (s : link_state) (entries : list (list ustring)).

(** The verdict of step 2 depends on the entry itself, on which entries are
    regular files and on nothing else. *)
Lemma classify_same t t' p :
  Fs.same_but_links t t' → t' !! p = t !! p →
  LinkEntry.classify t' p = LinkEntry.classify t p.
Proof.
  intros Hsame Hp. unfold LinkEntry.classify, Fs.is_symlink, Fs.lstat, Fs.readlink.
  rewrite Hp. destruct (t !! p) as [[]|]; try done. simpl.
  destruct (extract_num6 (Fs.name p)); [|done].
  destruct (Fs.with_name p _) as [tc|]; [|done].
  by rewrite (same_but_links_plain t t' tc Hsame).
Qed.

Lemma classify_link t p rel :
  LinkEntry.classify t p = LinkEntry.Retarget rel →
  ∃ tgt, t !! p = Some (Fs.Symlink tgt) ∧ p ≠ [].
Proof.
  unfold LinkEntry.classify. intros Hv.
  destruct (Fs.is_symlink t p) eqn:Hl; [|done].
  destruct (readlink_link _ _ Hl) as (tgt & Hp & _). exists tgt. split; [done|].
  intros ->. by compute in Hv.
Qed.





End settled.

(** * A second run *)

Section second_run.
Implicit Types (t : gmap (list ustring) Fs.node) (root p q : list ustring) (w : world).

(** The queue of step 1 is one the rename loop can meet. *)
Lemma changes_sources_ok t root :
  RealEntry.sources_ok t (omap (RealEntry.change_of t) (Fs.rglob o t root)).
Proof.
  intros c [p [_ Hc]]%list_elem_of_omap.
  destruct (change_of_inv _ _ _ Hc) as (-> & Hne & [data Hp] & _).
  split; [done|]. right. by exists data.
Qed.



End second_run.

Section two_steps.
Implicit Types (t : gmap (list ustring) Fs.node) (root p q : list ustring) (w : world).

Lemma steps_eq root dry w :
  steps o root dry w =
  match normalize_real_files o root dry (World (w_fs w) (w_out w ++ [Step1 root dry])) with
  | (Ok r1, w2) =>
      match fix_symlinks o root dry (World (w_fs w2) (w_out w2 ++ [Step2 dry])) with
      | (Ok r2, w4) => (Ok (r1, r2), w4)
      | (Raise e, w4) => (Raise e, w4)
      end
  | (Raise e, w2) => (Raise e, w2)
  end.
Proof.
  unfold steps, bind, print, modify, ret. simpl.
  destruct (normalize_real_files o root dry _) as [[r1|e] w2]; [|done]. simpl.
  by destruct (fix_symlinks o root dry _) as [[r2|e] w4].
Qed.

(** A run with [--apply] that returns: the tree after step 1 and the tree at
    the end. *)
Lemma steps_apply_inv root w0 w1 r :
  steps o root false w0 = (Ok r, w1) →
  let t0 := w_fs w0 in
  ∃ t1,
    RealEntry.renames t0 (omap (RealEntry.change_of t0) (Fs.rglob o t0 root)) = Ok t1 ∧
    r.1 = (omap (RealEntry.change_of t0) (Fs.rglob o t0 root),
           omap (RealEntry.conflict_of t0) (Fs.rglob o t0 root)) ∧
    ∃ out,
      let s := LinkEntry.fold false (Fs.rglob o t1 root) (LinkState t1 out [] [] []) in
      r.2 = (ls_fixed s, ls_retargeted s, ls_broken s) ∧ w_fs w1 = ls_fs s.
Proof.
  intros H t0. rewrite steps_eq in H.
  destruct (normalize_real_files_apply root (World (w_fs w0) (w_out w0 ++ [Step1 root false])))
    as (w' & Hn & Hfs).
  simpl in Hn, Hfs. rewrite Hn in H. fold t0 in H, Hfs.
  destruct (RealEntry.renames t0 _) as [t1|e] eqn:Hren; [|done].
  exists t1. split; [done|].
  rewrite fix_symlinks_eq in H. simpl in H.
  rewrite (Hfs t1 eq_refl) in H.
  injection H as <- <-. split; [reflexivity|].
  eexists. split; reflexivity.
Qed.

(** A regular file that bears its canonical name is passed over by step 1:
    no record, no line. *)
Lemma canonical_file_skipped t p data num6 :
  t !! p = Some (Fs.File data) →
  extract_num6 (Fs.name p) = Some num6 → Fs.name p = num6 +:+ ".jpg" →
  RealEntry.classify t p = RealEntry.Skip.
Proof.
  intros Hp Hn Hname. unfold RealEntry.classify.
  assert (Fs.is_symlink t p = false) as ->
    by (unfold Fs.is_symlink, Fs.lstat; by rewrite Hp).
  assert (Fs.is_file t p = true) as ->
    by (unfold Fs.is_file, Fs.stat; by rewrite Hp).
  simpl. rewrite Hn.
  destruct (extract_num6_Some _ _ Hn) as [Hd _].
  rewrite suffix_jpg; [|rewrite Hname; apply match_jpg_canonical|done].
  change (Str.lower ".jpg") with ".jpg"%ustring.
  rewrite (with_name_canonical p num6 Hn), name_snoc, Hname.
  by rewrite str_eqb_refl.
Qed.

End two_steps.


(** One turn of step 2 on a [.jpg] link whose name has digits, in a
    directory where entries can be replaced when applying.  The canonical
    path is the canonical name in the directory of the link, and the relative
    path to it from there is that name.  The link is retargeted exactly when
    the canonical path exists, is a regular file and is not a link, and the
    current target differs from the relative path: it is removed and created
    again with the relative path as target (when applying; the preview only
    logs and records the retarget).  A link whose target is the relative path
    already is recorded as correct, and a link without such a file as broken,
    both without any change to the tree. *)
Lemma fix_symlinks_entry (dry : bool) (p : list ustring) (s : link_state)
    (tgt num6 : ustring) :
  ls_fs s !! p = Some (Fs.Symlink tgt) →
  Fs.match_jpg (Fs.name p) = true →
  extract_num6 (Fs.name p) = Some num6 →
  (dry = false → Fs.check_writable (ls_fs s) (Fs.parent p) = Ok tt) →
  let t := ls_fs s in
  let rel := num6 +:+ ".jpg" in
  let canonical := Fs.parent p ++ [rel] in
  Fs.relpath canonical (Fs.parent p) = rel ∧
  Link.entry dry p s =
  (Ok tt,
   if Fs.exists_ t canonical && Fs.is_file t canonical
      && negb (Fs.is_symlink t canonical)
   then
     if decide (tgt = rel)
     then LinkState t (ls_out s) (ls_fixed s ++ [p]) (ls_retargeted s) (ls_broken s)
     else LinkState (if dry then t else <[p := Fs.Symlink rel]> (delete p t))
                    (ls_out s ++ [RetargetLink p rel]) (ls_fixed s)
                    (ls_retargeted s ++ [(p, rel)]) (ls_broken s)
   else LinkState t (ls_out s ++ [BrokenLink p (Some tgt) canonical]) (ls_fixed s)
                  (ls_retargeted s) (ls_broken s ++ [(p, Some tgt, canonical)])).
Proof.
  intros Hp Hjpg Hnum Hw. cbv zeta.
  set (rel := num6 +:+ ".jpg"). set (canonical := Fs.parent p ++ [rel]).
  split; [apply relpath_sibling|].
  rewrite entry_eq. f_equal.
  destruct (extract_num6_Some _ _ Hnum) as [Hd _].
  assert (p ≠ []) as Hne.
  { apply name_nonempty. intros E. rewrite E in Hd. done. }
  assert (LinkEntry.classify (ls_fs s) p =
          if LinkEntry.plain (ls_fs s) canonical
          then if decide (Some tgt ≠ Some rel)
               then LinkEntry.Retarget rel else LinkEntry.Fixed
          else LinkEntry.Broken (Some tgt) canonical) as ->.
  { unfold LinkEntry.classify, Fs.is_symlink, Fs.lstat, Fs.readlink.
    rewrite Hp, Hnum. simpl.
    rewrite (suffix_jpg p Hjpg Hd). change (Str.lower ".jpg") with ".jpg"%ustring.
    rewrite (with_name_canonical p num6 Hnum), relpath_sibling. done. }
  unfold LinkEntry.plain.
  destruct (Fs.exists_ (ls_fs s) canonical && Fs.is_file (ls_fs s) canonical
            && negb (Fs.is_symlink (ls_fs s) canonical)); [|done].
  destruct (decide (tgt = rel)) as [->|Hdiff].
  - by rewrite decide_False by (by intros ?).
  - rewrite decide_True by congruence. simpl. destruct dry; [done|].
    rewrite (replace_link_eq _ _ _ tgt Hp Hne), (Hw eq_refl). done.
Qed.


(** * The summary *)

Section summary.
Implicit Types (w : world) (r : records).

Lemma print_examples (i : nat) (l : list (list ustring * option ustring * list ustring)) w :
  for_each (enumerate i l)
    (λ '(i, (link, cur, want)), print (BrokenExample i link cur want)) w =
  (Ok tt, World (w_fs w)
            (w_out w ++ imap (λ j b, BrokenExample (i + j) b.1.1 b.1.2 b.2) l)).
Proof.
  revert i w. induction l as [|[[link cur] want] l IH]; intros i w.
  - simpl. rewrite app_nil_r. by destruct w.
  - simpl. unfold bind at 1. unfold print at 1. unfold modify at 1.
    rewrite IH. simpl. rewrite <- app_assoc. simpl. rewrite Nat.add_0_r.
    do 4 f_equal. apply imap_ext. intros j b _. simpl. f_equal. lia.
Qed.

Lemma summary_eq r w :
  summary r.1.1 r.1.2 r.2.1.1 r.2.1.2 r.2.2 w =
  (Ok tt, World (w_fs w) (w_out w ++ summary_lines r)).
Proof.
  unfold summary, summary_lines, count_lines, example_lines.
  unfold bind, print at 1 2 3 4 5 6, modify. simpl.
  destruct r.2.2 as [|b broken] eqn:Hb.
  - unfold ret. by rewrite <- !app_assoc.
  - unfold print at 1. unfold modify. rewrite print_examples. simpl.
    by rewrite <- !app_assoc.
Qed.

Lemma example_lines_length r :
  length (example_lines r) = Nat.min 20 (length r.2.2).
Proof. unfold example_lines. by rewrite length_imap, length_take. Qed.

Lemma example_lines_lookup r i :
  example_lines r !! i =
  if decide (i < 20)%nat
  then (λ b, BrokenExample (S i) b.1.1 b.1.2 b.2) <$> r.2.2 !! i
  else None.
Proof.
  unfold example_lines. rewrite list_lookup_imap.
  destruct (decide (i < 20)%nat).
  - by rewrite lookup_take_lt.
  - by rewrite lookup_take_ge by lia.
Qed.

End summary.

(** C7.  A run that reaches its end prints, after everything the two steps
    printed, the summary: the five counts, each the length of the list of
    records it names, and then one example per broken link among the first 20
    found, numbered from 1 and giving the link, its target as read and the
    canonical path expected; no example is printed for a broken link found
    after the first 20. *)
Theorem main_summary (root : list ustring) (apply : bool) (w w' : world) :
  main o root apply w = (Ok tt, w') →
  ∃ r w1,
    steps o root (negb apply) w = (Ok r, w1) ∧
    w_fs w' = w_fs w1 ∧
    w_out w' = w_out w1 ++ summary_lines r ∧
    count_lines r =
      [ Count "Real file renames" (length r.1.1);
        Count "Real file conflicts (skipped)" (length r.1.2);
        Count "Symlinks already correct" (length r.2.1.1);
        Count "Symlinks retargeted" (length r.2.1.2);
        Count "Broken symlinks (missing targets)" (length r.2.2) ] ∧
    length (example_lines r) = Nat.min 20 (length r.2.2) ∧
    ∀ i, example_lines r !! i =
         if decide (i < 20)%nat
         then (λ b, BrokenExample (S i) b.1.1 b.1.2 b.2) <$> r.2.2 !! i
         else None.
Proof.
  unfold main. unfold bind at 1. unfold gets at 1.
  destruct (Fs.exists_ (w_fs w) root); simpl; [|done].
  unfold bind at 1. destruct (steps o root (negb apply) w) as [[r|e] w1]; [|done].
  rewrite summary_eq. intros [= <-].
  exists r, w1. split; [done|]. split; [done|]. split; [done|]. split; [done|].
  split; [apply example_lines_length|apply example_lines_lookup].
Qed.


(** * Canonical basenames *)

Section basenames.
Implicit Types (t : gmap (list ustring) Fs.node) (root p q : list ustring)
  (w : world) (s : link_state).

Lemma extract_num6_stem name r : extract_num6 name = Some r → canonical_stem r.
Proof.
  intros [_ Hpad]%extract_num6_Some.
  destruct (padded6_inv _ _ Hpad) as (Hall & Hv & Hlen & Hwide & _).
  split; [done|]. split; [done|]. intros Hl. apply Hwide in Hl. by rewrite Hv.
Qed.

Lemma with_name_canonical_for p num6 q :
  extract_num6 (Fs.name p) = Some num6 →
  Fs.with_name p (num6 +:+ Str.lower (Fs.suffix p)) = Ok q →
  canonical_for p q.
Proof.
  intros Hn Hw. exists num6. split; [done|]. split; [by eapply extract_num6_stem|].
  by apply with_name_inv in Hw as [? _].
Qed.

Lemma link_verdict_canonical t p :
  match LinkEntry.classify t p with
  | LinkEntry.Retarget rel =>
      ∃ q, canonical_for p q ∧ rel = Fs.relpath q (Fs.parent p)
  | LinkEntry.Broken _ tc => canonical_for p tc
  | _ => True
  end.
Proof.
  unfold LinkEntry.classify.
  destruct (Fs.is_symlink t p); [|done]. simpl.
  destruct (extract_num6 (Fs.name p)) as [num6|] eqn:Hn; [|done].
  destruct (Fs.with_name p _) as [tc|] eqn:Hw; [|done].
  pose proof (with_name_canonical_for _ _ _ Hn Hw).
  destruct (LinkEntry.plain t tc); [|done].
  destruct (decide _); [|done]. by exists tc.
Qed.

Lemma fold_canonical dry entries s :
  let P := λ c : list ustring * ustring,
    ∃ q, canonical_for c.1 q ∧ c.2 = Fs.relpath q (Fs.parent c.1) in
  let Q := λ b : list ustring * option ustring * list ustring,
    canonical_for b.1.1 b.2 in
  Forall P (ls_retargeted s) → Forall Q (ls_broken s) →
  Forall P (ls_retargeted (LinkEntry.fold dry entries s)) ∧
  Forall Q (ls_broken (LinkEntry.fold dry entries s)).
Proof.
  intros P Q. revert s. induction entries as [|p l IH]; intros s HP HQ; [done|].
  rewrite fold_cons. pose proof (link_verdict_canonical (ls_fs s) p) as Hv.
  apply IH; destruct (LinkEntry.classify (ls_fs s) p) as [| | | |rel|cur tc];
    simpl; try done.
  - destruct dry; [|destruct (LinkEntry.replace_link _ _ _)]; simpl; try done;
      apply Forall_app; split; try done; by apply Forall_singleton.
  - destruct dry; [|destruct (LinkEntry.replace_link _ _ _)]; simpl; done.
  - apply Forall_app; split; try done; by apply Forall_singleton.
Qed.

End basenames.

(** C8.  What [extract_num6] returns is a text of digits ['0'] to ['9'] only, of length at
    least 6, and longer than 6 only when the number it denotes exceeds
    999999; and the new path of every rename and conflict of step 1, the
    target of every retarget and the expected path of every broken link of
    step 2 is made of such a value: the canonical stem of the name of the
    entry followed by its suffix in lower case, in the directory of the
    entry. *)
Theorem canonical_basenames :
  (∀ name r, extract_num6 name = Some r →
     Str.all_ascii_digits r = true ∧ (6 ≤ Str.length r)%nat ∧
     ((6 < Str.length r)%nat → 999999 < Spec.value r)) ∧
  (∀ root dry w r w', normalize_real_files o root dry w = (Ok r, w') →
     Forall (λ c, canonical_for c.1 c.2) (r.1 ++ r.2)) ∧
  (∀ root dry w r w', fix_symlinks o root dry w = (Ok r, w') →
     Forall (λ c, ∃ q, canonical_for c.1 q ∧ c.2 = Fs.relpath q (Fs.parent c.1)) r.1.2 ∧
     Forall (λ b, canonical_for b.1.1 b.2) r.2).
Proof.
  split; [apply extract_num6_stem|]. split.
  - intros root dry w r w' H.
    assert (r = (omap (RealEntry.change_of (w_fs w)) (Fs.rglob o (w_fs w) root),
                 omap (RealEntry.conflict_of (w_fs w)) (Fs.rglob o (w_fs w) root))) as ->.
    { destruct dry.
      - destruct (normalize_real_files_dry root w) as [out' Hd]. congruence.
      - destruct (normalize_real_files_apply root w) as (w1 & Ha & _).
        rewrite Ha in H. destruct (RealEntry.renames _ _); congruence. }
    simpl. apply Forall_app. split; apply Forall_forall; intros c [p [_ Hc]]%list_elem_of_omap.
    + destruct (change_of_inv _ _ _ Hc) as (-> & _ & _ & num6 & Hn & Hw).
      by eapply with_name_canonical_for.
    + destruct (conflict_of_inv _ _ _ Hc) as (-> & _ & _ & _ & num6 & Hn & Hw).
      by eapply with_name_canonical_for.
  - intros root dry w r w' H. rewrite fix_symlinks_eq in H. injection H as <- _.
    simpl. by apply fold_canonical.
Qed.


(** * Preview and apply *)

Section preview.
Implicit Types (t : gmap (list ustring) Fs.node) (root p q : list ustring)
  (w : world) (s sa sd : link_state) (entries : list (list ustring)).

(** The preview of step 1 and of step 2 leave the tree alone. *)
Lemma normalize_real_files_dry_fs root w :
  w_fs (normalize_real_files o root true w).2 = w_fs w.
Proof. destruct (normalize_real_files_dry root w) as [out' ->]. done. Qed.





End preview.


(** * What each step leaves alone *)

Section frames.
Implicit Types (t : gmap (list ustring) Fs.node) (root p q : list ustring) (w : world).

(** Step 2 changes nothing but the targets of links. *)
Lemma fix_symlinks_frame root dry w q :
  Fs.is_symlink (w_fs w) q = false →
  w_fs (fix_symlinks o root dry w).2 !! q = w_fs w !! q.
Proof.
  intros Hq. rewrite fix_symlinks_eq. simpl.
  destruct (fold_frame dry (Fs.rglob o (w_fs w) root)
              (LinkState (w_fs w) (w_out w) [] [] [])) as [Hsame _].
  specialize (Hsame q). simpl in Hsame.
  unfold Fs.is_symlink, Fs.lstat in Hq.
  destruct (w_fs w !! q) as [[]|]; try done;
    by destruct (ls_fs _ !! q) as [[]|].
Qed.

(** Step 1 queues regular files only. *)
Lemma normalize_real_files_sources root dry w r w' c :
  normalize_real_files o root dry w = (Ok r, w') → c ∈ r.1 →
  ∃ data, w_fs w !! c.1 = Some (Fs.File data).
Proof.
  intros H Hc.
  assert (r.1 = omap (RealEntry.change_of (w_fs w)) (Fs.rglob o (w_fs w) root)) as Hr.
  { destruct dry.
    - destruct (normalize_real_files_dry root w) as [out' Hd]. rewrite Hd in H.
      by injection H as <- _.
    - destruct (normalize_real_files_apply root w) as (w1 & Ha & _).
      rewrite Ha in H. destruct (RealEntry.renames _ _); [|done]. by injection H as <- _. }
  rewrite Hr in Hc. apply list_elem_of_omap in Hc as (p & _ & Hc).
  by destruct (change_of_inv _ _ _ Hc) as (-> & _ & ? & _).
Qed.

(** No turn of the scan loop of step 1 and no turn of the loop of step 2
    raises: what goes wrong in a turn is logged and the loop goes on. *)
Lemma turns_never_raise :
  (∀ p (s : real_state), (Real.scan_entry p s).1 = Ok tt) ∧
  (∀ dry p (s : link_state), (Link.entry dry p s).1 = Ok tt) ∧
  (∀ root dry w, ∃ r, (fix_symlinks o root dry w).1 = Ok r).
Proof.
  split; [intros; by rewrite scan_entry_eq|].
  split; [intros; by rewrite entry_eq|].
  intros. rewrite fix_symlinks_eq. by eexists.
Qed.

End frames.

End any_order.
(** * The program on the example trees

    The walks yield the entries as the map lists them. *)

Lemma as_listed_lawful : Fs.lawful Fs.as_listed.
Proof. by intros t l. Qed.

(** C3 fails on the program.  A link whose target is missing, lying at the
    canonical path of a file, does not count as existing: no conflict is
    recorded, the rename is queued and replaces the link.  And two files with
    the same digits are both queued, since neither finds the canonical path
    taken during the scan; the second rename replaces the file the first has
    just put there, whose content is lost. *)
Lemma rename_replaces_existing_entry :
  (Fs.lstat Examples.dangling ["d"; "000001.jpg"] = Some (Fs.Symlink "missing") ∧
   ∃ w', normalize_real_files Fs.as_listed ["d"] false (World Examples.dangling []) =
           (Ok ([(["d"; "a1.jpg"], ["d"; "000001.jpg"])], []), w') ∧
         Fs.lstat (w_fs w') ["d"; "000001.jpg"] = Some (Fs.File "A") ∧
         Fs.lstat (w_fs w') ["d"; "a1.jpg"] = None) ∧
  (∃ w', normalize_real_files Fs.as_listed ["d"] false (World Examples.twins []) =
           (Ok ([(["d"; "b1.jpg"], ["d"; "000001.jpg"]);
                 (["d"; "a1.jpg"], ["d"; "000001.jpg"])], []), w') ∧
         map_to_list (w_fs w') =
           [(["d"], Fs.Dir true); (["d"; "000001.jpg"], Fs.File "A"); ([], Fs.Dir true)]).
Proof.
  split.
  - split; [vm_compute; reflexivity|].
    exists (normalize_real_files Fs.as_listed ["d"] false (World Examples.dangling [])).2.
    split; [vm_compute; reflexivity|]. split; vm_compute; reflexivity.
  - exists (normalize_real_files Fs.as_listed ["d"] false (World Examples.twins [])).2.
    split; vm_compute; reflexivity.
Qed.

(** C4 fails on the program.  In a directory that cannot be written the
    first rename of the queue raises; the rename loop has no handler, so the
    exception leaves [normalize_real_files] and [main]: nothing is logged for
    the entry, step 2 does not run and no summary is printed. *)
Lemma rename_error_aborts :
  ∃ w', main Fs.as_listed ["d"] true (World Examples.readonly []) =
          (Raise (OSError "EACCES"), w') ∧
        w_out w' = [Step1 ["d"] false;
                    RenameReal ["d"; "a1.jpg"] ["d"; "000001.jpg"]] ∧
        w_fs w' = Examples.readonly.
Proof.
  exists (main Fs.as_listed ["d"] true (World Examples.readonly [])).2.
  split; [vm_compute; reflexivity|]. split; vm_compute; reflexivity.
Qed.

(** C10 fails on the program.  Step 1 removes a link: the link at the
    canonical path of a file it renames, when the target of the link is
    missing. *)
Lemma step1_replaces_link :
  Fs.is_symlink Examples.shadowed ["set"; "000007.jpg"] = true ∧
  ∃ w', normalize_real_files Fs.as_listed ["set"] false (World Examples.shadowed []) =
          (Ok ([(["set"; "x7.jpg"], ["set"; "000007.jpg"])], []), w') ∧
        Fs.lstat (w_fs w') ["set"; "000007.jpg"] = Some (Fs.File "X").
Proof.
  split; [vm_compute; reflexivity|].
  exists (normalize_real_files Fs.as_listed ["set"] false (World Examples.shadowed [])).2.
  split; vm_compute; reflexivity.
Qed.


(** The three failures above do not depend on the order of the walk. *)
Section every_order.
Context (o : Fs.walk_order) (Hlawful : Fs.lawful o).

Lemma changes_of_tree (t : gmap (list ustring) Fs.node) (root : list ustring)
    (l : list (list ustring * list ustring)) :
  omap (RealEntry.change_of t) (Fs.matches t root) = l →
  omap (RealEntry.change_of t) (Fs.rglob o t root) ≡ₚ l.
Proof. intros <-. unfold Fs.rglob. by rewrite (Hlawful _ _). Qed.

Lemma dangling_link_replaced :
  ∃ w', normalize_real_files o ["d"] false (World Examples.dangling []) =
          (Ok ([(["d"; "a1.jpg"], ["d"; "000001.jpg"])], []), w') ∧
        Fs.lstat (w_fs w') ["d"; "000001.jpg"] = Some (Fs.File "A").
Proof.
  destruct (normalize_real_files_apply o ["d"] (World Examples.dangling []))
    as (w' & Hn & Hfs).
  cbn [w_fs] in Hn, Hfs.
  assert (omap (RealEntry.change_of Examples.dangling) (Fs.rglob o Examples.dangling ["d"])
          = [(["d"; "a1.jpg"], ["d"; "000001.jpg"])]) as Hch.
  { apply Permutation_singleton_r, changes_of_tree. vm_compute. reflexivity. }
  assert (omap (RealEntry.conflict_of Examples.dangling) (Fs.rglob o Examples.dangling ["d"])
          = []) as Hcf.
  { apply Permutation_nil_r. unfold Fs.rglob. rewrite (Hlawful _ _).
    vm_compute. reflexivity. }
  rewrite Hch, Hcf in Hn. rewrite Hch in Hfs.
  exists w'. split; [exact Hn|].
  rewrite (Hfs _ eq_refl). vm_compute. reflexivity.
Qed.

Lemma twin_overwritten :
  ∃ r w' data,
    normalize_real_files o ["d"] false (World Examples.twins []) = (Ok r, w') ∧
    length r.1 = 2%nat ∧ r.2 = [] ∧
    map_to_list (w_fs w') =
      [(["d"], Fs.Dir true); (["d"; "000001.jpg"], Fs.File data); ([], Fs.Dir true)].
Proof.
  destruct (normalize_real_files_apply o ["d"] (World Examples.twins []))
    as (w' & Hn & Hfs).
  cbn [w_fs] in Hn, Hfs.
  assert (omap (RealEntry.conflict_of Examples.twins) (Fs.rglob o Examples.twins ["d"])
          = []) as Hcf.
  { apply Permutation_nil_r. unfold Fs.rglob. rewrite (Hlawful _ _).
    vm_compute. reflexivity. }
  pose proof (changes_of_tree Examples.twins ["d"] _ eq_refl) as Hch.
  vm_compute (omap _ (Fs.matches _ _)) in Hch.
  symmetry in Hch. apply Permutation_length_2_inv in Hch as [Hch|Hch];
    rewrite Hch, Hcf in Hn; rewrite Hch in Hfs.
  - eexists _, w', _. split; [exact Hn|]. split; [reflexivity|]. split; [reflexivity|].
    rewrite (Hfs _ eq_refl). vm_compute. reflexivity.
  - eexists _, w', _. split; [exact Hn|]. split; [reflexivity|]. split; [reflexivity|].
    rewrite (Hfs _ eq_refl). vm_compute. reflexivity.
Qed.

Lemma readonly_aborts :
  (main o ["d"] true (World Examples.readonly [])).1 = Raise (OSError "EACCES").
Proof.
  unfold main. unfold bind at 1. unfold gets at 1.
  change (Fs.exists_ (w_fs (World Examples.readonly [])) ["d"]) with true.
  cbv beta iota. change (negb true) with false. cbv iota.
  unfold bind at 1. rewrite steps_eq.
  destruct (normalize_real_files_apply o ["d"]
              (World (w_fs (World Examples.readonly []))
                     (w_out (World Examples.readonly []) ++ [Step1 ["d"] false])))
    as (w' & Hn & _).
  cbn [w_fs w_out] in Hn |- *.
  assert (omap (RealEntry.change_of Examples.readonly) (Fs.rglob o Examples.readonly ["d"])
          = [(["d"; "a1.jpg"], ["d"; "000001.jpg"])]) as Hch.
  { apply Permutation_singleton_r, changes_of_tree. vm_compute. reflexivity. }
  rewrite Hch in Hn.
  change (RealEntry.renames Examples.readonly [(["d"; "a1.jpg"], ["d"; "000001.jpg"])])
    with (@Raise (gmap (list ustring) Fs.node) (OSError "EACCES")) in Hn.
  by rewrite Hn.
Qed.

Lemma shadowed_link_replaced :
  ∃ w', normalize_real_files o ["set"] false (World Examples.shadowed []) =
          (Ok ([(["set"; "x7.jpg"], ["set"; "000007.jpg"])], []), w') ∧
        Fs.lstat (w_fs w') ["set"; "000007.jpg"] = Some (Fs.File "X").
Proof.
  destruct (normalize_real_files_apply o ["set"] (World Examples.shadowed []))
    as (w' & Hn & Hfs).
  cbn [w_fs] in Hn, Hfs.
  assert (omap (RealEntry.change_of Examples.shadowed) (Fs.rglob o Examples.shadowed ["set"])
          = [(["set"; "x7.jpg"], ["set"; "000007.jpg"])]) as Hch.
  { apply Permutation_singleton_r, changes_of_tree. vm_compute. reflexivity. }
  assert (omap (RealEntry.conflict_of Examples.shadowed) (Fs.rglob o Examples.shadowed ["set"])
          = []) as Hcf.
  { apply Permutation_nil_r. unfold Fs.rglob. rewrite (Hlawful _ _).
    vm_compute. reflexivity. }
  rewrite Hch, Hcf in Hn. rewrite Hch in Hfs.
  exists w'. split; [exact Hn|].
  rewrite (Hfs _ eq_refl). vm_compute. reflexivity.
Qed.

End every_order.

(** * Examples of the specification *)

Example extract_num6_v0_63 : extract_num6 "v0_63.jpg" = Some "000063"%ustring.
Proof. reflexivity. Qed.

Example extract_num6_photo : extract_num6 "photo.jpg" = None.
Proof. reflexivity. Qed.

Example extract_num6_wide : extract_num6 "12_345678.jpg" = Some "12345678"%ustring.
Proof. reflexivity. Qed.

(** A link named [000099.jpg] is its own canonical path, hence broken. *)
Example link_with_canonical_name :
  LinkEntry.classify
    (<[ ["d"; "000099.jpg"] := Fs.Symlink "x.jpg" ]> Examples.linked)
    ["d"; "000099.jpg"]
  = LinkEntry.Broken (Some "x.jpg"%ustring) ["d"; "000099.jpg"].
Proof. vm_compute. reflexivity. Qed.

(** * Instances of the theorems *)

Lemma fix_symlinks_entry_witness :
  let s := LinkState (<[ ["d"; "000001.jpg"] := Fs.File "A" ]> Examples.linked)
                     [] [] [] [] in
  Link.entry false ["d"; "v1.jpg"] s =
  (Ok tt,
   LinkState (<[ ["d"; "v1.jpg"] := Fs.Symlink "000001.jpg" ]>
                (delete ["d"; "v1.jpg"] (ls_fs s)))
             [RetargetLink ["d"; "v1.jpg"] "000001.jpg"] []
             [(["d"; "v1.jpg"], "000001.jpg"%ustring)] []).
Proof.
  intros s.
  refine (proj2 (fix_symlinks_entry false ["d"; "v1.jpg"] s "a1.jpg" "000001" _ _ _ _)).
  - vm_compute. reflexivity.
  - vm_compute. reflexivity.
  - vm_compute. reflexivity.
  - intros _. vm_compute. reflexivity.
Defined.

Lemma main_summary_witness :
  let w := World Examples.many_broken [] in
  ∃ r w1,
    steps Fs.as_listed ["d"] true w = (Ok r, w1) ∧
    length r.2.2 = 21%nat ∧
    length (example_lines r) = 20%nat ∧
    w_out (main Fs.as_listed ["d"] false w).2 = w_out w1 ++ summary_lines r.
Proof.
  intros w.
  destruct (main_summary Fs.as_listed ["d"] false w (main Fs.as_listed ["d"] false w).2)
    as (r & w1 & Hsteps & _ & Hout & _ & Hlen & _).
  { vm_compute. reflexivity. }
  exists r, w1. split; [exact Hsteps|].
  assert (length r.2.2 = 21%nat) as H21.
  { change (negb false) with true in Hsteps.
    assert ((steps Fs.as_listed ["d"] true w).1 = Ok r) as E by (by rewrite Hsteps).
    vm_compute in E. injection E as <-. reflexivity. }
  split; [exact H21|]. split; [|exact Hout].
  rewrite Hlen, H21. reflexivity.
Defined.

Lemma canonical_basenames_witness :
  canonical_stem "000063" ∧
  Forall (λ c, canonical_for c.1 c.2)
    [(["d"; "a1.jpg"], ["d"; "000001.jpg"])].
Proof.
  destruct (canonical_basenames Fs.as_listed) as (H1 & H2 & _). split.
  - apply (H1 "v0_63.jpg"%ustring). vm_compute. reflexivity.
  - apply (H2 ["d"] false (World Examples.linked [])
              ([(["d"; "a1.jpg"], ["d"; "000001.jpg"])], [])
              (normalize_real_files Fs.as_listed ["d"] false (World Examples.linked [])).2).
    vm_compute. reflexivity.
Defined.


Lemma extract_num6_canonical_witness :
  ∃ runs r, Spec.maximal_runs "v0_63.jpg" runs ∧
            extract_num6 "v0_63.jpg" = Some r ∧
            Spec.is_padded6 (Spec.value (Str.join runs)) r.
Proof.
  pose proof (extract_num6_canonical "v0_63.jpg") as H.
  change (Str.has_digit "v0_63.jpg") with true in H. cbv beta iota zeta in H.
  destruct H as (runs & Hruns & _ & _ & H).
  pose proof (maximal_runs_unique _ _ Hruns) as E. rewrite E in H.
  change (Py.int_max_str_digits <? _) with false in H. cbv beta iota zeta in H.
  destruct H as (r & Hr & Hpad & _).
  exists runs, r. rewrite E. split; [rewrite <- E; exact Hruns|].
  split; [exact Hr|exact Hpad].
Defined.


(** * More on [extract_num6] *)

Section digits.
Implicit Types (s r cur pre post name : ustring).

Lemma only_digits_junk s : Str.has_digit s = false → only_digits s = UEmpty.
Proof.
  induction s as [|c s IH]; [done|]. simpl.
  intros [-> Hs]%orb_false_iff. by apply IH.
Qed.

Lemma only_digits_all s : Str.all_digits s = true → only_digits s = s.
Proof.
  induction s as [|c s IH]; [done|]. simpl.
  intros [-> Hs]%andb_true_iff. by rewrite IH.
Qed.

Lemma only_digits_app s r : only_digits (s +:+ r) = only_digits s +:+ only_digits r.
Proof.
  induction s as [|c s IH]; [done|]. rewrite str_app_cons. simpl.
  destruct (Str.is_digit c); [|done]. by rewrite IH.
Qed.

Lemma has_digit_only_digits s : Str.has_digit (only_digits s) = Str.has_digit s.
Proof.
  induction s as [|c s IH]; [done|]. simpl.
  destruct (Str.is_digit c) eqn:Hc; simpl; by rewrite ?Hc, IH.
Qed.

Lemma format_06d_value n : 0 ≤ n → Spec.value (Py.format_06d n) = n.
Proof.
  intros Hn. by destruct (padded6_inv _ _ (format_06d_padded n Hn)) as (_ & ? & _).
Qed.

Lemma value_only_digits_nonneg s : 0 ≤ Spec.value (only_digits s).
Proof.
  rewrite <- join_digit_runs. apply value_bounds, join_runs_digits.
Qed.

End digits.

(** X1.  Two names with digits, neither with more of them than [int] reads,
    get the same canonical name exactly when their digits, read in order,
    denote the same number: what is not a digit, the script of a digit and
    leading zeros make no difference. *)
Theorem extract_num6_same_number (a b : ustring) :
  Str.has_digit a = true → Str.has_digit b = true →
  Z.of_nat (Str.length (only_digits a)) ≤ Py.int_max_str_digits →
  Z.of_nat (Str.length (only_digits b)) ≤ Py.int_max_str_digits →
  extract_num6 a = extract_num6 b ↔
  Spec.value (only_digits a) = Spec.value (only_digits b).
Proof.
  intros Ha Hb Hla Hlb. rewrite !extract_num6_eq, Ha, Hb, !join_digit_runs.
  replace (Py.int_max_str_digits <? Z.of_nat (Str.length (only_digits a)))
    with false by (symmetry; apply Z.ltb_ge; lia).
  replace (Py.int_max_str_digits <? Z.of_nat (Str.length (only_digits b)))
    with false by (symmetry; apply Z.ltb_ge; lia).
  split.
  - intros [= H]. apply (f_equal Spec.value) in H.
    by rewrite !format_06d_value in H by apply value_only_digits_nonneg.
  - by intros ->.
Qed.

(** [v0_63.jpg] and the name that writes 063 in Arabic-Indic digits. *)
Lemma extract_num6_same_number_witness :
  extract_num6 "v0_63.jpg"
  = extract_num6 (UString 1632 (UString 1638 (UString 1635 ".jpg"))).
Proof.
  apply (extract_num6_same_number "v0_63.jpg"
           (UString 1632 (UString 1638 (UString 1635 ".jpg"))));
    vm_compute; first [reflexivity | discriminate].
Defined.

(** X2.  The canonical stem denotes the number the digits of the name denote:
    [int] reads it back, for it is within the limit of [int] as the digits of
    the name were.  And it is a fixed point: a name made of the stem, with
    text without digits before and after it, has that stem again. *)
Theorem extract_num6_round_trip (name r pre post : ustring) :
  extract_num6 name = Some r →
  Str.has_digit pre = false → Str.has_digit post = false →
  Py.int r = Ok (Spec.value (only_digits name)) ∧
  extract_num6 (pre +:+ r +:+ post) = Some r.
Proof.
  intros H Hpre Hpost.
  destruct (extract_num6_Some _ _ H) as [Hd Hpad].
  destruct (extract_num6_within _ _ H) as [Hlim Hlimr].
  destruct (padded6_inv _ _ Hpad) as (Hall & Hv & Hlen & _ & _).
  rewrite join_digit_runs in Hv, Hlim.
  assert (r ≠ UEmpty) as Hne by (intros ->; simpl in Hlen; lia).
  pose proof (all_ascii_all_digits r Hall) as Hall'.
  split; [by rewrite int_value, Hv|].
  rewrite extract_num6_eq, !has_digit_app, Hpre, Hpost, orb_false_r. simpl.
  rewrite (has_digit_ascii r Hall Hne).
  rewrite join_digit_runs, !only_digits_app, (only_digits_junk pre), (only_digits_junk post),
    (only_digits_all r), str_app_nil_r by done.
  rewrite str_app_nil_l, Hv.
  replace (Py.int_max_str_digits <? Z.of_nat (Str.length r))
    with false by (symmetry; apply Z.ltb_ge; lia).
  rewrite extract_num6_eq, Hd, join_digit_runs in H.
  by destruct (Py.int_max_str_digits <? Z.of_nat (Str.length (only_digits name))).
Qed.

Lemma extract_num6_round_trip_witness :
  Py.int "000063" = Ok 63 ∧ extract_num6 "img_000063.jpg" = Some "000063"%ustring.
Proof.
  apply (extract_num6_round_trip "v0_63.jpg" "000063" "img_" ".jpg");
    vm_compute; reflexivity.
Defined.

(** * More on one turn of step 2 *)





(** X5.  When applying in a directory that cannot be written, a link that would be
    retargeted is left as it is: the retarget is announced, the error of the
    refused removal is logged for the link, nothing is recorded, and the loop
    goes on. *)
Theorem fix_symlinks_entry_unwritable (p : list ustring) (s : link_state)
    (tgt num6 : ustring) (e : exn) :
  ls_fs s !! p = Some (Fs.Symlink tgt) →
  Fs.match_jpg (Fs.name p) = true →
  extract_num6 (Fs.name p) = Some num6 →
  (∃ data, ls_fs s !! (Fs.parent p ++ [num6 +:+ ".jpg"]) = Some (Fs.File data)) →
  tgt ≠ num6 +:+ ".jpg" →
  Fs.check_writable (ls_fs s) (Fs.parent p) = Raise e →
  Link.entry false p s =
  (Ok tt, LinkState (ls_fs s)
            (ls_out s ++ [RetargetLink p (num6 +:+ ".jpg"); ErrorLink p e])
            (ls_fixed s) (ls_retargeted s) (ls_broken s)).
Proof.
  intros Hp Hjpg Hn Hfile Hdiff Hw.
  destruct (extract_num6_Some _ _ Hn) as [Hd _].
  assert (p ≠ []) as Hne by (apply name_nonempty; intros E; by rewrite E in Hd).
  rewrite entry_eq. f_equal.
  unfold LinkEntry.classify, Fs.is_symlink, Fs.lstat, Fs.readlink.
  rewrite Hp, Hn. simpl.
  rewrite (suffix_jpg p Hjpg Hd). change (Str.lower ".jpg") with ".jpg"%ustring.
  rewrite (with_name_canonical p num6 Hn), relpath_sibling.
  apply plain_file in Hfile. rewrite Hfile.
  rewrite decide_True by congruence. simpl.
  by rewrite (replace_link_eq _ _ _ tgt Hp Hne), Hw.
Qed.

Lemma fix_symlinks_entry_unwritable_witness :
  let t := <[ ["d"; "v1.jpg"] := Fs.Symlink "a1.jpg" ]>
             (<[ ["d"; "000001.jpg"] := Fs.File "A" ]> Examples.readonly) in
  Link.entry false ["d"; "v1.jpg"] (LinkState t [] [] [] []) =
  (Ok tt, LinkState t
            [RetargetLink ["d"; "v1.jpg"] "000001.jpg";
             ErrorLink ["d"; "v1.jpg"] (OSError "EACCES")] [] [] []).
Proof.
  intros t.
  apply (fix_symlinks_entry_unwritable ["d"; "v1.jpg"] (LinkState t [] [] [] [])
           "a1.jpg" "000001" (OSError "EACCES")).
  - vm_compute. reflexivity.
  - vm_compute. reflexivity.
  - vm_compute. reflexivity.
  - exists "A"%string. vm_compute. reflexivity.
  - discriminate.
  - vm_compute. reflexivity.
Defined.

(** * More on step 2 as a whole *)

Section links.
Context (o : Fs.walk_order) (Hlawful : Fs.lawful o).

(** What a verdict to retarget rests on. *)
Lemma classify_retarget_inv (t : gmap (list ustring) Fs.node) p rel :
  LinkEntry.classify t p = LinkEntry.Retarget rel →
  ∃ tgt num6 q data,
    t !! p = Some (Fs.Symlink tgt) ∧ p ≠ [] ∧
    extract_num6 (Fs.name p) = Some num6 ∧
    Fs.with_name p (num6 +:+ Str.lower (Fs.suffix p)) = Ok q ∧
    t !! q = Some (Fs.File data) ∧ rel = Fs.relpath q (Fs.parent p) ∧ tgt ≠ rel.
Proof.
  intros Hv. destruct (classify_link _ _ _ Hv) as (tgt & Hp & Hne).
  revert Hv. unfold LinkEntry.classify, Fs.is_symlink, Fs.lstat, Fs.readlink.
  rewrite Hp. simpl.
  destruct (extract_num6 (Fs.name p)) as [num6|]; [|done].
  destruct (Fs.with_name p _) as [q|] eqn:Hq; [|done].
  destruct (LinkEntry.plain t q) eqn:Hplain; [|done].
  apply plain_file in Hplain as [data Hdata].
  destruct (decide _) as [Hd|]; [|done]. intros [= <-].
  exists tgt, num6, q, data. repeat split; try done. congruence.
Qed.

(** What one turn does to the tree and to the retargets. *)
Lemma record_cases dry p (s : link_state) :
  let s' := LinkEntry.record dry p (LinkEntry.classify (ls_fs s) p) s in
  (ls_fs s' = ls_fs s ∧ ls_retargeted s' = ls_retargeted s) ∨
  ∃ rel, LinkEntry.classify (ls_fs s) p = LinkEntry.Retarget rel ∧
         ls_retargeted s' = ls_retargeted s ++ [(p, rel)] ∧
         ls_fixed s' = ls_fixed s ∧ ls_broken s' = ls_broken s ∧
         ls_fs s' = if dry then ls_fs s else <[p := Fs.Symlink rel]> (delete p (ls_fs s)).
Proof.
  destruct (LinkEntry.classify (ls_fs s) p) as [| | | |rel|] eqn:Hc; simpl;
    try (by left).
  destruct dry; simpl; [right; by exists rel|].
  destruct (classify_link _ _ _ Hc) as (tgt & Ht & Hne).
  rewrite (replace_link_eq _ _ _ tgt Ht Hne).
  destruct (Fs.check_writable (ls_fs s) (Fs.parent p)); simpl; [|by left].
  right. by exists rel.
Qed.

(** The loop keeps this: what is not recorded as retargeted is as in the tree
    [t0] the pass began with, and what is recorded names its canonical file. *)
Lemma fold_retargeted t0 entries (s : link_state) :
  (∀ q, q ∉ (fst <$> ls_retargeted s) → ls_fs s !! q = t0 !! q) →
  (∀ c, c ∈ ls_retargeted s → retargeted_to t0 (ls_fs s) c.1 c.2) →
  let s' := LinkEntry.fold false entries s in
  (∀ q, q ∉ (fst <$> ls_retargeted s') → ls_fs s' !! q = t0 !! q) ∧
  (∀ c, c ∈ ls_retargeted s' → retargeted_to t0 (ls_fs s') c.1 c.2).
Proof.
  revert s. induction entries as [|p l IH]; intros s Hrest Hgood; [done|].
  cbv zeta. rewrite fold_cons. apply IH; clear IH.
  - destruct (record_cases false p s) as [[-> ->]|(rel & Hc & -> & _ & _ & ->)];
      [done|].
    intros q Hq. rewrite fmap_app, not_elem_of_app in Hq. destruct Hq as [Hq Hqp].
    simpl in Hqp. apply not_elem_of_cons in Hqp as [Hqp _].
    rewrite lookup_insert_ne, lookup_delete_ne by done. by apply Hrest.
  - destruct (record_cases false p s) as [[-> ->]|(rel & Hc & -> & _ & _ & ->)];
      [done|].
    destruct (classify_retarget_inv _ _ _ Hc)
      as (tgt & num6 & q & data & Hp & Hne & Hn & Hq & Hdata & Hrel & Hdiff).
    assert (q ≠ p) as Hqp by congruence.
    assert (p ∉ (fst <$> ls_retargeted s)) as Hfresh.
    { intros ((p0 & rel0) & E & Hin)%list_elem_of_fmap. simpl in E. subst p0.
      destruct (Hgood _ Hin) as (Hnow & _ & num6' & q' & data' & Hn' & Hq' & Hrel' & _).
      simpl in *. rewrite Hn in Hn'. injection Hn' as <-.
      rewrite Hq in Hq'. injection Hq' as <-. congruence. }
    intros c [Hc'|Hc']%elem_of_app.
    + destruct (Hgood _ Hc') as (Hnow & Hwas & num6' & q' & data' & Hn' & Hq' & Hrel' & Hd').
      assert (c.1 ≠ p) as Hcp.
      { intros E. apply Hfresh. apply list_elem_of_fmap. by exists c. }
      split; [by rewrite lookup_insert_ne, lookup_delete_ne|]. split; [done|].
      exists num6', q', data'. repeat split; try done.
      rewrite lookup_insert_ne, lookup_delete_ne; [done| |]; congruence.
    + apply list_elem_of_singleton in Hc' as ->. simpl.
      split; [by rewrite lookup_insert_eq|]. split.
      * exists tgt. split; [|done]. by rewrite <- Hrest.
      * exists num6, q, data. repeat split; try done.
        by rewrite lookup_insert_ne, lookup_delete_ne.
Qed.

Lemma fold_retargeted_start root (w : world) :
  let s' := LinkEntry.fold false (Fs.rglob o (w_fs w) root)
              (LinkState (w_fs w) (w_out w) [] [] []) in
  (∀ q, q ∉ (fst <$> ls_retargeted s') → ls_fs s' !! q = w_fs w !! q) ∧
  (∀ c, c ∈ ls_retargeted s' → retargeted_to (w_fs w) (ls_fs s') c.1 c.2).
Proof.
  apply fold_retargeted; simpl; [done|]. intros c Hc. by apply elem_of_nil in Hc.
Qed.

(** The name a link is retargeted to is a plain name: no slash, not empty,
    neither [.] nor [..]. *)
Lemma canonical_component p num6 q :
  extract_num6 (Fs.name p) = Some num6 →
  Fs.with_name p (num6 +:+ Str.lower (Fs.suffix p)) = Ok q →
  let n := Fs.relpath q (Fs.parent p) in
  q = Fs.parent p ++ [n] ∧ Fs.has_slash n = false ∧
  Str.eqb n UEmpty || Str.eqb n "." = false ∧ Str.eqb n ".." = false.
Proof.
  intros Hn Hq. destruct (with_name_inv _ _ _ Hq) as [-> _].
  rewrite relpath_sibling. simpl. split; [done|].
  revert Hq. unfold Fs.with_name. destruct (Str.eqb (Fs.name p) _); [done|].
  destruct (Str.eqb _ UEmpty) eqn:E1; [done|].
  destruct (Fs.has_slash _) eqn:E2; [done|].
  destruct (Str.eqb _ ".") eqn:E3; [done|]. intros _.
  split; [done|]. split; [done|].
  destruct (extract_num6_stem _ _ Hn) as (Hall & Hlen & _).
  destruct num6 as [|c r]; [simpl in Hlen; lia|].
  simpl in Hall. apply andb_prop in Hall as [Hc _].
  rewrite str_app_cons. simpl.
  destruct (N.eqb_spec c 46); [subst c; by compute in Hc|done].
Qed.

Lemma split_slash_plain cur s :
  Fs.has_slash s = false → Fs.split_slash cur s = [cur +:+ s].
Proof.
  revert cur. induction s as [|c r IH]; intros cur Hs; simpl.
  - by rewrite str_app_nil_r.
  - simpl in Hs. apply orb_false_elim in Hs as [Hc Hr]. rewrite Hc.
    rewrite IH by done. by rewrite str_app_assoc.
Qed.

Lemma is_absolute_slash s : Fs.has_slash s = false → Fs.is_absolute s = false.
Proof. destruct s as [|c r]; [done|]. simpl. by intros [? _]%orb_false_elim. Qed.

(** A link to a plain name resolves to the entry of that name beside it. *)
Lemma stat_sibling (t : gmap (list ustring) Fs.node) p n data :
  t !! p = Some (Fs.Symlink n) → Fs.has_slash n = false →
  Str.eqb n UEmpty || Str.eqb n "." = false → Str.eqb n ".." = false →
  t !! (Fs.parent p ++ [n]) = Some (Fs.File data) →
  Fs.stat t p = Some (Fs.File data).
Proof.
  intros Hp Hs H1 H2 Hfile. unfold Fs.stat. rewrite Hp.
  rewrite (is_absolute_slash n Hs), (split_slash_plain _ n Hs), str_app_nil_l.
  change 40%nat with (S 39). cbn [Fs.follow]. rewrite H1, H2, Hfile. by rewrite Hfile.
Qed.


(** X7.  After an applied [fix_symlinks] every link reported as retargeted named
    something else before, names its canonical name now, and resolves to the
    regular file of that name in its own directory, which was there before
    the pass. *)
Theorem retargeted_links_resolve (root : list ustring) (w w' : world)
    (r : list (list ustring) * list (list ustring * ustring)
         * list (list ustring * option ustring * list ustring))
    (p : list ustring) (rel : ustring) :
  fix_symlinks o root false w = (Ok r, w') → (p, rel) ∈ r.1.2 →
  (∃ tgt, w_fs w !! p = Some (Fs.Symlink tgt) ∧ tgt ≠ rel) ∧
  w_fs w' !! p = Some (Fs.Symlink rel) ∧
  ∃ data, w_fs w !! (Fs.parent p ++ [rel]) = Some (Fs.File data) ∧
          w_fs w' !! (Fs.parent p ++ [rel]) = Some (Fs.File data) ∧
          Fs.stat (w_fs w') p = Some (Fs.File data).
Proof.
  rewrite fix_symlinks_eq. intros [= <- <-] Hin. simpl in *.
  destruct (fold_retargeted_start root w) as [_ Hgood].
  destruct (Hgood _ Hin) as (Hnow & Hwas & num6 & q & data & Hn & Hq & Hrel & Hdata).
  simpl in *.
  destruct (canonical_component _ _ _ Hn Hq) as (Hqq & Hs & H1 & H2).
  simpl in *. rewrite <- Hrel in *. subst q.
  split; [done|]. split; [done|]. exists data. split; [|split; [done|]].
  - eapply same_but_links_file; [|exact Hdata].
    apply (fold_frame false _ (LinkState (w_fs w) (w_out w) [] [] [])).
  - by apply stat_sibling with rel.
Qed.

End links.

Lemma retargeted_links_resolve_witness :
  let w := World (<[ ["d"; "000001.jpg"] := Fs.File "A" ]> Examples.linked) [] in
  let w' := (fix_symlinks Fs.as_listed ["d"] false w).2 in
  (∃ tgt, w_fs w !! ["d"; "v1.jpg"] = Some (Fs.Symlink tgt) ∧ tgt ≠ "000001.jpg"%ustring) ∧
  w_fs w' !! ["d"; "v1.jpg"] = Some (Fs.Symlink "000001.jpg") ∧
  ∃ data, w_fs w !! ["d"; "000001.jpg"] = Some (Fs.File data) ∧
          w_fs w' !! ["d"; "000001.jpg"] = Some (Fs.File data) ∧
          Fs.stat (w_fs w') ["d"; "v1.jpg"] = Some (Fs.File data).
Proof.
  intros w w'.
  apply (retargeted_links_resolve Fs.as_listed ["d"] w w'
           ([], [(["d"; "v1.jpg"], "000001.jpg"%ustring)], [])
           ["d"; "v1.jpg"] "000001.jpg").
  - vm_compute. reflexivity.
  - simpl. apply list_elem_of_singleton. reflexivity.
Defined.


Section links_once.
Context (o : Fs.walk_order) (Hlawful : Fs.lawful o).

Lemma snoc_middle {A} (a b c : list A) (x : A) :
  a ++ (b ++ [x]) ++ c ≡ₚ (a ++ b ++ c) ++ [x].
Proof.
  rewrite <- !(assoc_L (++)). do 2 f_equiv. apply Permutation_app_comm.
Qed.

Lemma classify_is_link (t : gmap (list ustring) Fs.node) p :
  LinkEntry.classify t p ≠ LinkEntry.Skip → Fs.is_symlink t p = true.
Proof. unfold LinkEntry.classify. by destruct (Fs.is_symlink t p). Qed.

(** A turn records its entry at most once, and only if it is a link. *)
Lemma record_once dry p (s : link_state) :
  let s' := LinkEntry.record dry p (LinkEntry.classify (ls_fs s) p) s in
  recorded_links s' = recorded_links s ∨
  (recorded_links s' ≡ₚ recorded_links s ++ [p] ∧ Fs.is_symlink (ls_fs s) p = true).
Proof.
  intros s'. subst s'.
  destruct (LinkEntry.classify (ls_fs s) p) as [| | |  |rel|cur tc] eqn:Hc;
    try (by left);
    assert (Fs.is_symlink (ls_fs s) p = true) as Hl
      by (apply classify_is_link; by rewrite Hc).
  - right. split; [|done]. unfold recorded_links. simpl.
    exact (snoc_middle [] (ls_fixed s) _ p).
  - assert (∀ t out,
              recorded_links (LinkState t out (ls_fixed s) (ls_retargeted s ++ [(p, rel)])
                                        (ls_broken s)) ≡ₚ recorded_links s ++ [p]) as Hret.
    { intros t out. unfold recorded_links. simpl. rewrite fmap_app. apply snoc_middle. }
    simpl. destruct dry; [right; by split|].
    destruct (LinkEntry.replace_link (ls_fs s) rel p); [right; by split|by left].
  - right. split; [|done]. unfold recorded_links. simpl.
    by rewrite fmap_app, !(assoc_L (++)).
Qed.

Lemma fold_once dry entries (s : link_state) :
  ∃ k, recorded_links (LinkEntry.fold dry entries s) ≡ₚ recorded_links s ++ k ∧
       k ⊆+ entries ∧ ∀ p, p ∈ k → Fs.is_symlink (ls_fs s) p = true.
Proof.
  revert s. induction entries as [|p l IH]; intros s.
  - exists []. split; [by rewrite (right_id_L [] (++))|]. split; [done|].
    intros p Hp. by apply elem_of_nil in Hp.
  - rewrite fold_cons.
    set (s1 := LinkEntry.record dry p (LinkEntry.classify (ls_fs s) p) s).
    destruct (IH s1) as (k & Hk & Hsub & Hlinks).
    assert (∀ q, q ∈ k → Fs.is_symlink (ls_fs s) q = true) as Hlinks'.
    { intros q Hq.
      rewrite (same_but_links_is_symlink (ls_fs s) (ls_fs s1)); [by apply Hlinks|].
      apply (record_frame dry p s). }
    destruct (record_once dry p s) as [E|[E Hl]]; fold s1 in E.
    + exists k. rewrite Hk, E. split; [done|]. split; [by apply submseteq_cons|done].
    + exists (p :: k). rewrite Hk, E. split; [by rewrite <- (assoc_L (++))|].
      split; [by apply submseteq_skip|].
      intros q [->|Hq]%elem_of_cons; [done|by apply Hlinks'].
Qed.

(** X8.  Step 2 puts a link in at most one of its three lists, and at most once:
    the links reported as correct, retargeted or broken are distinct entries
    of the walk, links all of them. *)
Theorem links_recorded_once (root : list ustring) (dry : bool) (w w' : world)
    (r : list (list ustring) * list (list ustring * ustring)
         * list (list ustring * option ustring * list ustring)) :
  fix_symlinks o root dry w = (Ok r, w') →
  let recorded := r.1.1 ++ (fst <$> r.1.2) ++ ((λ b, b.1.1) <$> r.2) in
  NoDup recorded ∧
  (length r.1.1 + length r.1.2 + length r.2 ≤ length (Fs.rglob o (w_fs w) root))%nat ∧
  ∀ p, p ∈ recorded →
       p ∈ Fs.rglob o (w_fs w) root ∧ Fs.is_symlink (w_fs w) p = true.
Proof.
  rewrite fix_symlinks_eq. intros [= <- <-].
  destruct (fold_once dry (Fs.rglob o (w_fs w) root)
              (LinkState (w_fs w) (w_out w) [] [] [])) as (k & Hk & Hsub & Hlinks).
  unfold recorded_links in Hk. simpl in *. split; [|split].
  - rewrite Hk. apply submseteq_sublist_r in Hsub as (k' & Hperm & Hsub). rewrite Hperm.
    eapply sublist_NoDup; [|exact Hsub]. by apply NoDup_rglob.
  - apply submseteq_length in Hsub. apply Permutation_length in Hk.
    rewrite !length_app, !length_fmap in Hk. lia.
  - intros p Hp. rewrite Hk in Hp. split; [|by apply Hlinks].
    eapply elem_of_submseteq; [exact Hp|exact Hsub].
Qed.

End links_once.

Lemma links_recorded_once_witness :
  let w := World (<[ ["d"; "000001.jpg"] := Fs.File "A" ]> Examples.linked) [] in
  let recorded := [["d"; "v1.jpg"]] in
  NoDup recorded ∧
  (0 + 1 + 0 ≤ length (Fs.rglob Fs.as_listed (w_fs w) ["d"]))%nat ∧
  ∀ p, p ∈ recorded →
       p ∈ Fs.rglob Fs.as_listed (w_fs w) ["d"] ∧ Fs.is_symlink (w_fs w) p = true.
Proof.
  intros w.
  apply (links_recorded_once Fs.as_listed as_listed_lawful ["d"] false w
           (fix_symlinks Fs.as_listed ["d"] false w).2
           ([], [(["d"; "v1.jpg"], "000001.jpg"%ustring)], [])).
  vm_compute. reflexivity.
Defined.

Section links_again.
Context (o : Fs.walk_order) (Hlawful : Fs.lawful o).

(** Once retargeted, a link counts as correct. *)
Lemma classify_retargeted (t : gmap (list ustring) Fs.node) p rel :
  LinkEntry.classify t p = LinkEntry.Retarget rel →
  LinkEntry.classify (<[p := Fs.Symlink rel]> (delete p t)) p = LinkEntry.Fixed.
Proof.
  intros Hc. destruct (classify_retarget_inv _ _ _ Hc)
    as (tgt & num6 & q & data & Hp & Hne & Hn & Hq & Hdata & Hrel & Hdiff).
  unfold LinkEntry.classify, Fs.is_symlink, Fs.lstat, Fs.readlink.
  rewrite lookup_insert_eq. simpl. rewrite Hn, Hq.
  assert (LinkEntry.plain (<[p := Fs.Symlink rel]> (delete p t)) q = true) as ->.
  { apply plain_file. exists data. rewrite lookup_insert_ne, lookup_delete_ne; congruence. }
  rewrite <- Hrel. by rewrite decide_False by (by intros ?).
Qed.

(** What a turn records is what the tree it leaves makes of the entry. *)
Lemma record_verdict p (s : link_state) :
  let s1 := LinkEntry.record false p (LinkEntry.classify (ls_fs s) p) s in
  ls_broken s1 = ls_broken s ++ option_list (broken_of (ls_fs s1) p) ∧
  ls_fixed s1 ++ (fst <$> ls_retargeted s1) ≡ₚ
    (ls_fixed s ++ (fst <$> ls_retargeted s)) ++ option_list (fixed_of (ls_fs s1) p).
Proof.
  unfold broken_of, fixed_of.
  destruct (LinkEntry.classify (ls_fs s) p) as [| | | |rel|cur tc] eqn:Hc; simpl;
    try (rewrite Hc; simpl; by rewrite !(right_id_L [] (++))).
  - rewrite Hc. simpl. rewrite (right_id_L [] (++)). split; [done|].
    exact (snoc_middle [] (ls_fixed s) _ p).
  - destruct (classify_link _ _ _ Hc) as (tgt & Ht & Hne).
    rewrite (replace_link_eq _ _ _ tgt Ht Hne).
    destruct (Fs.check_writable (ls_fs s) (Fs.parent p)); simpl.
    + rewrite (classify_retargeted _ _ _ Hc). simpl.
      rewrite (right_id_L [] (++)), fmap_app. by rewrite !(assoc_L (++)).
    + rewrite Hc. simpl. by rewrite !(right_id_L [] (++)).
Qed.

Lemma omap_cons_list {A B} (f : A → option B) x l :
  omap f (x :: l) = option_list (f x) ++ omap f l.
Proof. simpl. by destruct (f x). Qed.

(** So are the records of the whole loop, read off the tree it leaves. *)
Lemma fold_verdicts entries (s : link_state) :
  NoDup entries →
  let s' := LinkEntry.fold false entries s in
  ls_broken s' = ls_broken s ++ omap (broken_of (ls_fs s')) entries ∧
  ls_fixed s' ++ (fst <$> ls_retargeted s') ≡ₚ
    (ls_fixed s ++ (fst <$> ls_retargeted s)) ++ omap (fixed_of (ls_fs s')) entries.
Proof.
  revert s. induction entries as [|p l IH]; intros s Hnd; cbv zeta.
  - simpl. by rewrite !(right_id_L [] (++)).
  - apply NoDup_cons in Hnd as [Hp Hnd]. rewrite fold_cons.
    set (s1 := LinkEntry.record false p (LinkEntry.classify (ls_fs s) p) s).
    destruct (IH s1 Hnd) as [IHb IHf]. clear IH.
    destruct (record_verdict p s) as [Hb Hf]. fold s1 in Hb, Hf.
    destruct (fold_frame false l s1) as [Hsame Hout].
    assert (LinkEntry.classify (ls_fs (LinkEntry.fold false l s1)) p
            = LinkEntry.classify (ls_fs s1) p) as Hc
      by (apply classify_same; [done|by apply Hout]).
    rewrite !omap_cons_list. unfold broken_of at 1, fixed_of at 1. rewrite Hc.
    fold (broken_of (ls_fs s1) p) (fixed_of (ls_fs s1) p).
    split.
    + by rewrite IHb, Hb, (assoc_L (++)).
    + by rewrite IHf, Hf, !(assoc_L (++)).
Qed.


End links_again.


(** * More on step 1 as a whole *)

Section files.
Context (o : Fs.walk_order) (Hlawful : Fs.lawful o).
Implicit Types (t : gmap (list ustring) Fs.node) (p q : list ustring)
  (l : list (list ustring * list ustring)).

Lemma rename_frame t old new t' q :
  Fs.rename t old new = Ok t' → q ≠ old → q ≠ new → t' !! q = t !! q.
Proof.
  intros (n & _ & _ & _ & ->)%rename_inv Ho Hn.
  destruct (decide (old = new)); [done|].
  by rewrite lookup_insert_ne, lookup_delete_ne.
Qed.

(** The rename loop, however it ends, leaves what is neither source nor
    target of the queue. *)
Lemma apply_loop_frame l (s : real_state) q :
  q ∉ (fst <$> l) → q ∉ (snd <$> l) →
  rs_fs (for_each l (Real.apply_entry false) s).2 !! q = rs_fs s !! q.
Proof.
  revert s. induction l as [|c l IH]; intros s Hs Ht; [done|].
  rewrite fmap_cons in Hs, Ht.
  apply not_elem_of_cons in Hs as [Hs Hs'], Ht as [Ht Ht'].
  simpl. unfold bind at 1. unfold Real.apply_entry at 1.
  unfold bind at 1. unfold Real.print at 1. unfold modify at 1. simpl.
  unfold Real.rename at 1. simpl.
  destruct (Fs.rename (rs_fs s) c.1 c.2) as [t'|e] eqn:Hr; simpl; [|done].
  rewrite IH by done. simpl. by apply (rename_frame _ _ _ _ _ Hr).
Qed.

Lemma renames_frame l t t1 q :
  RealEntry.renames t l = Ok t1 → q ∉ (fst <$> l) → q ∉ (snd <$> l) →
  t1 !! q = t !! q.
Proof.
  revert t. induction l as [|c l IH]; intros t Hr Hs Ht; [by injection Hr as <-|].
  rewrite fmap_cons in Hs, Ht.
  apply not_elem_of_cons in Hs as [Hs Hs'], Ht as [Ht Ht'].
  simpl in Hr. destruct (Fs.rename t c.1 c.2) as [t'|e] eqn:Hren; [|done].
  rewrite (IH t') by done. by apply (rename_frame _ _ _ _ _ Hren).
Qed.

(** A queue whose sources are distinct and none of them a target: every
    source is gone in the end, and every target holds what one of the sources
    bound for it held. *)
Lemma renames_moved l t t1 :
  RealEntry.renames t l = Ok t1 → NoDup (fst <$> l) →
  (∀ c c', c ∈ l → c' ∈ l → c.1 ≠ c'.2) →
  ∀ c, c ∈ l →
    t1 !! c.1 = None ∧
    ∃ c', c' ∈ l ∧ c'.2 = c.2 ∧ is_Some (t !! c'.1) ∧ t1 !! c.2 = t !! c'.1.
Proof.
  revert t. induction l as [|c0 l IH]; intros t Hr Hnd Hdisj c Hc;
    [by apply elem_of_nil in Hc|].
  rewrite fmap_cons in Hnd. apply NoDup_cons in Hnd as [Hfresh Hnd].
  simpl in Hr. destruct (Fs.rename t c0.1 c0.2) as [t'|e] eqn:Hren; [|done].
  destruct (rename_inv _ _ _ _ Hren) as (n & Hold & _ & _ & Ht').
  assert (c0.1 ≠ c0.2) as Hne by (apply Hdisj; by left).
  rewrite decide_False in Ht' by done.
  assert (∀ c', c' ∈ l → t' !! c'.1 = t !! c'.1) as Hsrc.
  { intros c' Hc'. apply (rename_frame _ _ _ _ _ Hren).
    - intros E. apply Hfresh. rewrite <- E. apply list_elem_of_fmap. by exists c'.
    - apply Hdisj; [by right|by left]. }
  assert (∀ c, c ∈ l →
            t1 !! c.1 = None ∧
            ∃ c', c' ∈ c0 :: l ∧ c'.2 = c.2 ∧ is_Some (t !! c'.1) ∧ t1 !! c.2 = t !! c'.1)
    as Hrest.
  { intros c1 Hc1.
    destruct (IH t' Hr Hnd) with (c := c1) as (Hgone & c' & Hc' & E & Hsome & Hval);
      [intros ? ? ? ?; apply Hdisj; by right|done|].
    split; [done|]. exists c'. rewrite <- (Hsrc c' Hc'). by split; [right|]. }
  subst t'. apply elem_of_cons in Hc as [->|Hc]; [|by apply Hrest].
  split.
  - rewrite (renames_frame _ _ _ _ Hr).
    + rewrite lookup_insert_ne by done. by rewrite lookup_delete_eq.
    + done.
    + intros (c' & E & Hc')%list_elem_of_fmap.
      apply (Hdisj c0 c'); [by left|by right|done].
  - destruct (decide (c0.2 ∈ (snd <$> l))) as [Hin|Hnin].
    + apply list_elem_of_fmap in Hin as (c1 & E & Hc1).
      destruct (Hrest c1 Hc1) as (_ & c' & Hc' & E' & Hsome & Hval).
      exists c'. by rewrite E.
    + exists c0. split; [by left|]. split; [done|]. split; [by rewrite Hold|].
      rewrite (renames_frame _ _ _ _ Hr).
      * by rewrite lookup_insert_eq.
      * intros (c' & E & Hc')%list_elem_of_fmap.
        apply (Hdisj c' c0); [by right|by left|done].
      * done.
Qed.

(** The canonical path of a walked entry is canonical itself. *)
Lemma with_name_canonical_entry p num6 q :
  extract_num6 (Fs.name p) = Some num6 →
  Fs.with_name p (num6 +:+ Str.lower (Fs.suffix p)) = Ok q →
  Fs.match_jpg (Fs.name p) = true →
  q = Fs.parent p ++ [num6 +:+ ".jpg"] ∧ RealEntry.canonical_entry q.
Proof.
  intros Hn Hw Hjpg.
  destruct (extract_num6_Some _ _ Hn) as [Hd Hpad].
  rewrite (suffix_jpg p Hjpg Hd) in Hw.
  change (Str.lower ".jpg") with ".jpg"%ustring in Hw.
  destruct (with_name_inv _ _ _ Hw) as [Hc2 _]. split; [done|].
  intros num6' newp' Hn' Hw'.
  rewrite Hc2 in Hn', Hw' |- *. rewrite name_snoc in Hn' |- *.
  rewrite (extract_num6_fixed _ _ Hn) in Hn'. injection Hn' as <-.
  assert (Str.has_digit (num6 +:+ ".jpg") = true) as Hd'.
  { pose proof (extract_num6_fixed _ _ Hn) as Hfix.
    by apply extract_num6_Some in Hfix as [? _]. }
  assert (Fs.suffix (Fs.parent p ++ [num6 +:+ ".jpg"]) = ".jpg"%ustring) as Hsfx.
  { apply suffix_jpg; rewrite name_snoc; [apply match_jpg_canonical|done]. }
  rewrite Hsfx in Hw'. change (Str.lower ".jpg") with ".jpg"%ustring in Hw'.
  destruct (with_name_inv _ _ _ Hw') as [-> _]. by rewrite parent_snoc, name_snoc.
Qed.

Lemma change_of_free t p c :
  RealEntry.change_of t p = Some c → Fs.exists_ t c.2 = false.
Proof.
  unfold RealEntry.change_of, RealEntry.classify.
  destruct (Fs.is_symlink t p); [done|]. destruct (Fs.is_file t p); [|done]. simpl.
  destruct (extract_num6 (Fs.name p)); [|done].
  destruct (Fs.with_name p _) as [newp|]; [|done].
  destruct (Str.eqb _ _); [done|].
  destruct (Fs.exists_ t newp) eqn:E; [done|]. by intros [= <-].
Qed.

(** The queue of step 1: distinct sources, none of them a target. *)
Lemma changes_apart t root :
  let l := omap (RealEntry.change_of t) (Fs.rglob o t root) in
  NoDup (fst <$> l) ∧ ∀ c c', c ∈ l → c' ∈ l → c.1 ≠ c'.2.
Proof.
  intros l. split.
  - assert (∀ es, NoDup es → NoDup (fst <$> omap (RealEntry.change_of t) es)) as H.
    { induction es as [|p es IH]; intros Hnd; [constructor|].
      apply NoDup_cons in Hnd as [Hp Hnd]. simpl.
      destruct (RealEntry.change_of t p) as [c|] eqn:Hc; [|by apply IH].
      rewrite fmap_cons. apply NoDup_cons. split; [|by apply IH].
      destruct (change_of_inv _ _ _ Hc) as (-> & _).
      intros (c' & E & (p' & Hp' & Hc')%list_elem_of_omap)%list_elem_of_fmap.
      destruct (change_of_inv _ _ _ Hc') as (<- & _). apply Hp. by rewrite E. }
    apply H. by apply NoDup_rglob.
  - intros c c' (p & Hp & Hc)%list_elem_of_omap (p' & Hp' & Hc')%list_elem_of_omap E.
    destruct (change_of_inv _ _ _ Hc) as (<- & _).
    apply (elem_of_rglob o Hlawful) in Hp' as (_ & _ & Hjpg).
    pose proof (target_canonical _ _ _ Hc' Hjpg) as Hcan.
    rewrite <- E in Hcan. by rewrite (canonical_no_change t _ Hcan) in Hc.
Qed.

(** X10.  What step 1 leaves alone when it returns: every entry that is neither a
    file it reports as renamed nor the canonical path of one.  It creates no
    directory and removes none, and a link in the tree it leaves was that
    link before. *)
Theorem normalize_real_files_frame (root : list ustring) (dry : bool) (w w' : world)
    (r : list (list ustring * list ustring) * list (list ustring * list ustring)) :
  normalize_real_files o root dry w = (Ok r, w') →
  (∀ q, q ∉ (fst <$> r.1) → q ∉ (snd <$> r.1) → w_fs w' !! q = w_fs w !! q) ∧
  (∀ q, Fs.is_dir (w_fs w') q = Fs.is_dir (w_fs w) q) ∧
  (∀ q x, w_fs w' !! q = Some (Fs.Symlink x) → w_fs w !! q = Some (Fs.Symlink x)).
Proof.
  destruct dry.
  - destruct (normalize_real_files_dry o root w) as [out' ->]. by intros [= <- <-].
  - destruct (normalize_real_files_apply o root w) as (w1 & -> & Hfs).
    destruct (RealEntry.renames _ _) as [t1|e] eqn:Hr; [|done].
    intros [= <- <-]. rewrite (Hfs t1 eq_refl). simpl.
    destruct (renames_inv _ _ _ Hr (changes_sources_ok o (w_fs w) root))
      as (Hdir & Hlink & _).
    split; [|split; [done|done]].
    intros q Hs Ht. by apply (renames_frame _ _ _ _ Hr).
Qed.

(** X11.  When step 1 applies its queue and returns, and no two files of the
    queue have the same canonical path, every file it reports as renamed was
    a regular file, is gone from its old path and lies at its canonical
    path. *)
Theorem renamed_files_moved (root : list ustring) (w w' : world)
    (r : list (list ustring * list ustring) * list (list ustring * list ustring))
    (c : list ustring * list ustring) :
  normalize_real_files o root false w = (Ok r, w') →
  NoDup (snd <$> r.1) → c ∈ r.1 →
  (∃ data, w_fs w !! c.1 = Some (Fs.File data)) ∧
  w_fs w' !! c.1 = None ∧
  w_fs w' !! c.2 = w_fs w !! c.1.
Proof.
  destruct (normalize_real_files_apply o root w) as (w1 & -> & Hfs).
  destruct (RealEntry.renames _ _) as [t1|e] eqn:Hr; [|done].
  intros [= <- <-] Hnd2 Hc. rewrite (Hfs t1 eq_refl). simpl in *.
  destruct (changes_apart (w_fs w) root) as [Hnd Hdisj].
  destruct (renames_moved _ _ _ Hr Hnd Hdisj c Hc)
    as (Hgone & c' & Hc' & E & Hsome & Hval).
  split; [|split; [done|]].
  - apply list_elem_of_omap in Hc as (p & _ & Hp).
    by destruct (change_of_inv _ _ _ Hp) as (-> & _ & ? & _).
  - rewrite Hval. f_equal. f_equal.
    clear -Hc Hc' E Hnd2.
    induction (omap _ _) as [|x l IH]; [by apply elem_of_nil in Hc|].
    rewrite fmap_cons in Hnd2. apply NoDup_cons in Hnd2 as [Hx Hnd2].
    apply elem_of_cons in Hc as [->|Hc], Hc' as [->|Hc']; try done.
    + exfalso. apply Hx. rewrite <- E. apply list_elem_of_fmap. by exists c'.
    + exfalso. apply Hx. rewrite E. apply list_elem_of_fmap. by exists c.
    + by apply IH.
Qed.

End files.

Lemma normalize_real_files_frame_witness :
  let w := World Examples.linked [] in
  let w' := (normalize_real_files Fs.as_listed ["d"] false w).2 in
  let r : list (list ustring * list ustring) * list (list ustring * list ustring) :=
    ([(["d"; "a1.jpg"], ["d"; "000001.jpg"])], []) in
  (∀ q, q ∉ (fst <$> r.1) → q ∉ (snd <$> r.1) → w_fs w' !! q = w_fs w !! q) ∧
  (∀ q, Fs.is_dir (w_fs w') q = Fs.is_dir (w_fs w) q) ∧
  (∀ q x, w_fs w' !! q = Some (Fs.Symlink x) → w_fs w !! q = Some (Fs.Symlink x)).
Proof.
  intros w w' r.
  apply (normalize_real_files_frame Fs.as_listed ["d"] false w w' r).
  vm_compute. reflexivity.
Defined.

Lemma renamed_files_moved_witness :
  let w := World Examples.linked [] in
  let w' := (normalize_real_files Fs.as_listed ["d"] false w).2 in
  (∃ data, w_fs w !! ["d"; "a1.jpg"] = Some (Fs.File data)) ∧
  w_fs w' !! ["d"; "a1.jpg"] = None ∧
  w_fs w' !! ["d"; "000001.jpg"] = w_fs w !! ["d"; "a1.jpg"].
Proof.
  intros w w'.
  apply (renamed_files_moved Fs.as_listed as_listed_lawful ["d"] w w'
           ([(["d"; "a1.jpg"], ["d"; "000001.jpg"])], [])
           (["d"; "a1.jpg"], ["d"; "000001.jpg"])).
  - vm_compute. reflexivity.
  - simpl. apply NoDup_singleton.
  - simpl. apply list_elem_of_singleton. reflexivity.
Defined.

(** * More on a whole run *)

Section run.
Context (o : Fs.walk_order) (Hlawful : Fs.lawful o).
Implicit Types (t : gmap (list ustring) Fs.node) (p q root : list ustring) (w : world).

(** The records of step 1 when it returns, in either mode. *)
Lemma normalize_real_files_records root dry w w'
    (r : list (list ustring * list ustring) * list (list ustring * list ustring)) :
  normalize_real_files o root dry w = (Ok r, w') →
  r = (omap (RealEntry.change_of (w_fs w)) (Fs.rglob o (w_fs w) root),
       omap (RealEntry.conflict_of (w_fs w)) (Fs.rglob o (w_fs w) root)) ∧
  ∀ q, q ∉ (fst <$> r.1) → q ∉ (snd <$> r.1) → w_fs w' !! q = w_fs w !! q.
Proof.
  destruct dry.
  - destruct (normalize_real_files_dry o root w) as [out' ->]. by intros [= <- <-].
  - destruct (normalize_real_files_apply o root w) as (w1 & -> & Hfs).
    destruct (RealEntry.renames _ _) as [t1|e] eqn:Hr; [|done].
    intros [= <- <-]. rewrite (Hfs t1 eq_refl). split; [done|].
    intros q Hs Ht. by apply (renames_frame _ _ _ _ Hr).
Qed.

(** A file in conflict is not canonical. *)
Lemma conflict_not_canonical t p c :
  RealEntry.conflict_of t p = Some c → ¬ RealEntry.canonical_entry c.1.
Proof.
  intros Hc Hcan.
  destruct (conflict_of_inv _ _ _ Hc) as (E & Hne & _ & _ & num6 & Hn & Hw).
  rewrite <- E in Hn, Hw. specialize (Hcan _ _ Hn Hw).
  destruct (with_name_inv _ _ _ Hw) as [Hc2 Hname].
  apply Hne. rewrite Hc2, (path_split c.1) at 1 by (by apply name_nonempty).
  by rewrite Hcan, Hc2, name_snoc.
Qed.

(** X12.  A file that step 1 reports in conflict stays where it is and as it is,
    and so does the entry that holds its canonical path. *)
Theorem conflicts_left_alone (root : list ustring) (dry : bool) (w w' : world)
    (r : list (list ustring * list ustring) * list (list ustring * list ustring))
    (c : list ustring * list ustring) :
  normalize_real_files o root dry w = (Ok r, w') → c ∈ r.2 →
  (∃ data, w_fs w !! c.1 = Some (Fs.File data)) ∧ is_Some (w_fs w !! c.2) ∧
  w_fs w' !! c.1 = w_fs w !! c.1 ∧ w_fs w' !! c.2 = w_fs w !! c.2.
Proof.
  intros [-> Hframe]%normalize_real_files_records Hc. simpl in *.
  set (t := w_fs w) in *.
  apply list_elem_of_omap in Hc as (p & Hp & Hc).
  apply (elem_of_rglob o Hlawful) in Hp as (_ & _ & Hjpg).
  destruct (conflict_of_inv _ _ _ Hc) as (E & Hne & Hfile & Hex & num6 & Hn & Hw).
  destruct (with_name_canonical_entry _ _ _ Hn Hw Hjpg) as [_ Hcan2].
  assert (∀ c', c' ∈ omap (RealEntry.change_of t) (Fs.rglob o t root) →
            RealEntry.change_of t c'.1 = Some c' ∧ RealEntry.canonical_entry c'.2 ∧
            Fs.exists_ t c'.2 = false) as Hqueue.
  { intros c' (p' & Hp' & Hc')%list_elem_of_omap.
    apply (elem_of_rglob o Hlawful) in Hp' as (_ & _ & Hjpg').
    destruct (change_of_inv _ _ _ Hc') as (E' & _). rewrite E'.
    split; [done|]. split; [by apply (target_canonical t p')|by apply (change_of_free t p')]. }
  split; [by rewrite E|]. split.
  { unfold Fs.exists_, Fs.stat in Hex. by destruct (t !! c.2). }
  split; apply Hframe.
  - intros (c' & E' & Hc')%list_elem_of_fmap.
    destruct (Hqueue c' Hc') as (Hch & _). rewrite <- E', E in Hch.
    revert Hc Hch. unfold RealEntry.conflict_of, RealEntry.change_of.
    by destruct (RealEntry.classify t p).
  - intros (c' & E' & Hc')%list_elem_of_fmap.
    destruct (Hqueue c' Hc') as (_ & Hcan & _). rewrite <- E' in Hcan.
    by apply (conflict_not_canonical _ _ _ Hc).
  - intros (c' & E' & Hc')%list_elem_of_fmap.
    destruct (Hqueue c' Hc') as (Hch & _). rewrite <- E' in Hch.
    by rewrite (canonical_no_change t _ Hcan2) in Hch.
  - intros (c' & E' & Hc')%list_elem_of_fmap.
    destruct (Hqueue c' Hc') as (_ & _ & Hfree). rewrite <- E' in Hfree. congruence.
Qed.

End run.

Lemma conflicts_left_alone_witness :
  let w := World (<[ ["d"; "000001.jpg"] := Fs.File "Z" ]> Examples.twins) [] in
  let w' := (normalize_real_files Fs.as_listed ["d"] false w).2 in
  (∃ data, w_fs w !! ["d"; "a1.jpg"] = Some (Fs.File data)) ∧
  is_Some (w_fs w !! ["d"; "000001.jpg"]) ∧
  w_fs w' !! ["d"; "a1.jpg"] = w_fs w !! ["d"; "a1.jpg"] ∧
  w_fs w' !! ["d"; "000001.jpg"] = w_fs w !! ["d"; "000001.jpg"].
Proof.
  intros w w'.
  apply (conflicts_left_alone Fs.as_listed as_listed_lawful ["d"] false w w'
           ([], [(["d"; "b1.jpg"], ["d"; "000001.jpg"]);
                 (["d"; "a1.jpg"], ["d"; "000001.jpg"])])
           (["d"; "a1.jpg"], ["d"; "000001.jpg"])).
  - vm_compute. reflexivity.
  - simpl. rewrite !elem_of_cons. repeat (first [left; reflexivity | right]).
Defined.

Section run_frame.
Context (o : Fs.walk_order) (Hlawful : Fs.lawful o).
Implicit Types (t : gmap (list ustring) Fs.node) (p q root : list ustring) (w : world).

(** Step 1, however it ends, leaves what is neither source nor target of its
    queue. *)
Lemma normalize_real_files_frame_any root dry w q :
  let l := omap (RealEntry.change_of (w_fs w)) (Fs.rglob o (w_fs w) root) in
  q ∉ (fst <$> l) → q ∉ (snd <$> l) →
  w_fs (normalize_real_files o root dry w).2 !! q = w_fs w !! q.
Proof.
  intros l Hs Ht. destruct dry; [by rewrite normalize_real_files_dry_fs|].
  unfold normalize_real_files, Real.passes.
  unfold bind at 1. rewrite scan_loop. unfold bind at 1. unfold gets at 1.
  set (s1 := RealEntry.scan_fold _ _).
  assert (rs_fs s1 = w_fs w) as Hfs by (unfold s1; by rewrite scan_fold_fs).
  assert (rs_changes s1 = l) as Hch by (unfold s1; by rewrite scan_fold_changes).
  pose proof (apply_loop_frame (rs_changes s1) s1 q) as H.
  rewrite Hch, Hfs in H. specialize (H Hs Ht). rewrite Hch.
  by destruct (for_each l (Real.apply_entry false) s1) as [[|] s'].
Qed.

Lemma stem_has_digit name r : extract_num6 name = Some r → Str.has_digit r = true.
Proof.
  intros (Hall & Hlen & _)%extract_num6_stem.
  apply (has_digit_ascii r Hall). intros ->. simpl in Hlen. lia.
Qed.

(** Source and target of a queued rename have a digit in their name. *)
Lemma change_has_digit t p c :
  RealEntry.change_of t p = Some c →
  Str.has_digit (Fs.name c.1) = true ∧ Str.has_digit (Fs.name c.2) = true.
Proof.
  intros (E & _ & _ & num6 & Hn & Hw)%change_of_inv. rewrite E. split.
  - by apply extract_num6_Some in Hn as [? _].
  - destruct (with_name_inv _ _ _ Hw) as [-> _].
    by rewrite name_snoc, has_digit_app, (stem_has_digit _ _ Hn).
Qed.

Lemma steps_frame root dry w q :
  Str.has_digit (Fs.name q) = false →
  w_fs (steps o root dry w).2 !! q = w_fs w !! q.
Proof.
  intros Hq. rewrite steps_eq.
  pose proof (normalize_real_files_frame_any root dry
                (World (w_fs w) (w_out w ++ [Step1 root dry])) q) as H1.
  simpl in H1.
  assert (w_fs (normalize_real_files o root dry
                  (World (w_fs w) (w_out w ++ [Step1 root dry]))).2 !! q = w_fs w !! q)
    as H1'.
  { apply H1.
    - intros (c & E & (p & _ & Hc)%list_elem_of_omap)%list_elem_of_fmap.
      apply change_has_digit in Hc as [Hc _]. rewrite <- E in Hc. congruence.
    - intros (c & E & (p & _ & Hc)%list_elem_of_omap)%list_elem_of_fmap.
      apply change_has_digit in Hc as [_ Hc]. rewrite <- E in Hc. congruence. }
  clear H1.
  destruct (normalize_real_files o root dry _) as [[r1|e] w2]; simpl in H1'; [|done].
  rewrite fix_symlinks_eq. simpl. rewrite <- H1'.
  destruct dry; [by rewrite fold_dry_fs|].
  destruct (fold_retargeted_start o root (World (w_fs w2) (w_out w2 ++ [Step2 false])))
    as [Hrest Hgood].
  simpl in Hrest, Hgood. apply Hrest.
  intros (c & E & Hc)%list_elem_of_fmap.
  destruct (Hgood c Hc) as (_ & _ & num6 & _ & _ & Hn & _).
  apply extract_num6_Some in Hn as [Hd _]. rewrite <- E in Hd. congruence.
Qed.

(** X13.  A run, in either mode and however it ends, leaves every entry whose
    name has no digit, of whatever script, as it was: it is not renamed, not
    replaced and, if a link, not retargeted. *)
Theorem names_without_digit_untouched (root : list ustring) (apply : bool) (w : world)
    (q : list ustring) :
  Str.has_digit (Fs.name q) = false →
  w_fs (main o root apply w).2 !! q = w_fs w !! q.
Proof.
  intros Hq. unfold main. unfold bind at 1. unfold gets at 1.
  destruct (Fs.exists_ (w_fs w) root); simpl; [|done].
  unfold bind at 1. pose proof (steps_frame root (negb apply) w q Hq) as H.
  destruct (steps o root (negb apply) w) as [[r|e] w1]; simpl in H; [|done].
  by rewrite summary_eq.
Qed.





End run_frame.

Lemma names_without_digit_untouched_witness :
  let w := World Examples.linked [] in
  w_fs (main Fs.as_listed ["d"] true w).2 !! ["d"; "photo.jpg"]
  = w_fs w !! ["d"; "photo.jpg"].
Proof.
  intros w.
  apply (names_without_digit_untouched Fs.as_listed ["d"] true w ["d"; "photo.jpg"]).
  vm_compute. reflexivity.
Defined.

Section scope.
Context (o : Fs.walk_order) (Hlawful : Fs.lawful o).
Implicit Types (t : gmap (list ustring) Fs.node) (p q root : list ustring).





End scope.


(** * Preview and applied run on links to renamed files *)

Section renamed_target.
Context (o : Fs.walk_order) (Hlawful : Fs.lawful o).
Implicit Types (t : gmap (list ustring) Fs.node) (p q root : list ustring).

(** The broken links of a preview, read off the tree. *)
Lemma fold_dry_broken entries (s : link_state) :
  ls_broken (LinkEntry.fold true entries s)
  = ls_broken s ++ omap (broken_of (ls_fs s)) entries.
Proof.
  revert s. induction entries as [|p l IH]; intros s.
  - simpl. by rewrite (right_id_L [] (++)).
  - rewrite fold_cons, IH. simpl. unfold broken_of at 2.
    destruct (LinkEntry.classify (ls_fs s) p); simpl; try done.
    by rewrite <- (assoc_L (++)).
Qed.

(** A link beside a regular file that bears the canonical name of the link
    is not broken. *)
Lemma classify_not_broken t p tgt num6 data :
  t !! p = Some (Fs.Symlink tgt) → Fs.match_jpg (Fs.name p) = true →
  extract_num6 (Fs.name p) = Some num6 →
  t !! (Fs.parent p ++ [num6 +:+ ".jpg"]) = Some (Fs.File data) →
  broken_of t p = None.
Proof.
  intros Hp Hjpg Hn Hfile.
  destruct (extract_num6_Some _ _ Hn) as [Hd _].
  unfold broken_of, LinkEntry.classify, Fs.is_symlink, Fs.lstat, Fs.readlink.
  rewrite Hp, Hn. simpl.
  rewrite (suffix_jpg p Hjpg Hd). change (Str.lower ".jpg") with ".jpg"%ustring.
  rewrite (with_name_canonical p num6 Hn).
  rewrite (proj2 (plain_file t _)) by (by exists data).
  by destruct (decide _).
Qed.

(** X16.  A link whose canonical name is that of a file step 1 renames: the
    preview, which runs step 2 on the tree as it is, reports the link broken;
    the applied run, which runs step 2 on the renamed tree, does not, and the
    file lies at the canonical path in the end. *)
Theorem link_to_renamed_file (root : list ustring) (w w' : world) (r : records)
    (c : list ustring * list ustring) (p : list ustring) (tgt : ustring) :
  steps o root false w = (Ok r, w') → c ∈ r.1.1 →
  p ∈ Fs.rglob o (w_fs w) root → w_fs w !! p = Some (Fs.Symlink tgt) →
  Fs.parent p = Fs.parent c.1 →
  extract_num6 (Fs.name p) = extract_num6 (Fs.name c.1) →
  p ≠ c.2 →
  (∃ rd wd, steps o root true w = (Ok rd, wd) ∧ rd.1 = r.1 ∧
            (p, Some tgt, c.2) ∈ rd.2.2) ∧
  (∀ b, b ∈ r.2.2 → b.1.1 ≠ p) ∧
  ∃ data, w_fs w' !! c.2 = Some (Fs.File data).
Proof.
  intros Hrun Hc Hp Hlink Hdir Hnum Hpc.
  destruct (steps_apply_inv o root w w' r Hrun) as (t1 & Hren & Hr1 & out & Hr2 & Hfs).
  set (t0 := w_fs w) in *.
  set (changes := omap (RealEntry.change_of t0) (Fs.rglob o t0 root)) in *.
  rewrite Hr1 in Hc. simpl in Hc.
  pose proof Hc as Hc0. apply list_elem_of_omap in Hc0 as (p0 & Hp0 & Hch).
  pose proof Hp as Hp'. apply (elem_of_rglob o Hlawful) in Hp' as (_ & Hwalk & Hjpg).
  apply (elem_of_rglob o Hlawful) in Hp0 as (_ & _ & Hjpg0).
  destruct (change_of_inv _ _ _ Hch) as (E & _ & _ & num6 & Hn0 & Hw0).
  rewrite <- E in Hn0, Hw0, Hjpg0.
  destruct (with_name_canonical_entry _ _ _ Hn0 Hw0 Hjpg0) as [Hc2 _].
  rewrite Hn0 in Hnum. rewrite <- Hdir in Hc2.
  pose proof (change_of_free _ _ _ Hch) as Hfree.
  assert (LinkEntry.classify t0 p = LinkEntry.Broken (Some tgt) c.2) as Hbroken.
  { destruct (extract_num6_Some _ _ Hnum) as [Hd _].
    unfold LinkEntry.classify, Fs.is_symlink, Fs.lstat, Fs.readlink.
    rewrite Hlink, Hnum. simpl.
    rewrite (suffix_jpg p Hjpg Hd). change (Str.lower ".jpg") with ".jpg"%ustring.
    rewrite (with_name_canonical p num6 Hnum), <- Hc2.
    unfold LinkEntry.plain. by rewrite Hfree. }
  destruct (changes_apart o Hlawful t0 root) as [Hnd Hdisj]. fold changes in Hnd, Hdisj.
  destruct (renames_moved _ _ _ Hren Hnd Hdisj c Hc)
    as (_ & c' & Hc' & Ec' & _ & Hval).
  assert (∃ data, t1 !! c.2 = Some (Fs.File data)) as [data Hfile].
  { apply list_elem_of_omap in Hc' as (p1 & _ & Hch1).
    destruct (change_of_inv _ _ _ Hch1) as (E1 & _ & [data Hd1] & _).
    exists data. by rewrite Hval, E1. }
  assert (t1 !! p = Some (Fs.Symlink tgt)) as Hlink1.
  { rewrite <- Hlink. apply (renames_frame _ _ _ _ Hren).
    - intros (c1 & E1 & (p1 & _ & Hch1)%list_elem_of_omap)%list_elem_of_fmap.
      destruct (change_of_inv _ _ _ Hch1) as (E1' & _ & [d1 Hd1] & _).
      rewrite <- E1', <- E1 in Hd1. fold t0 in Hlink. congruence.
    - intros (c1 & E1 & (p1 & Hp1 & Hch1)%list_elem_of_omap)%list_elem_of_fmap.
      apply (elem_of_rglob o Hlawful) in Hp1 as (_ & _ & Hjpg1).
      pose proof (target_canonical _ _ _ Hch1 Hjpg1) as Hcan. rewrite <- E1 in Hcan.
      destruct (extract_num6_Some _ _ Hnum) as [Hd _].
      assert (Fs.with_name p (num6 +:+ Str.lower (Fs.suffix p)) = Ok c.2) as Hwp.
      { rewrite (suffix_jpg p Hjpg Hd). change (Str.lower ".jpg") with ".jpg"%ustring.
        by rewrite (with_name_canonical p num6 Hnum), <- Hc2. }
      specialize (Hcan _ _ Hnum Hwp). apply Hpc.
      rewrite (path_split p) at 1
        by (apply name_nonempty; intros E0; rewrite E0 in Hd; by compute in Hd).
      by rewrite Hcan, Hc2, name_snoc. }
  set (s := LinkEntry.fold false (Fs.rglob o t1 root) (LinkState t1 out [] [] [])) in *.
  destruct (fold_frame false (Fs.rglob o t1 root) (LinkState t1 out [] [] []))
    as [Hsame _].
  fold s in Hsame. simpl in Hsame.
  assert (w_fs w' !! c.2 = Some (Fs.File data)) as Hfile'.
  { rewrite Hfs. by apply (same_but_links_file t1 (ls_fs s)). }
  split; [|split; [|by exists data]].
  - rewrite steps_eq.
    destruct (normalize_real_files_dry o root
                (World (w_fs w) (w_out w ++ [Step1 root true]))) as (out' & ->).
    rewrite fix_symlinks_eq. simpl. eexists _, _. split; [reflexivity|]. simpl.
    split; [by rewrite Hr1|].
    rewrite fold_dry_broken. simpl. apply list_elem_of_omap. exists p.
    split; [done|]. unfold broken_of. fold t0. by rewrite Hbroken.
  - intros b Hb Ebp. rewrite Hr2 in Hb. simpl in Hb.
    destruct (fold_verdicts (Fs.rglob o t1 root) (LinkState t1 out [] [] []))
      as [Hbr _]; [by apply NoDup_rglob|].
    fold s in Hbr. simpl in Hbr. rewrite Hbr in Hb.
    apply list_elem_of_omap in Hb as (p' & _ & Hb).
    assert (p' = p) as ->.
    { revert Hb. unfold broken_of.
      destruct (LinkEntry.classify (ls_fs s) p'); try done. by intros [= <-]. }
    assert (∃ tgt', ls_fs s !! p = Some (Fs.Symlink tgt')) as [tgt' Hlink'].
    { specialize (Hsame p). rewrite Hlink1 in Hsame.
      destruct (ls_fs s !! p) as [[]|]; try done. by eexists. }
    rewrite (classify_not_broken (ls_fs s) p tgt' num6 data) in Hb; try done.
    rewrite <- Hc2. by rewrite <- Hfs.
Qed.

End renamed_target.

Lemma link_to_renamed_file_witness :
  let w := World Examples.linked [] in
  let w' := (steps Fs.as_listed ["d"] false w).2 in
  let r : records :=
    (([(["d"; "a1.jpg"], ["d"; "000001.jpg"])], []),
     ([], [(["d"; "v1.jpg"], "000001.jpg"%ustring)], [])) in
  (∃ rd wd, steps Fs.as_listed ["d"] true w = (Ok rd, wd) ∧ rd.1 = r.1 ∧
            (["d"; "v1.jpg"], Some "a1.jpg"%ustring, ["d"; "000001.jpg"]) ∈ rd.2.2) ∧
  (∀ b, b ∈ r.2.2 → b.1.1 ≠ ["d"; "v1.jpg"]) ∧
  ∃ data, w_fs w' !! ["d"; "000001.jpg"] = Some (Fs.File data).
Proof.
  intros w w' r.
  apply (link_to_renamed_file Fs.as_listed as_listed_lawful ["d"] w w' r
           (["d"; "a1.jpg"], ["d"; "000001.jpg"]) ["d"; "v1.jpg"] "a1.jpg").
  - vm_compute. reflexivity.
  - simpl. apply list_elem_of_singleton. reflexivity.
  - vm_compute. repeat (first [apply list_elem_of_here | apply list_elem_of_further]).
  - vm_compute. reflexivity.
  - reflexivity.
  - vm_compute. reflexivity.
  - discriminate.
Defined.

(** * Nothing is left unreported *)

Section complete.
Context (o : Fs.walk_order) (Hlawful : Fs.lawful o).
Implicit Types (t : gmap (list ustring) Fs.node) (p q root : list ustring).





End complete.




(** * Step 2 on each link of its walk *)

Section each_link.
Context (o : Fs.walk_order) (Hlawful : Fs.lawful o).
Implicit Types (t : gmap (list ustring) Fs.node) (p q root : list ustring)
  (s : link_state) (entries : list (list ustring)).






End each_link.



(** C1 as stated fails on a name with more digits than [int] reads: the name
    has digits, one run of them, which denotes 0 and would be written
    [000000]; but [int] refuses the run and the name has no canonical
    name. *)
Lemma long_name_without_canonical_name :
  let name := Str.zeros 4301 +:+ ".jpg" in
  Str.has_digit name = true ∧
  Spec.digit_runs name = [Str.zeros 4301] ∧
  Py.format_06d (Spec.value (Str.join (Spec.digit_runs name))) = "000000" ∧
  extract_num6 name = None.
Proof.
  intros name.
  assert (Spec.digit_runs name = [Str.zeros 4301]) as Hruns by (vm_compute; reflexivity).
  split; [vm_compute; reflexivity|]. split; [exact Hruns|]. split.
  - rewrite Hruns. cbn [Str.join]. rewrite str_app_nil_r, value_zeros.
    vm_compute. reflexivity.
  - vm_compute. reflexivity.
Qed.

(** C9 as stated fails on the same kind of text: the search finds a run, the
    concatenation is a non-empty text of digits, and [int] raises
    [ValueError]; [extract_num6] returns [None] by the handler. *)
Lemma int_raises_on_long_text :
  let name := Str.zeros 4301 in
  let s := Str.join (Re.findall name) in
  Re.findall name ≠ [] ∧ s ≠ UEmpty ∧ Str.all_digits s = true ∧
  Py.int s = Raise ValueError ∧ extract_num6 name = None.
Proof.
  intros name s. split; [vm_compute; discriminate|]. split; [vm_compute; discriminate|].
  split; [vm_compute; reflexivity|]. split; vm_compute; reflexivity.
Qed.

(** Digits of another script: 063 in Arabic-Indic digits. *)
Example extract_num6_arabic_indic :
  extract_num6 (UString 1632 (UString 1638 (UString 1635 ".jpg"))) = Some "000063".
Proof. vm_compute. reflexivity. Qed.

(** A digit of another script beside one of ASCII: one run, the number 13. *)
Example extract_num6_mixed_scripts :
  extract_num6 (UString 49 (UString 1635 ".jpg")) = Some "000013".
Proof. vm_compute. reflexivity. Qed.
